(** * Jira description extraction (backend/src/services/jiraService.ts)

    A shallow embedding of the document-to-text helpers of the Jira service:
    [decodeHtmlEntities], [htmlToPlain], [extractSectionByHeading],
    [extractTextFromNode], [adfToPlain] and the resolution policy of
    [getStory], together with the part of the JavaScript runtime they rely on
    (UTF-16 strings, [trim], [join], regular expressions with backtracking,
    JSON values and property reads). *)

From Stdlib Require Import List NArith ZArith Arith Bool Lia.
From Stdlib Require Strings.String Strings.Ascii Numbers.DecimalString.
From Stdlib Require Import Floats.SpecFloat.
Import ListNotations String.StringSyntax.
Delimit Scope string_scope with string.

Set Implicit Arguments.

(** ** JavaScript strings *)

Module Js.

(** A string is a sequence of UTF-16 code units. *)
Abbreviation jschar := N (only parsing).
Abbreviation jsstring := (list N).

(** String literals of the source, written as Rocq strings. *)
Definition js (s : String.string) : jsstring :=
  map Ascii.N_of_ascii (String.list_ascii_of_string s).
Arguments js s%_string.

Definition LF : jschar := 10%N.
Definition CR : jschar := 13%N.
Definition TAB : jschar := 9%N.
Definition SP : jschar := 32%N.
Definition DQUOTE : jschar := 34%N.
Definition SQUOTE : jschar := 39%N.
Definition BACKSLASH : jschar := 92%N.
Definition HYPHEN : jschar := 45%N.

Definition str_eqb (a b : jsstring) : bool :=
  if list_eq_dec N.eq_dec a b then true else false.

Definition is_empty (s : jsstring) : bool :=
  match s with [] => true | _ => false end.

(** WhiteSpace and LineTerminator code points of ECMAScript: what [\s]
    matches and what [String.prototype.trim] removes. *)
Definition is_space (c : jschar) : bool :=
  ((9 <=? c) && (c <=? 13) || (c =? 32) || (c =? 160) || (c =? 5760)
   || (8192 <=? c) && (c <=? 8202) || (c =? 8232) || (c =? 8233)
   || (c =? 8239) || (c =? 8287) || (c =? 12288) || (c =? 65279))%N.

Definition is_digit (c : jschar) : bool := ((48 <=? c) && (c <=? 57))%N.

Fixpoint trimStart (s : jsstring) : jsstring :=
  match s with
  | c :: s' => if is_space c then trimStart s' else s
  | [] => []
  end.

Definition trimEnd (s : jsstring) : jsstring := rev (trimStart (rev s)).

Definition trim (s : jsstring) : jsstring := trimEnd (trimStart s).

(** [Array.prototype.join] on an array of strings. *)
Fixpoint join (sep : jsstring) (l : list jsstring) : jsstring :=
  match l with
  | [] => []
  | [x] => x
  | x :: l' => x ++ sep ++ join sep l'
  end.

(** [s.split(sep)] for a separator of one character: the pieces between
    the separators, at least one. *)
Fixpoint split_on (sep : jschar) (s : jsstring) : list jsstring :=
  match s with
  | [] => [[]]
  | c :: s' =>
      if (c =? sep)%N then [] :: split_on sep s'
      else match split_on sep s' with
           | first :: others => (c :: first) :: others
           | [] => [[c]]
           end
  end.

(** [String.prototype.slice] with non-negative integer arguments. *)
Definition slice (A : Type) (s : list A) (from to : nat) : list A :=
  firstn (to - from) (skipn from s).

Definition slice_from (A : Type) (s : list A) (from : nat) : list A :=
  skipn from s.

(** [String.prototype.includes]. *)
Fixpoint starts_with (p s : jsstring) : bool :=
  match p, s with
  | [], _ => true
  | a :: p', b :: s' => (a =? b)%N && starts_with p' s'
  | _ :: _, [] => false
  end.

Fixpoint includes (s p : jsstring) : bool :=
  starts_with p s ||
  match s with
  | [] => false
  | _ :: s' => includes s' p
  end.

(** ** Regular expressions

    The fragment of the pattern language that the service uses: literal
    characters, character classes and escapes, concatenation, [?], the
    quantifiers [*], [+], [{n,}] and [*?] over a one-character atom, one level
    of capture groups, and the assertions [^] and [$] (no [m] flag). *)

Inductive regex : Type :=
| Eps
| Chr (c : jschar)
| Cls (p : jschar -> bool)
| Cat (a b : regex)
| Opt (a : regex)
| Rep (greedy : bool) (min : nat) (p : jschar -> bool)
| Grp (a : regex)
| Bol
| Eol.

(** Canonicalize of an ASCII letter under the [i] flag.  A code unit above
    127 never canonicalizes to an ASCII one, so for the ASCII literals of the
    source patterns comparing these is the whole of case-insensitivity. *)
Definition ascii_upper (c : jschar) : jschar :=
  if ((97 <=? c) && (c <=? 122))%N then (c - 32)%N else c.

Definition chr_matches (ignoreCase : bool) (c x : jschar) : bool :=
  if ignoreCase then (ascii_upper c =? ascii_upper x)%N else (c =? x)%N.

(** The remainders left after consuming 0, 1, 2, ... characters of class [p]. *)
Fixpoint rep_rests (p : jschar -> bool) (s : jsstring) : list jsstring :=
  s :: match s with
       | c :: s' => if p c then rep_rests p s' else []
       | [] => []
       end.

(** A matcher state: the captures so far and the input still to read. *)
Definition mstate : Type := list jsstring * jsstring.

(** [matches ic n r st]: every way [r] can match at [st], as the states
    reached, in the order the backtracking matcher tries them.  [n] is the
    length of the whole input, for [^]. *)
Fixpoint matches (ic : bool) (n : nat) (r : regex) (st : mstate) : list mstate :=
  let '(caps, s) := st in
  match r with
  | Eps => [st]
  | Chr c =>
      match s with
      | x :: s' => if chr_matches ic c x then [(caps, s')] else []
      | [] => []
      end
  | Cls p =>
      match s with
      | x :: s' => if p x then [(caps, s')] else []
      | [] => []
      end
  | Cat a b => flat_map (matches ic n b) (matches ic n a st)
  | Opt a => matches ic n a st ++ [st]
  | Rep greedy min p =>
      let rests := skipn min (rep_rests p s) in
      map (pair caps) (if greedy then rev rests else rests)
  | Grp a =>
      map (fun '(caps', s') =>
             (caps' ++ [firstn (length s - length s') s], s'))
          (matches ic n a st)
  | Bol => if length s =? n then [st] else []
  | Eol => match s with [] => [st] | _ => [] end
  end.

(** The match the engine reports at the current position, if any. *)
Definition match_here (ic : bool) (n : nat) (r : regex) (s : jsstring)
  : option mstate :=
  hd_error (matches ic n r ([], s)).

(** Patterns are written as sequences of items; [lit "abc"] is the pattern
    [abc]. *)
Fixpoint re_seq (rs : list regex) : regex :=
  match rs with
  | [] => Eps
  | [r] => r
  | r :: rs' => Cat r (re_seq rs')
  end.

Definition lit (s : String.string) : regex := re_seq (map Chr (js s)).

Definition star (p : jschar -> bool) : regex := Rep true 0 p.
Definition plus (p : jschar -> bool) : regex := Rep true 1 p.
Definition star_lazy (p : jschar -> bool) : regex := Rep false 0 p.
Definition chr (s : String.string) : regex := lit s.
Arguments lit s%_string.
Arguments chr s%_string.

(** One step of a global scan: a character copied, or a match. *)
Inductive piece : Type :=
| Keep (c : jschar)
| Hit (m : jsstring) (caps : list jsstring).

Definition piece_text (p : piece) : jsstring :=
  match p with
  | Keep c => [c]
  | Hit m _ => m
  end.

Section Scan.
Variable ic : bool.
Variable r : regex.
Variable n : nat.

(** Successive matches of a [g] pattern from left to right: each search
    resumes where the previous match ended (one character further after an
    empty match).  [skip] counts the characters of the last match that are
    still to be passed over. *)
Fixpoint scan_from (s : jsstring) (skip : nat) : list piece :=
  match skip, s with
  | S k, _ :: s' => scan_from s' k
  | S _, [] => []
  | O, [] =>
      match match_here ic n r [] with
      | Some (caps, _) => [Hit [] caps]
      | None => []
      end
  | O, c :: s' =>
      match match_here ic n r s with
      | Some (caps, rest) =>
          let len := length s - length rest in
          Hit (firstn len s) caps ::
            match len with
            | O => Keep c :: scan_from s' 0
            | S k => scan_from s' k
            end
      | None => Keep c :: scan_from s' 0
      end
  end.
End Scan.

Definition scan (ic : bool) (r : regex) (s : jsstring) : list piece :=
  scan_from ic r (length s) s 0.

(** [s.replace(/r/g, f)] with a replacer function of the match and its
    captures. *)
Definition replace_with (ic : bool) (r : regex)
    (f : jsstring -> list jsstring -> jsstring) (s : jsstring) : jsstring :=
  flat_map (fun p => match p with
                     | Keep c => [c]
                     | Hit m caps => f m caps
                     end) (scan ic r s).

(** [s.replace(/r/g, 'to')] for a replacement text without [$]. *)
Definition replace_all (ic : bool) (r : regex) (to : jsstring) (s : jsstring)
  : jsstring :=
  replace_with ic r (fun _ _ => to) s.

(** The matches of a [g] pattern with their start indices, as a loop over
    [exec] collects them. *)
Fixpoint hits_at (pos : nat) (ps : list piece) : list (nat * jsstring) :=
  match ps with
  | [] => []
  | Keep _ :: ps' => hits_at (S pos) ps'
  | Hit m _ :: ps' => (pos, m) :: hits_at (pos + length m) ps'
  end.

Definition exec_all (ic : bool) (r : regex) (s : jsstring)
  : list (nat * jsstring) :=
  hits_at 0 (scan ic r s).

(** [/r/.test(s)] for a pattern without the [g] flag. *)
Fixpoint test_from (ic : bool) (r : regex) (n : nat) (s : jsstring) : bool :=
  match match_here ic n r s with
  | Some _ => true
  | None => match s with
            | [] => false
            | _ :: s' => test_from ic r n s'
            end
  end.

Definition test (ic : bool) (r : regex) (s : jsstring) : bool :=
  test_from ic r (length s) s.

(** ** JSON values and the operations of the language on them *)

#[local] Set Warnings "-register-all".

Inductive value : Type :=
| VUndefined
| VNull
| VBool (b : bool)
| VNum (x : spec_float)
| VStr (s : jsstring)
| VArr (items : list value)
| VObj (props : list (jsstring * value)).

Inductive exn : Type := TypeError | SyntaxError.

(** What evaluating an expression or calling a function comes to. *)
Inductive outcome (A : Type) : Type :=
| Returns (a : A)
| Throws (e : exn)
| Loops.
Arguments Returns {A} a.
Arguments Throws {A} e.
Arguments Loops {A}.

Definition bind (A B : Type) (c : outcome A) (k : A -> outcome B) : outcome B :=
  match c with
  | Returns a => k a
  | Throws e => Throws e
  | Loops => Loops
  end.

Notation "x <- c ;; k" := (bind c (fun x => k))
  (at level 61, c at next level, right associativity).

(** [try { c } catch { h }] *)
Definition try_catch (A : Type) (c : outcome A) (h : outcome A) : outcome A :=
  match c with
  | Throws _ => h
  | _ => c
  end.

Definition truthy (v : value) : bool :=
  match v with
  | VUndefined | VNull => false
  | VBool b => b
  | VNum (S754_zero _) | VNum S754_nan => false
  | VNum _ => true
  | VStr s => negb (is_empty s)
  | VArr _ | VObj _ => true
  end.

(** [a || b] and [a ?? b] *)
Definition js_or (a b : value) : value := if truthy a then a else b.

Definition nullish (v : value) : bool :=
  match v with VUndefined | VNull => true | _ => false end.

Definition nullish_or (a b : value) : value := if nullish a then b else a.

Definition typeof_object (v : value) : bool :=
  match v with VNull | VArr _ | VObj _ => true | _ => false end.

Definition typeof_string (v : value) : bool :=
  match v with VStr _ => true | _ => false end.

Definition isArray (v : value) : bool :=
  match v with VArr _ => true | _ => false end.

(** [v === 'literal'] *)
Definition is_str (v : value) (s : jsstring) : bool :=
  match v with VStr s' => str_eqb s' s | _ => false end.

(** Property keys of array indices. *)
Definition index_key (i : nat) : jsstring :=
  js (DecimalString.NilEmpty.string_of_uint (Nat.to_uint i)).

Definition indexed (A : Type) (l : list A) : list (jsstring * A) :=
  combine (map index_key (seq 0 (length l))) l.

(** The own enumerable properties of a value, in the order [Object.keys]
    lists them. *)
Definition own_props (v : value) : list (jsstring * value) :=
  match v with
  | VObj props => props
  | VArr items => indexed items
  | VStr s => indexed (map (fun c => VStr [c]) s)
  | _ => []
  end.

Fixpoint assoc (k : jsstring) (l : list (jsstring * value)) : option value :=
  match l with
  | [] => None
  | (k', v) :: l' => if str_eqb k' k then Some v else assoc k l'
  end.

Definition number_of_nat (n : nat) : spec_float :=
  match n with
  | O => S754_zero false
  | S _ => S754_finite false (Pos.of_nat n) 0
  end.

Definition own_length (v : value) : option nat :=
  match v with
  | VArr items => Some (length items)
  | VStr s => Some (length s)
  | _ => None
  end.

(** [v?.[k]]: a read of a data property.  The members that built-in
    prototypes supply (methods, [constructor]) are not data of the payload;
    none of the names the service writes out in a read is one of them, and
    the one read whose key comes from the data is [get_member]. *)
Definition get (v : value) (k : jsstring) : value :=
  match assoc k (own_props v) with
  | Some x => x
  | None =>
      match own_length v with
      | Some n => if str_eqb k (js "length") then VNum (number_of_nat n)
                  else VUndefined
      | None => VUndefined
      end
  end.

(** [v[k]]: the same read, which throws on [null] and [undefined]. *)
Definition get_strict (v : value) (k : jsstring) : outcome value :=
  if nullish v then Throws TypeError else Returns (get v k).

Definition has_own (v : value) (k : jsstring) : bool :=
  match assoc k (own_props v) with
  | Some _ => true
  | None => match own_length v with
            | Some _ => str_eqb k (js "length")
            | None => false
            end
  end.

(** [v.hasOwnProperty(k)] on a value that is not [null] or [undefined]: an
    own property of that name hides the method, and is not callable. *)
Definition call_hasOwnProperty (v : value) (k : jsstring) : outcome bool :=
  if has_own v (js "hasOwnProperty") then Throws TypeError
  else Returns (has_own v k).

(** What a read [v?.[k]] finds when the key [k] is taken from the data: an
    own data property, or a member that the prototype chain of [v] supplies,
    which is a function ([constructor], [toString], ...) or, under
    [__proto__], the prototype object itself. *)
Inductive member : Type :=
| Data (x : value)
| Method
| Prototype (owner : value).

(** [m != null] *)
Definition member_nullish (m : member) : bool :=
  match m with
  | Data x => nullish x
  | _ => false
  end.

(** [JSON.stringify] of the prototype object of a value: [Object.prototype]
    has no enumerable property, [Array.prototype] is an empty array, and the
    prototypes of strings, numbers and booleans wrap the empty text, zero
    and [false]. *)
Definition prototype_json (v : value) : jsstring :=
  match v with
  | VArr _ => js "[]"
  | VStr _ => [DQUOTE; DQUOTE]
  | VNum _ => js "0"
  | VBool _ => js "false"
  | _ => js "{}"
  end.

Section Sequencing.
Variables A B : Type.
Variable f : A -> outcome B.

(** Calls in sequence, stopping at the first that does not return. *)
Fixpoint map_outcome (l : list A) : outcome (list B) :=
  match l with
  | [] => Returns []
  | x :: l' =>
      y <- f x ;;
      ys <- map_outcome l' ;;
      Returns (y :: ys)
  end.
End Sequencing.

(** *** Conversions

    The two conversions between Numbers and their text belong to the
    runtime and are left open. *)
Section Conversions.
Variable Number_toString : spec_float -> jsstring.
Variable StringToNumber : jsstring -> spec_float.

Fixpoint ToString (v : value) : outcome jsstring :=
  match v with
  | VUndefined => Returns (js "undefined")
  | VNull => Returns (js "null")
  | VBool b => Returns (if b then js "true" else js "false")
  | VNum x => Returns (Number_toString x)
  | VStr s => Returns s
  | VArr items =>
      (* Array.prototype.toString is join(",") *)
      parts <- map_outcome
                 (fun v => if nullish v then Returns [] else ToString v)
                 items ;;
      Returns (join (js ",") parts)
  | VObj props =>
      match assoc (js "toString") props with
      | Some _ => Throws TypeError
      | None => Returns (js "[object Object]")
      end
  end.

(** [Array.prototype.join] on an array of any values: [null] and
    [undefined] give the empty text, the others their ToString. *)
Definition join_item (v : value) : outcome jsstring :=
  if nullish v then Returns [] else ToString v.

Definition array_join (sep : jsstring) (l : list value) : outcome jsstring :=
  parts <- map_outcome join_item l ;;
  Returns (join sep parts).

Definition ToNumber (v : value) : outcome spec_float :=
  match v with
  | VUndefined => Returns S754_nan
  | VNull => Returns (S754_zero false)
  | VBool b => Returns (number_of_nat (if b then 1 else 0))
  | VNum x => Returns x
  | VStr s => Returns (StringToNumber s)
  | _ => s <- ToString v ;; Returns (StringToNumber s)
  end.

(** How many times [for (let i = 0; i < x; i++)] runs its body; [None]
    when it never ends: past 2^53 the increment no longer changes [i]. *)
Definition iterations (x : spec_float) : option N :=
  match x with
  | S754_finite false m e =>
      let c := match e with
               | Z0 => Npos m
               | Zpos k => N.shiftl (Npos m) (Npos k)
               | Zneg k => N.shiftr (Npos m + N.ones (Npos k)) (Npos k)
               end in
      if (c <=? N.shiftl 1 53)%N then Some c else None
  | S754_infinity false => None
  | _ => Some 0%N
  end.

(** The values [content[i]] that [for (let i = 0; i < content.length; i++)]
    visits, and whether the loop then goes on for ever on the last one. *)
Definition index_loop (content : value) : outcome (list value * bool) :=
  match content with
  | VArr items => Returns (items, false)
  | VStr s => Returns (map (fun c => VStr [c]) s, false)
  | VObj _ =>
      len <- ToNumber (get content (js "length")) ;;
      let visit n := map (fun i => get content (index_key i)) (seq 0 n) in
      match iterations len with
      | Some n => Returns (visit (N.to_nat n), false)
      | None => Returns (visit (S (N.to_nat (N.shiftl 1 53))), true)
      end
  | _ => Returns ([], false)
  end.
End Conversions.

(** [v.trim()] *)
Definition call_trim (v : value) : outcome jsstring :=
  match v with
  | VStr s => Returns (trim s)
  | _ => Throws TypeError
  end.

(** The nesting depth of a value. *)
Fixpoint depth (v : value) : nat :=
  match v with
  | VArr items => S (list_max (map depth items))
  | VObj props => S (list_max (map (fun p => depth (snd p)) props))
  | _ => O
  end.

End Js.

(** ** The service: HTML to plain text *)

Module JiraService.
Import Js.

(** [parseInt(d, 10)]: leading white space, an optional sign, then the
    longest run of decimal digits; [None] is NaN. *)
Fixpoint digits_value (acc : N) (d : jsstring) : N :=
  match d with
  | c :: d' => if is_digit c then digits_value (10 * acc + (c - 48)) d' else acc
  | [] => acc
  end.

Definition parseInt10 (s : jsstring) : option Z :=
  let t := trimStart s in
  let '(neg, body) :=
    match t with
    | c :: t' => if (c =? 45)%N then (true, t')
                 else if (c =? 43)%N then (false, t') else (false, t)
    | [] => (false, t)
    end in
  match body with
  | c :: _ =>
      if is_digit c
      then let v := Z.of_N (digits_value 0 body) in
           Some (if neg then (- v)%Z else v)
      else None
  | [] => None
  end.

(** The Number nearest to a natural number (binary64, ties to even);
    [None] is Infinity.  Engines compute [parseInt] of a long digit string
    exactly and round once, which is what this does. *)
Definition round_to_double (n : N) : option N :=
  let bits := N.size n in
  if (bits <=? 53)%N then Some n
  else
    let sh := (bits - 53)%N in
    let q := N.shiftr n sh in
    let rem := N.land n (N.ones sh) in
    let half := N.shiftl 1 (sh - 1) in
    let q' := if (half <? rem)%N || ((rem =? half)%N && N.odd q)
              then (q + 1)%N else q in
    let v := N.shiftl q' sh in
    if (N.shiftl 1 1024 <=? v)%N then None else Some v.

(** [String.fromCharCode(x)] for the Number [x] that [parseInt] returned:
    ToUint16 of it, NaN and the infinities giving 0. *)
Definition fromCharCode (x : option Z) : jsstring :=
  match x with
  | None => [0%N]
  | Some z =>
      match round_to_double (Z.abs_N z) with
      | None => [0%N]
      | Some m =>
          [Z.to_N ((if (z <? 0)%Z then - Z.of_N m else Z.of_N m) mod 65536)%Z]
      end
  end.

Definition decodeHtmlEntities (s : jsstring) : jsstring :=
  let s := replace_all false (lit "&nbsp;") (js " ") s in
  let s := replace_all false (lit "&amp;") (js "&") s in
  let s := replace_all false (lit "&lt;") (js "<") s in
  let s := replace_all false (lit "&gt;") (js ">") s in
  let s := replace_all false (lit "&quot;") [DQUOTE] s in
  let s := replace_all false (lit "&#39;") [SQUOTE] s in
  replace_with false (re_seq [lit "&#"; Grp (plus is_digit); chr ";"])
    (fun _ caps => fromCharCode (parseInt10 (nth 0 caps []))) s.

Definition not_gt (c : jschar) : bool := negb (c =? 62)%N.
Definition blank (c : jschar) : bool := (c =? SP)%N || (c =? TAB)%N.
Definition any_char (c : jschar) : bool := true.
Definition one_to_six (c : jschar) : bool := ((49 <=? c) && (c <=? 54))%N.

Definition htmlToPlain (html : jsstring) : jsstring :=
  if is_empty html then []
  else
    let out := html in
    (* normalize bullets & breaks before stripping tags *)
    let out := replace_all true (re_seq [lit "</li>"; star is_space; lit "<li>"])
                 (js "</li>" ++ [LF] ++ js "<li>") out in
    let out := replace_all true (re_seq [lit "<li"; star not_gt; chr ">"])
                 (LF :: js "- ") out in
    let out := replace_all true (lit "</li>") [] out in
    let out := replace_all true
                 (re_seq [lit "<br"; star is_space; Opt (chr "/"); chr ">"])
                 [LF] out in
    let out := replace_all true
                 (re_seq [lit "</p>"; star is_space; lit "<p"; star not_gt; chr ">"])
                 [LF; LF] out in
    let out := replace_all true (re_seq [lit "<p"; star not_gt; chr ">"]) [] out in
    let out := replace_all true (lit "</p>") [LF] out in
    (* strip remaining tags *)
    let out := replace_all false (re_seq [chr "<"; plus not_gt; chr ">"]) [] out in
    (* decode & clean *)
    let out := decodeHtmlEntities out in
    let out := replace_all false (Chr CR) [] out in
    let out := replace_all false (re_seq [plus blank; Chr LF]) [LF] out in
    let out := replace_all false (Rep true 3 (N.eqb LF)) [LF; LF] out in
    trim out.

(** *** Section extraction by heading *)

Record heading : Type := { h_start : nat; h_end : nat; h_text : jsstring }.

Record section : Type :=
  { sectionHtml : jsstring; withoutSectionHtml : jsstring }.

(** [/<h[1-6][^>]*>[\s\S]*?<\/h[1-6]>/gi] *)
Definition headingRegex : regex :=
  re_seq [lit "<h"; Cls one_to_six; star not_gt; chr ">"; star_lazy any_char;
       lit "</h"; Cls one_to_six; chr ">"].

(** The [while ((m = headingRegex.exec(html)) !== null)] loop. *)
Definition headings_of (html : jsstring) : list heading :=
  map (fun '(index, raw) =>
         {| h_start := index;
            h_end := index + length raw;
            h_text := trim (htmlToPlain raw) |})
      (exec_all true headingRegex html).

(** The [for] loop that stops at the first element passing the test. *)
Fixpoint find_index (A : Type) (f : A -> bool) (l : list A) : option nat :=
  match l with
  | [] => None
  | x :: l' => if f x then Some 0 else option_map S (find_index f l')
  end.

Definition no_heading : heading := {| h_start := 0; h_end := 0; h_text := [] |}.

(** [contains] is the [test] method of a pattern without the [g] and [y]
    flags, so a pure predicate on the heading text. *)
Definition extractSectionByHeading (html : jsstring)
    (contains : jsstring -> bool) : option section :=
  if is_empty html then None
  else
    let headings := headings_of html in
    match find_index (fun h => contains (h_text h)) headings with
    | None => None
    | Some idx =>
        let acHead := nth idx headings no_heading in
        let sectionStart := h_end acHead in
        let sectionEnd :=
          if idx + 1 <? length headings
          then h_start (nth (idx + 1) headings no_heading)
          else length html in
        Some {| sectionHtml := slice html sectionStart sectionEnd;
                withoutSectionHtml :=
                  slice html 0 (h_start acHead) ++ slice_from html sectionEnd |}
    end.

(** [/acceptance\s*criteria/i], the pattern [getStory] looks for. *)
Definition acceptanceCriteriaRegex : regex :=
  re_seq [lit "acceptance"; star is_space; lit "criteria"].

(** *** Atlassian Document Format *)

Section Runtime.

(** Supplied by the runtime: the conversions between Numbers and text,
    [JSON.parse] ([None] when it throws SyntaxError), [JSON.stringify] of a
    value other than [undefined], [String.prototype.toLowerCase], and the
    functions of the built-in prototypes: [inherited_method v k] says
    whether the prototype chain of [v] has a function named [k]. *)
Variable Number_toString : spec_float -> jsstring.
Variable StringToNumber : jsstring -> spec_float.
Variable JSON_parse : jsstring -> option value.
Variable JSON_stringify : value -> jsstring.
Variable toLowerCase : jsstring -> jsstring.
Variable inherited_method : value -> jsstring -> bool.

(** [arr.map(f)]; only arrays have the method. *)
Definition array_map (f : value -> outcome value) (arr : value)
  : outcome (list value) :=
  match arr with
  | VArr items => map_outcome f items
  | _ => Throws TypeError
  end.

(** Recursively extracts text from ADF nodes: the body of the function,
    with [self] for the function itself in the recursive calls. *)
Definition extractTextFromNode_body (self : value -> outcome value)
    (node : value) : outcome value :=
  if negb (truthy node) then Returns (VStr [])
  (* Handle text nodes *)
  else if is_str (get node (js "type")) (js "text") then
    Returns (js_or (get node (js "text")) (VStr []))
  (* Handle paragraphs *)
  else if is_str (get node (js "type")) (js "paragraph") then
    parts <- array_map self (js_or (get node (js "content")) (VArr [])) ;;
    text <- array_join Number_toString [] parts ;;
    Returns (VStr text)
  (* Handle bullet lists and list items *)
  else if is_str (get node (js "type")) (js "bulletList")
          || is_str (get node (js "type")) (js "orderedList") then
    parts <- array_map self (js_or (get node (js "content")) (VArr [])) ;;
    text <- array_join Number_toString [LF] parts ;;
    Returns (VStr text)
  else if is_str (get node (js "type")) (js "listItem") then
    parts <- array_map self (js_or (get node (js "content")) (VArr [])) ;;
    text <- array_join Number_toString (js " ") parts ;;
    Returns (VStr (if negb (is_empty (trim text))
                   then js "- " ++ trim text else []))
  (* Handle other block types *)
  else if truthy (get node (js "content"))
          && isArray (get node (js "content")) then
    parts <- array_map self (get node (js "content")) ;;
    text <- array_join Number_toString [LF] parts ;;
    Returns (VStr text)
  else Returns (VStr []).

(** The recursion follows the nesting of the node; [fuel] bounds it, and
    [extractTextFromNode] supplies more than the node is deep. *)
Fixpoint extractTextFromNode_rec (fuel : nat) (node : value) : outcome value :=
  match fuel with
  | O => Loops
  | S fuel' => extractTextFromNode_body (extractTextFromNode_rec fuel') node
  end.

Definition extractTextFromNode (node : value) : outcome value :=
  extractTextFromNode_rec (S (depth node)) node.

(** [/^acceptance\s*criteria\s*:?\s*$/i] *)
Definition acHeadingRegex : regex :=
  re_seq [Bol; lit "acceptance"; star is_space; lit "criteria"; star is_space;
          Opt (chr ":"); star is_space; Eol].

Record AdfText : Type :=
  { description : jsstring; acceptanceCriteria : jsstring }.

(** [if (text) arr.push(text)] *)
Definition push_text (arr : list jsstring) (text : jsstring) : list jsstring :=
  if is_empty text then arr else arr ++ [text].

(** The body of the loop of [adfToPlain] over the nodes still to visit. *)
Fixpoint adf_loop (nodes : list value) (beforeAC acContent : list jsstring)
    (foundACHeading : bool) : outcome (list jsstring * list jsstring) :=
  match nodes with
  | [] => Returns (beforeAC, acContent)
  | node :: rest =>
      rendered <- extractTextFromNode node ;;
      text <- call_trim rendered ;;
      (* Check if this node contains "Acceptance Criteria:" heading *)
      if negb foundACHeading && test true acHeadingRegex text
      then adf_loop rest beforeAC acContent true
      else if foundACHeading
      then adf_loop rest beforeAC (push_text acContent text) foundACHeading
      else adf_loop rest (push_text beforeAC text) acContent foundACHeading
  end.

(** Extracts plain text from ADF format, with support for AC detection and
    separation. *)
Definition adfToPlain (adfJson : value) : outcome AdfText :=
  if negb (truthy adfJson) || negb (typeof_object adfJson)
  then Returns {| description := []; acceptanceCriteria := [] |}
  else
    let content := js_or (get adfJson (js "content")) (VArr []) in
    visited <- index_loop Number_toString StringToNumber content ;;
    collected <- adf_loop (fst visited) [] [] false ;;
    if snd visited then Loops
    else Returns {| description := trim (join [LF] (fst collected));
                    acceptanceCriteria := trim (join [LF] (snd collected)) |}.

(** *** The resolution policy of [getStory] *)

(** [htmlToPlain] called on a value of any type: anything falsy gives the
    empty text, and only strings have [replace]. *)
Definition htmlToPlain_value (html : value) : outcome value :=
  if negb (truthy html) then Returns (VStr [])
  else match html with
       | VStr s => Returns (VStr (htmlToPlain s))
       | _ => Throws TypeError
       end.

Definition stringify (v : value) : value :=
  match v with
  | VUndefined => VUndefined
  | _ => VStr (JSON_stringify v)
  end.

(** [typeof v === 'string' ? htmlToPlain(v) : htmlToPlain(JSON.stringify(v))] *)
Definition plain_of_field (v : value) : outcome value :=
  if typeof_string v then htmlToPlain_value v
  else htmlToPlain_value (stringify v).

(** [extractSectionByHeading] called on a value of any type.  [exec] reads
    its argument as text; [slice] and [length] are those of the value, which
    only strings and arrays have. *)
Definition extractSectionByHeading_value (html : value)
    (contains : jsstring -> bool) : outcome (option (value * value)) :=
  if negb (truthy html) then Returns None
  else
    match html with
    | VStr s =>
        Returns (option_map
                   (fun p => (VStr (sectionHtml p), VStr (withoutSectionHtml p)))
                   (extractSectionByHeading s contains))
    | _ =>
        text <- ToString Number_toString html ;;
        let headings := headings_of text in
        match find_index (fun h => contains (h_text h)) headings with
        | None => Returns None
        | Some idx =>
            match html with
            | VArr items =>
                let acHead := nth idx headings no_heading in
                let sectionStart := h_end acHead in
                let sectionEnd :=
                  if idx + 1 <? length headings
                  then h_start (nth (idx + 1) headings no_heading)
                  else length items in
                before <- ToString Number_toString
                            (VArr (slice items 0 (h_start acHead))) ;;
                after <- ToString Number_toString
                           (VArr (slice_from items sectionEnd)) ;;
                Returns (Some (VArr (slice items sectionStart sectionEnd),
                               VStr (before ++ after)))
            | _ => Throws TypeError
            end
        end
    end.

Record StoryDetails : Type :=
  { story_key : jsstring;
    story_title : value;
    story_description : value;
    story_acceptanceCriteria : value }.

(** [v?.[k]] with a key [k] taken from the data: the own property when
    there is one, else what the prototype chain supplies. *)
Definition get_member (v : value) (k : jsstring) : member :=
  if has_own v k then Data (get v k)
  else if nullish v then Data VUndefined
  else if str_eqb k (js "__proto__") then Prototype v
  else if inherited_method v k then Method
  else Data VUndefined.

(** [JSON.stringify(m)]: [undefined] for a function. *)
Definition stringify_member (m : member) : value :=
  match m with
  | Data x => stringify x
  | Method => VUndefined
  | Prototype owner => VStr (prototype_json owner)
  end.

(** [typeof m === 'string' ? htmlToPlain(m) : htmlToPlain(JSON.stringify(m))] *)
Definition plain_of_member (m : member) : outcome value :=
  match m with
  | Data x => plain_of_field x
  | _ => htmlToPlain_value (stringify_member m)
  end.

(** Step 2, the loop over [Object.keys(names)]: the first field whose label
    names the acceptance criteria and whose value is not null. *)
Fixpoint discover_ac (names fields : value) (fieldIds : list jsstring)
    (acPlain : value) : outcome value :=
  match fieldIds with
  | [] => Returns acPlain
  | fieldId :: rest =>
      text <- ToString Number_toString
                (js_or (get names fieldId) (VStr [])) ;;
      let label := toLowerCase text in
      if includes label (js "acceptance") && includes label (js "criteria")
      then
        let v := get_member fields fieldId in
        if negb (member_nullish v) then plain_of_member v
        else discover_ac names fields rest acPlain
      else discover_ac names fields rest acPlain
  end.

(** 1) Specific AC custom field (if configured).  [configuredKey] is
    [process.env.JIRA_AC_FIELD_KEY]. *)
Definition configured_ac (configuredKey : option jsstring) (fields : value)
    (acPlain : value) : outcome value :=
  match configuredKey with
  | Some k =>
      if is_empty k || nullish fields then Returns acPlain
      else
        own <- call_hasOwnProperty fields k ;;
        if own then plain_of_field (get fields k) else Returns acPlain
  | None => Returns acPlain
  end.

(** 2) Auto-discover AC field by visible name *)
Definition discovered_ac (data fields : value) (acPlain : value)
  : outcome value :=
  if negb (truthy acPlain)
  then
    let names := js_or (get data (js "names")) (VObj []) in
    discover_ac names fields (map fst (own_props names)) acPlain
  else Returns acPlain.

(** Step 3 on a description that is a string: ADF stored as text. *)
Definition parse_description (desc : jsstring) (acPlain : value)
  : outcome (value * value) :=
  try_catch
    (match JSON_parse desc with
     | None => Throws SyntaxError
     | Some parsed =>
         type <- get_strict parsed (js "type") ;;
         if is_str type (js "doc") && isArray (get parsed (js "content"))
         then
           parts <- adfToPlain parsed ;;
           Returns (VStr (description parts), VStr (acceptanceCriteria parts))
         else
           (* Parsed JSON but not ADF format, treat as plain text *)
           Returns (VStr desc, acPlain)
     end)
    (* Not JSON, treat as plain text *)
    (Returns (VStr desc, acPlain)).

(** 3) Try to extract from description - handle ADF format first.  The
    result is the pair of [descriptionPlain] and [acPlain]. *)
Definition from_description (fields : value) (descriptionPlain acPlain : value)
  : outcome (value * value) :=
  if negb (truthy acPlain) && truthy (get fields (js "description"))
  then
    let desc := get fields (js "description") in
    if typeof_object desc && is_str (get desc (js "type")) (js "doc")
       && isArray (get desc (js "content"))
    then
      parts <- adfToPlain desc ;;
      Returns (VStr (description parts), VStr (acceptanceCriteria parts))
    else
      match desc with
      | VStr s => parse_description s acPlain
      | _ => Returns (descriptionPlain, acPlain)
      end
  else Returns (descriptionPlain, acPlain).

(** 4) Try HTML rendered description if AC still not found *)
Definition from_rendered (renderedDesc : value) (descriptionPlain acPlain : value)
  : outcome (value * value) :=
  if negb (truthy acPlain) && truthy renderedDesc
  then
    picked <- extractSectionByHeading_value renderedDesc
                (test true acceptanceCriteriaRegex) ;;
    let otherwise :=
      if negb (truthy descriptionPlain)
      then
        d <- htmlToPlain_value renderedDesc ;;
        Returns (d, acPlain)
      else Returns (descriptionPlain, acPlain) in
    match picked with
    | Some (sectionHtml, withoutSectionHtml) =>
        if truthy sectionHtml
        then
          ac <- htmlToPlain_value sectionHtml ;;
          d <- htmlToPlain_value withoutSectionHtml ;;
          Returns (d, ac)
        else otherwise
    | None => otherwise
    end
  else Returns (descriptionPlain, acPlain).

(** 5) Finalize: use rendered or fallback to raw *)
Definition finalize_description (renderedDesc fields : value)
    (descriptionPlain : value) : outcome value :=
  if negb (truthy descriptionPlain)
  then
    if truthy renderedDesc then htmlToPlain_value renderedDesc
    else if typeof_string (get fields (js "description"))
    then
      d <- call_trim (get fields (js "description")) ;;
      Returns (VStr d)
    else if truthy (get fields (js "description"))
    then htmlToPlain_value (stringify (get fields (js "description")))
    else Returns descriptionPlain
  else Returns descriptionPlain.

(** [getStory] from the response [data] of the issue request on: a story
    with plain-text description and acceptance criteria. *)
Definition getStory (configuredKey : option jsstring) (key : jsstring)
    (data : value) : outcome StoryDetails :=
  fields <- get_strict data (js "fields") ;;
  let title := nullish_or (get fields (js "summary")) (VStr key) in
  let descriptionPlain := VUndefined in
  let acPlain := VUndefined in
  acPlain <- configured_ac configuredKey fields acPlain ;;
  acPlain <- discovered_ac data fields acPlain ;;
  found <- from_description fields descriptionPlain acPlain ;;
  let descriptionPlain := fst found in
  let acPlain := snd found in
  let renderedDesc := get (get data (js "renderedFields")) (js "description") in
  found <- from_rendered renderedDesc descriptionPlain acPlain ;;
  let descriptionPlain := fst found in
  let acPlain := snd found in
  descriptionPlain <- finalize_description renderedDesc fields descriptionPlain ;;
  Returns {| story_key := key;
             story_title := title;
             story_description := js_or descriptionPlain (VStr []);
             story_acceptanceCriteria := js_or acPlain (VStr []) |}.

(** *** Issue types, searches and subtasks *)

(** [/story/i] *)
Definition storyRegex : regex := lit "story".

(** [Array.from(new Set(names))]: the first occurrence of each name, in the
    order of the array; [seen] holds the names already in the set. *)
Fixpoint set_from (seen : list jsstring) (names : list jsstring)
  : list jsstring :=
  match names with
  | [] => []
  | n :: rest =>
      if existsb (str_eqb n) seen then set_from seen rest
      else n :: set_from (n :: seen) rest
  end.

(** [String(t?.name || '').trim()] *)
Definition issueTypeName (t : value) : outcome jsstring :=
  text <- ToString Number_toString (js_or (get t (js "name")) (VStr [])) ;;
  Returns (trim text).

(** [getStoryTypeNames] from the response [all] of the issue type request
    on: all issue type names on the site that look like "story", and
    ["Story"] when none is found. *)
Definition getStoryTypeNames (all : value) : outcome (list jsstring) :=
  match js_or all (VArr []) with
  | VArr types =>
      names <- map_outcome issueTypeName types ;;
      let names := filter (fun n => negb (is_empty n)) names in
      let storyish := set_from [] (filter (test true storyRegex) names) in
      Returns (match storyish with
               | [] => [js "Story"]
               | _ :: _ => storyish
               end)
  | _ => Throws TypeError
  end.

(** The quoting of a name in [getStories]: the name between double quotes,
    with a backslash before each of its own double quotes. *)
Definition quoteName (n : jsstring) : jsstring :=
  [DQUOTE] ++ replace_all false (Chr DQUOTE) [BACKSLASH; DQUOTE] n ++ [DQUOTE].

(** The JQL of [getStories], built only with the issue types found. *)
Definition storyJql (storyNames : list jsstring) : jsstring :=
  js "issuetype in (" ++ join (js ", ") (map quoteName storyNames)
  ++ js ") ORDER BY created DESC".

(** [parentData.key.split('-')[0]], the project key in [createSubtask];
    only strings have [split]. *)
Definition projectKeyOf (parentData : value) : outcome jsstring :=
  key <- get_strict parentData (js "key") ;;
  match key with
  | VStr s => Returns (nth 0 (split_on HYPHEN s) [])
  | _ => Throws TypeError
  end.

End Runtime.

End JiraService.

Import Js JiraService.

(** * Vocabulary of the properties *)

Inductive scanned (ic : bool) (r : regex) (n : nat)
  : jsstring -> list piece -> Prop :=
| scanned_end :
    match_here ic n r [] = None -> scanned ic r n [] []
| scanned_end_hit caps rest :
    match_here ic n r [] = Some (caps, rest) ->
    scanned ic r n [] [Hit [] caps]
| scanned_keep c s ps :
    match_here ic n r (c :: s) = None ->
    scanned ic r n s ps ->
    scanned ic r n (c :: s) (Keep c :: ps)
| scanned_empty c s caps ps :
    match_here ic n r (c :: s) = Some (caps, c :: s) ->
    scanned ic r n s ps ->
    scanned ic r n (c :: s) (Hit [] caps :: Keep c :: ps)
| scanned_hit m rest caps ps :
    m <> [] ->
    match_here ic n r (m ++ rest) = Some (caps, rest) ->
    scanned ic r n rest ps ->
    scanned ic r n (m ++ rest) (Hit m caps :: ps).

(** A pattern that begins with a literal character. *)
Fixpoint first_chr (r : regex) : option jschar :=
  match r with
  | Chr c => Some c
  | Cat a _ => first_chr a
  | Grp a => first_chr a
  | _ => None
  end.

(** Where the section of the heading at [idx] ends. *)
Definition section_end (html : jsstring) (idx : nat) : nat :=
  match nth_error (headings_of html) (S idx) with
  | Some h' => h_start h'
  | None => length html
  end.

(** *** Documented shapes *)

Definition container_type (type : value) : bool :=
  is_str type (js "paragraph") || is_str type (js "bulletList")
  || is_str type (js "orderedList") || is_str type (js "listItem").

(** The nodes of a structured document as it is documented: a text node
    carries a string when it carries a text at all, and a paragraph, list or
    list item carries an array of such nodes when it carries a content at
    all.  A node of another type may carry anything as its content, its
    children being such nodes when that is an array, and any value that is
    not an object stands for a node of no recognized shape. *)
Fixpoint node_shape_rec (fuel : nat) (node : value) : bool :=
  match fuel with
  | O => false
  | S fuel' =>
      match node with
      | VObj _ =>
          let type := get node (js "type") in
          let content := get node (js "content") in
          if is_str type (js "text")
          then negb (truthy (get node (js "text")))
               || typeof_string (get node (js "text"))
          else
            match content with
            | VArr items => forallb (node_shape_rec fuel') items
            | _ => negb (container_type type) || negb (truthy content)
            end
      | _ => true
      end
  end.

Definition documented_node (node : value) : bool :=
  node_shape_rec (S (depth node)) node.

(** A document: an object whose content, when it has one, is an array of
    documented nodes; or any value that is not an object. *)
Definition documented_doc (doc : value) : bool :=
  match doc with
  | VObj _ =>
      match get doc (js "content") with
      | VArr items => forallb documented_node items
      | content => negb (truthy content)
      end
  | _ => true
  end.

Definition is_object (v : value) : bool :=
  match v with VObj _ => true | _ => false end.

Definition nonempty (s : jsstring) : bool := negb (is_empty s).

(** The boundary test of [adfToPlain]. *)
Definition is_ac_heading (text : jsstring) : bool := test true acHeadingRegex text.

(** The rendered, trimmed text of a top-level node. *)
Definition rendered_text (Number_toString : spec_float -> jsstring)
    (node : value) : outcome jsstring :=
  rendered <- extractTextFromNode Number_toString node ;; call_trim rendered.

(** The branch of [extractTextFromNode] for the types it does not name. *)
Definition named_type (type : value) : bool :=
  is_str type (js "text") || container_type type.

(** *** Sample documents *)

Module Samples.

Definition node (type : String.string) (content : list value) : value :=
  VObj [(js "type", VStr (js type)); (js "content", VArr content)].
Arguments node type%_string content.

Definition text (s : String.string) : value :=
  VObj [(js "type", VStr (js "text")); (js "text", VStr (js s))].
Arguments text s%_string.

Definition paragraph (s : String.string) : value := node "paragraph" [text s].
Arguments paragraph s%_string.

(** A bullet list of one item, the item holding one paragraph. *)
Definition bullet (s : String.string) : value :=
  node "bulletList" [node "listItem" [paragraph s]].
Arguments bullet s%_string.

Definition story_doc : value :=
  VObj [(js "type", VStr (js "doc"));
        (js "content",
         VArr [paragraph "Desc line"; paragraph "Acceptance Criteria:";
               bullet "item one"; bullet "item two"])].

(** A runtime for the samples: none of them holds a Number, is parsed or
    printed as JSON, or has a capital letter in a field label, and the
    only inherited functions they could meet are those of objects. *)
Definition number_text (x : spec_float) : jsstring := js "0".
Definition text_number (s : jsstring) : spec_float := S754_nan.
Definition no_parse (s : jsstring) : option value := None.
Definition no_stringify (v : value) : jsstring := js "null".
Definition same_case (s : jsstring) : jsstring := s.

(** The functions of [Object.prototype], which every value other than
    [null] and [undefined] inherits. *)
Definition object_methods (v : value) (k : jsstring) : bool :=
  negb (nullish v)
  && existsb (str_eqb k)
       (map js ["constructor"; "hasOwnProperty"; "isPrototypeOf";
                "propertyIsEnumerable"; "toLocaleString"; "toString";
                "valueOf"; "__defineGetter__"; "__defineSetter__";
                "__lookupGetter__"; "__lookupSetter__"]%string).



(** An issue whose description is a document without boundary, and which
    has no field for the acceptance criteria. *)
Definition plain_issue : value :=
  VObj [(js "key", VStr (js "PRJ-5"));
        (js "fields",
         VObj [(js "summary", VStr (js "A story"));
               (js "description",
                VObj [(js "type", VStr (js "doc"));
                      (js "content", VArr [paragraph "Only text"])])]);
        (js "names", VObj [(js "summary", VStr (js "Summary"))]);
        (js "renderedFields",
         VObj [(js "description", VStr (js "<p>Only text</p>"))])].

(** Nodes that are not as documented: a paragraph and a panel whose content
    is a text instead of an array of nodes, and a text node whose text is a
    number; documents that hold them at the top level; and an issue with
    the first document for description. *)
Definition text_content_paragraph : value :=
  VObj [(js "type", VStr (js "paragraph")); (js "content", VStr (js "abc"))].

Definition text_content_panel : value :=
  VObj [(js "type", VStr (js "panel")); (js "content", VStr (js "abc"))].

Definition numeric_text : value :=
  VObj [(js "type", VStr (js "text"));
        (js "text", VNum (S754_finite false 5 0))].

Definition text_content_doc : value :=
  VObj [(js "type", VStr (js "doc"));
        (js "content", VArr [text_content_paragraph])].

Definition numeric_text_doc : value :=
  VObj [(js "type", VStr (js "doc")); (js "content", VArr [numeric_text])].

Definition text_content_issue : value :=
  VObj [(js "key", VStr (js "PRJ-6"));
        (js "fields",
         VObj [(js "summary", VStr (js "A story"));
               (js "description", text_content_doc)])].

(** The first document as JSON text, a parser that knows this one text,
    and an issue that has the text for description. *)
Definition text_content_json : jsstring :=
  map (fun c => if (c =? SQUOTE)%N then DQUOTE else c)
      (js "{'type':'doc','content':[{'type':'paragraph','content':'abc'}]}").

Definition parse_text_content (s : jsstring) : option value :=
  if str_eqb s text_content_json then Some text_content_doc else None.

Definition stored_text_content_issue : value :=
  VObj [(js "key", VStr (js "PRJ-6"));
        (js "fields",
         VObj [(js "summary", VStr (js "A story"));
               (js "description", VStr text_content_json)])].

(** An issue with two fields labelled as acceptance criteria, the first of
    them under a name that every object inherits a function for. *)
Definition inherited_name_issue : value :=
  VObj [(js "key", VStr (js "PRJ-7"));
        (js "fields", VObj [(js "customfield_1", VStr (js "real"))]);
        (js "names",
         VObj [(js "constructor", VStr (js "acceptance criteria"));
               (js "customfield_1", VStr (js "acceptance criteria"))])].

End Samples.

(** Some character of class [p] is immediately followed by one of class [q]. *)
Fixpoint has_pair (p q : jschar -> bool) (s : jsstring) : bool :=
  match s with
  | x :: s' =>
      match s' with
      | y :: _ => p x && q y
      | [] => false
      end || has_pair p q s'
  | [] => false
  end.

(** The number of characters of class [p] that [s] begins with. *)
Fixpoint lead (p : jschar -> bool) (s : jsstring) : nat :=
  match s with
  | x :: s' => if p x then S (lead p s') else 0
  | [] => 0
  end.

(** Somewhere [k] or more characters of class [p] follow one another. *)
Fixpoint has_run (p : jschar -> bool) (k : nat) (s : jsstring) : bool :=
  (k <=? lead p s) ||
  match s with
  | _ :: s' => has_run p k s'
  | [] => false
  end.

(** Blanks, then a newline. *)
Fixpoint blanks_then_lf (s : jsstring) : bool :=
  match s with
  | x :: s' => (LF =? x)%N || (blank x && blanks_then_lf s')
  | [] => false
  end.

(** The text that a replacement by [to] makes of a scan. *)
Definition emit (to : jsstring) (ps : list piece) : jsstring :=
  flat_map (fun p => match p with Keep c => [c] | Hit _ _ => to end) ps.

Definition starts_lf (s : jsstring) : bool :=
  match s with
  | y :: _ => (LF =? y)%N
  | [] => false
  end.

(** The last three replacements of [htmlToPlain] and the final [trim]. *)
Definition stripCR : regex := Chr CR.
Definition blanksBeforeNewline : regex := re_seq [plus blank; Chr LF].
Definition newlineRun : regex := Rep true 3 (N.eqb LF).

(** The text after the three last replacements and [trim]. *)
Definition cleaned (x : jsstring) : jsstring :=
  trim (replace_all false newlineRun [LF; LF]
          (replace_all false blanksBeforeNewline [LF]
             (replace_all false stripCR [] x))).

(** The values that [descriptionPlain] and [acPlain] may hold. *)
Definition text_or_undefined (v : value) : bool :=
  match v with
  | VUndefined | VStr _ => true
  | _ => false
  end.


(** The text holds no [<] and no [&]. *)
Definition plain_text (s : jsstring) : bool :=
  forallb (fun c => negb (c =? 60)%N && negb (c =? 38)%N) s.

(** No field is configured for the acceptance criteria, or the issue has no
    field of that name. *)
Definition no_configured_field (configuredKey : option jsstring)
    (fields : value) : bool :=
  match configuredKey with
  | None => true
  | Some k =>
      is_empty k || nullish fields
      || (negb (has_own fields (js "hasOwnProperty"))
          && negb (has_own fields k))
  end.

(** The label says acceptance criteria, as step 2 of [getStory] tests it. *)
Definition is_ac_label (toLowerCase : jsstring -> jsstring)
    (text : jsstring) : bool :=
  includes (toLowerCase text) (js "acceptance")
  && includes (toLowerCase text) (js "criteria").

(** Every label of [names] is a text, or missing, and none of them says
    acceptance criteria. *)
Definition no_ac_label (toLowerCase : jsstring -> jsstring)
    (names : value) : bool :=
  forallb (fun kv =>
             match js_or (snd kv) (VStr []) with
             | VStr s => negb (is_ac_label toLowerCase s)
             | _ => false
             end)
          (own_props names).


(** * Properties *)
Unset Implicit Arguments.

(** ** Worked conversions of [htmlToPlain] *)

Module HtmlExamples.

(** C3, as the specification states it, does not hold: the two paragraph
    texts are not one newline apart. *)
Lemma paragraphs_not_single_newline :
  htmlToPlain (js "<p>Hello</p><p>World</p>") <> js "Hello" ++ [LF] ++ js "World".
Proof. vm_compute. discriminate. Qed.

(** C3, amended: the closing and opening paragraph tags between two
    paragraphs are replaced together by two newlines, so
    [htmlToPlain "<p>Hello</p><p>World</p>"] is "Hello", an empty line,
    "World". *)
Theorem paragraphs_double_newline :
  htmlToPlain (js "<p>Hello</p><p>World</p>")
  = js "Hello" ++ [LF; LF] ++ js "World".
Proof. vm_compute. reflexivity. Qed.

(** C4, as the specification states it, does not hold: the bullet lines are
    not one newline apart. *)
Lemma bullets_not_single_newline :
  htmlToPlain (js "<ul><li>A</li><li>B</li></ul>") <> js "- A" ++ [LF] ++ js "- B".
Proof. vm_compute. discriminate. Qed.

(** C4, amended: a newline is put between adjacent list items and every
    opening item tag then becomes a newline and a dash, so
    [htmlToPlain "<ul><li>A</li><li>B</li></ul>"] is "- A", an empty line,
    "- B". *)
Theorem bullets_double_newline :
  htmlToPlain (js "<ul><li>A</li><li>B</li></ul>")
  = js "- A" ++ [LF; LF] ++ js "- B".
Proof. vm_compute. reflexivity. Qed.

(** C8. The example of the specification holds: [htmlToPlain "&amp;nbsp;"] is the
    six characters [&nbsp;] and not a space, since [&nbsp;] is replaced
    before [&amp;].  For the entities that are replaced after [&amp;], which
    are [&lt;], [&gt;], [&quot;], [&#39;] and the numeric references, the
    code decodes a double-encoded input through both levels, where one
    level would leave [&lt;] and the like. *)
Theorem entities_decoded_in_sequence :
  htmlToPlain (js "&amp;nbsp;") = js "&nbsp;" /\
  htmlToPlain (js "&amp;nbsp;") <> js " " /\
  htmlToPlain (js "x &amp;lt; y") = js "x < y" /\
  htmlToPlain (js "x &amp;gt; y") = js "x > y" /\
  htmlToPlain (js "x &amp;quot; y") = js "x " ++ [DQUOTE] ++ js " y" /\
  htmlToPlain (js "x &amp;#39; y") = js "x ' y" /\
  htmlToPlain (js "x &amp;#65; y") = js "x A y".
Proof. repeat split; vm_compute; (reflexivity || discriminate). Qed.

(** C6, as the specification states it, does not hold: a second
    application changes the output of the first. *)
Lemma htmlToPlain_not_idempotent :
  htmlToPlain (htmlToPlain (js "&amp;amp;")) <> htmlToPlain (js "&amp;amp;").
Proof. vm_compute. discriminate. Qed.

End HtmlExamples.
(** ** Facts about the matcher and the global scan *)


Section MatcherFacts.
Variable ic : bool.
Variable n : nat.

Lemma rep_rests_suffix (p : jschar -> bool) (s s' : jsstring) :
  In s' (rep_rests p s) -> exists m, s = m ++ s' /\ forallb p m = true.
Proof.
  revert s'. induction s as [|c s IH]; intros s' H; simpl in H.
  - destruct H as [<-|[]]. now exists [].
  - destruct H as [<-|H]; [now exists []|].
    destruct (p c) eqn:Hp; [|contradiction].
    destruct (IH _ H) as (m & -> & Hm).
    exists (c :: m). simpl. now rewrite Hp, Hm.
Qed.

Lemma In_skipn {A : Type} (k : nat) (l : list A) (x : A) :
  In x (skipn k l) -> In x l.
Proof.
  intros H. rewrite <- (firstn_skipn k l). apply in_or_app. now right.
Qed.

(** Every state a pattern reaches reads a suffix of the input. *)
Lemma matches_suffix (r : regex) :
  forall caps s caps' s',
    In (caps', s') (matches ic n r (caps, s)) -> exists m, s = m ++ s'.
Proof.
  induction r as [|c|p|a IHa b IHb|a IHa|g min p|a IHa| |];
    intros caps s caps' s' H; simpl in H.
  - destruct H as [H|[]]. inversion H. now exists [].
  - destruct s as [|x s]; [contradiction|].
    destruct (chr_matches ic c x); [|contradiction].
    destruct H as [H|[]]. inversion H; subst. now exists [x].
  - destruct s as [|x s]; [contradiction|].
    destruct (p x); [|contradiction].
    destruct H as [H|[]]. inversion H; subst. now exists [x].
  - apply in_flat_map in H. destruct H as ([caps1 s1] & H1 & H2).
    destruct (IHa _ _ _ _ H1) as (m1 & ->).
    destruct (IHb _ _ _ _ H2) as (m2 & ->).
    exists (m1 ++ m2). now rewrite app_assoc.
  - apply in_app_or in H. destruct H as [H|[H|[]]].
    + eauto.
    + inversion H. now exists [].
  - apply in_map_iff in H. destruct H as (x & Hx & H).
    inversion Hx; subst.
    assert (In s' (rep_rests p s)) as Hin.
    { destruct g; [apply in_rev in H|]; eapply In_skipn; eassumption. }
    destruct (rep_rests_suffix _ _ _ Hin) as (m & -> & _). now exists m.
  - apply in_map_iff in H. destruct H as ([caps1 s1] & Hx & H).
    inversion Hx; subst. eauto.
  - destruct (length s =? n); [|contradiction].
    destruct H as [H|[]]. inversion H. now exists [].
  - destruct s; [|contradiction].
    destruct H as [H|[]]. inversion H. now exists [].
Qed.

Lemma match_here_suffix (r : regex) (s : jsstring) caps rest :
  match_here ic n r s = Some (caps, rest) ->
  exists m, s = m ++ rest /\ firstn (length s - length rest) s = m.
Proof.
  unfold match_here. intros H.
  destruct (matches ic n r ([], s)) as [|st l] eqn:E; [discriminate|].
  inversion H; subst.
  destruct (matches_suffix r [] s caps rest) as (m & ->).
  { rewrite E. now left. }
  exists m. split; [reflexivity|].
  rewrite length_app, Nat.add_sub.
  rewrite firstn_app, Nat.sub_diag, firstn_all. simpl. apply app_nil_r.
Qed.

Variable r : regex.

Lemma scan_from_skip (s : jsstring) :
  forall skip, skip <= length s ->
    scan_from ic r n s skip = scan_from ic r n (skipn skip s) 0.
Proof.
  induction s as [|c s IH]; intros [|k] Hk; simpl in *; try reflexivity.
  - lia.
  - apply IH. lia.
Qed.

Lemma scan_from_cons (c : jschar) (s : jsstring) :
  scan_from ic r n (c :: s) 0 =
  match match_here ic n r (c :: s) with
  | Some (caps, rest) =>
      let len := length (c :: s) - length rest in
      Hit (firstn len (c :: s)) caps ::
        match len with
        | O => Keep c :: scan_from ic r n s 0
        | S k => scan_from ic r n s k
        end
  | None => Keep c :: scan_from ic r n s 0
  end.
Proof. reflexivity. Qed.

(** The scan, as the sequence of searches it makes. *)
Lemma scan_from_scanned (s : jsstring) : scanned ic r n s (scan_from ic r n s 0).
Proof.
  remember (length s) as len eqn:Hlen.
  revert s Hlen. induction len as [len IH] using lt_wf_ind. intros s Hlen.
  destruct s as [|c s].
  - simpl. destruct (match_here ic n r []) as [[caps rest]|] eqn:E.
    + eapply scanned_end_hit; eassumption.
    + now apply scanned_end.
  - rewrite scan_from_cons.
    destruct (match_here ic n r (c :: s)) as [[caps rest]|] eqn:E.
    + destruct (match_here_suffix _ _ _ _ E) as (m & Hs & Hm).
      cbv zeta. rewrite Hm.
      destruct m as [|x m].
      * simpl in Hs. subst rest. rewrite Nat.sub_diag.
        apply scanned_empty; [assumption|].
        apply (IH (length s)); simpl in Hlen; [lia|reflexivity].
      * simpl in Hs. injection Hs as Hx Hs'. subst x.
        assert (length (c :: s) - length rest = S (length m)) as ->.
        { rewrite Hs'. cbn [length]. rewrite length_app. lia. }
        rewrite scan_from_skip by (rewrite Hs', length_app; lia).
        assert (skipn (length m) s = rest) as ->.
        { rewrite Hs', skipn_app, Nat.sub_diag, skipn_all. reflexivity. }
        rewrite Hs' in E |- *. change (c :: m ++ rest) with ((c :: m) ++ rest).
        apply scanned_hit; [discriminate|exact E|].
        apply (IH (length rest)); [|reflexivity].
        subst len. rewrite Hs'. cbn [length]. rewrite length_app. lia.
    + apply scanned_keep; [assumption|].
      apply (IH (length s)); simpl in Hlen; [lia|reflexivity].
Qed.

Lemma scanned_text (s : jsstring) (ps : list piece) :
  scanned ic r n s ps -> flat_map piece_text ps = s.
Proof.
  induction 1; simpl; try reflexivity; now f_equal.
Qed.

End MatcherFacts.

(** *** Positions of the matches *)

Section HitFacts.

Lemma slice_cons {A : Type} (c : A) (l : list A) (a b : nat) :
  slice (c :: l) (S a) (S b) = slice l a b.
Proof. reflexivity. Qed.

Lemma slice_app_skip {A : Type} (m l : list A) (a len : nat) :
  length m <= a ->
  slice (m ++ l) a (a + len) = slice l (a - length m) (a - length m + len).
Proof.
  intros H. unfold slice.
  rewrite skipn_app, skipn_all2 by assumption. simpl.
  f_equal. lia.
Qed.

Lemma slice_prefix {A : Type} (m l : list A) :
  slice (m ++ l) 0 (length m) = m.
Proof.
  unfold slice. simpl. rewrite Nat.sub_0_r, firstn_app, Nat.sub_diag, firstn_all.
  simpl. apply app_nil_r.
Qed.

(** Each match lies in the text at its index, and the next one starts at or
    after its end. *)
Lemma hits_at_spec (ps : list piece) :
  forall pos k i m,
    nth_error (hits_at pos ps) k = Some (i, m) ->
    pos <= i /\
    i + length m <= pos + length (flat_map piece_text ps) /\
    slice (flat_map piece_text ps) (i - pos) (i - pos + length m) = m /\
    (forall i' m', nth_error (hits_at pos ps) (S k) = Some (i', m') ->
                   i + length m <= i').
Proof.
  induction ps as [|[c|m0 caps] ps IH]; intros pos k i m H; simpl in H.
  - destruct k; discriminate.
  - destruct (IH _ _ _ _ H) as (H1 & H2 & H3 & H4).
    simpl flat_map. simpl length. repeat split; try lia.
    + replace (i - pos) with (S (i - S pos)) by lia.
      simpl Nat.add. rewrite slice_cons. exact H3.
    + exact H4.
  - simpl flat_map. rewrite length_app. destruct k as [|k]; simpl in H.
    + injection H as <- <-. rewrite Nat.sub_diag. simpl Nat.add.
      repeat split; try lia.
      * apply slice_prefix.
      * intros i' m' H'. change (nth_error (hits_at (pos + length m0) ps) 0
                                   = Some (i', m')) in H'.
        destruct (IH _ _ _ _ H') as (H1 & _). exact H1.
    + destruct (IH _ _ _ _ H) as (H1 & H2 & H3 & H4).
      repeat split; try lia.
      * rewrite slice_app_skip by lia.
        replace (i - pos - length m0) with (i - (pos + length m0)) by lia.
        exact H3.
      * exact H4.
Qed.

Lemma hits_at_mono (ps : list piece) (pos : nat) :
  forall d j i m i2 m2,
    nth_error (hits_at pos ps) j = Some (i, m) ->
    nth_error (hits_at pos ps) (j + S d) = Some (i2, m2) ->
    i + length m <= i2.
Proof.
  induction d as [|d IHd]; intros j i m i2 m2 Hj H2.
  - rewrite Nat.add_1_r in H2.
    destruct (hits_at_spec _ _ _ _ _ Hj) as (_ & _ & _ & Hn). eauto.
  - replace (j + S (S d)) with (S (j + S d)) in H2 by lia.
    destruct (nth_error (hits_at pos ps) (j + S d)) as [[i1 m1]|] eqn:E1.
    + pose proof (IHd _ _ _ _ _ Hj E1).
      destruct (hits_at_spec _ _ _ _ _ E1) as (_ & _ & _ & Hn).
      pose proof (Hn _ _ H2). lia.
    + apply nth_error_None in E1.
      assert (nth_error (hits_at pos ps) (S (j + S d)) <> None) as Hx
        by congruence.
      apply nth_error_Some in Hx. lia.
Qed.

Lemma hits_at_lt (ps : list piece) (pos j k : nat) i m i2 m2 :
  j < k ->
  nth_error (hits_at pos ps) j = Some (i, m) ->
  nth_error (hits_at pos ps) k = Some (i2, m2) ->
  i + length m <= i2.
Proof.
  intros Hjk Hj Hk. apply (hits_at_mono ps pos (k - j - 1) j i m i2 m2 Hj).
  now replace (j + S (k - j - 1)) with k by lia.
Qed.

Variable ic : bool.
Variable r : regex.
Variable n : nat.

(** Each match of the scan is what the matcher reports at its index. *)
Lemma scanned_hits_match (s : jsstring) (ps : list piece) :
  scanned ic r n s ps ->
  forall pos k i m,
    nth_error (hits_at pos ps) k = Some (i, m) ->
    exists caps,
      match_here ic n r (skipn (i - pos) s)
      = Some (caps, skipn (i - pos + length m) s).
Proof.
  induction 1 as [E|caps rest E|c s ps E Hs IH|c s caps ps E Hs IH
                  |m0 rest caps ps Hne E Hs IH];
    intros pos k i m H.
  - destruct k; discriminate.
  - destruct k as [|[|k]]; try discriminate. simpl in H.
    injection H as <- <-. exists caps. rewrite Nat.sub_diag. simpl.
    destruct (match_here_suffix _ _ _ _ _ _ E) as (m & Hm & _).
    symmetry in Hm. apply app_eq_nil in Hm. destruct Hm as [_ ->]. exact E.
  - simpl in H. destruct (IH _ _ _ _ H) as (caps & IH').
    destruct (hits_at_spec _ _ _ _ _ H) as (Hpos & _).
    exists caps. replace (i - pos) with (S (i - S pos)) by lia. exact IH'.
  - destruct k as [|k]; simpl in H.
    + injection H as <- <-. exists caps. rewrite Nat.sub_diag. exact E.
    + rewrite Nat.add_0_r in H. destruct (IH _ _ _ _ H) as (caps' & IH').
      destruct (hits_at_spec _ _ _ _ _ H) as (Hpos & _).
      exists caps'. replace (i - pos) with (S (i - S pos)) by lia. exact IH'.
  - destruct k as [|k]; simpl in H.
    + injection H as <- <-. exists caps. rewrite Nat.sub_diag. simpl.
      rewrite skipn_app, Nat.sub_diag, skipn_all. exact E.
    + destruct (IH _ _ _ _ H) as (caps' & IH').
      destruct (hits_at_spec _ _ _ _ _ H) as (Hpos & _).
      exists caps'.
      rewrite !skipn_app.
      rewrite (skipn_all2 (n := i - pos)) by lia.
      rewrite (skipn_all2 (n := i - pos + length m)) by lia. simpl.
      replace (i - pos - length m0) with (i - (pos + length m0)) by lia.
      replace (i - pos + length m - length m0)
        with (i - (pos + length m0) + length m) by lia.
      exact IH'.
Qed.

(** When the pattern has no empty match, the matcher reports nothing at the
    indices that no match of the scan covers. *)
Lemma scanned_no_match_between (s : jsstring) (ps : list piece) :
  (forall s' caps, match_here ic n r s' <> Some (caps, s')) ->
  scanned ic r n s ps ->
  forall pos p,
    pos <= p < pos + length s ->
    (forall k i m, nth_error (hits_at pos ps) k = Some (i, m) ->
                   p < i \/ i + length m <= p) ->
    match_here ic n r (skipn (p - pos) s) = None.
Proof.
  intros Hne.
  induction 1 as [E|caps rest E|c s ps E Hs IH|c s caps ps E Hs IH
                  |m0 rest caps ps Hm0 E Hs IH];
    intros pos p Hp Hfree.
  - simpl in Hp. lia.
  - simpl in Hp. lia.
  - destruct (Nat.eq_dec p pos) as [->|Hneq].
    + rewrite Nat.sub_diag. exact E.
    + replace (p - pos) with (S (p - S pos)) by lia. simpl skipn.
      apply IH; [simpl in Hp; lia|].
      intros k i m H. apply (Hfree k). exact H.
  - exfalso. exact (Hne _ _ E).
  - destruct (Hfree 0 pos m0 eq_refl) as [Hlt|Hge]; [lia|].
    rewrite skipn_app, skipn_all2 by lia. simpl.
    replace (p - pos - length m0) with (p - (pos + length m0)) by lia.
    apply IH.
    + rewrite length_app in Hp.
      destruct (Nat.eq_dec p (pos + length m0 + length rest)); lia.
    + intros k i m H. apply (Hfree (S k)). exact H.
Qed.

End HitFacts.


Lemma matches_first_chr (ic : bool) (n : nat) (r : regex) (c : jschar) :
  first_chr r = Some c ->
  forall caps s caps' s',
    In (caps', s') (matches ic n r (caps, s)) ->
    exists x m, s = x :: m ++ s' /\ chr_matches ic c x = true.
Proof.
  induction r as [|c0|p|a IHa b IHb|a IHa|g min p|a IHa| |];
    intros Hc caps s caps' s' H; simpl in Hc; try discriminate.
  - injection Hc as ->. simpl in H.
    destruct s as [|x s]; [contradiction|].
    destruct (chr_matches ic c x) eqn:Hx; [|contradiction].
    destruct H as [H|[]]. injection H as <- <-. now exists x, [].
  - simpl in H. apply in_flat_map in H. destruct H as ([caps1 s1] & H1 & H2).
    destruct (IHa Hc _ _ _ _ H1) as (x & m & -> & Hx).
    destruct (matches_suffix _ _ _ _ _ _ _ H2) as (m2 & ->).
    exists x, (m ++ m2). now rewrite <- app_assoc.
  - simpl in H. apply in_map_iff in H. destruct H as ([caps1 s1] & Hx & H).
    injection Hx as <- <-. eauto.
Qed.

Lemma match_here_first_chr (ic : bool) (n : nat) (r : regex) (c : jschar)
    (s : jsstring) caps rest :
  first_chr r = Some c ->
  match_here ic n r s = Some (caps, rest) ->
  exists x m, s = x :: m ++ rest /\ chr_matches ic c x = true.
Proof.
  unfold match_here. intros Hc H.
  destruct (matches ic n r ([], s)) as [|st l] eqn:E; [discriminate|].
  injection H as ->.
  apply (matches_first_chr ic n r c Hc [] s caps rest). rewrite E. now left.
Qed.

Lemma match_here_nonempty (ic : bool) (n : nat) (r : regex) (c : jschar) :
  first_chr r = Some c ->
  forall s caps, match_here ic n r s <> Some (caps, s).
Proof.
  intros Hc s caps H.
  destruct (match_here_first_chr _ _ _ _ _ _ _ Hc H) as (x & m & Hs & _).
  apply (f_equal (@length _)) in Hs. simpl in Hs. rewrite length_app in Hs. lia.
Qed.

(** ** [extractSectionByHeading] *)

Section SectionByHeading.

Lemma find_index_Some {A : Type} (f : A -> bool) (l : list A) (idx : nat) :
  find_index f l = Some idx ->
  exists x, nth_error l idx = Some x /\ f x = true /\
            forall j y, j < idx -> nth_error l j = Some y -> f y = false.
Proof.
  revert idx. induction l as [|a l IH]; intros idx H; simpl in H.
  - discriminate.
  - destruct (f a) eqn:Ha.
    + injection H as <-. exists a. repeat split; [assumption|]. intros; lia.
    + destruct (find_index f l) as [i|] eqn:E; [|discriminate].
      injection H as <-. destruct (IH i eq_refl) as (x & Hx & Hfx & Hlt).
      exists x. repeat split; try assumption.
      intros [|j] y Hj Hy; simpl in Hy.
      * now injection Hy as <-.
      * apply (Hlt j); [lia|assumption].
Qed.



Lemma split_at_three {A : Type} (l : list A) (a b c : nat) :
  a <= b -> b <= c ->
  l = firstn a l ++ slice l a b ++ slice l b c ++ skipn c l.
Proof.
  intros Hab Hbc. unfold slice.
  rewrite <- (firstn_skipn a l) at 1. f_equal.
  rewrite <- (firstn_skipn (b - a) (skipn a l)) at 1. f_equal.
  rewrite skipn_skipn. replace (b - a + a) with b by lia.
  rewrite <- (firstn_skipn (c - b) (skipn b l)) at 1. f_equal.
  rewrite skipn_skipn. f_equal. lia.
Qed.

Lemma headingRegex_first : first_chr headingRegex = Some 60%N.
Proof. reflexivity. Qed.

Lemma headings_of_nth (html : jsstring) (k : nat) (h : heading) :
  nth_error (headings_of html) k = Some h ->
  exists raw,
    nth_error (exec_all true headingRegex html) k = Some (h_start h, raw) /\
    h_end h = h_start h + length raw /\
    h_text h = trim (htmlToPlain raw).
Proof.
  unfold headings_of. rewrite nth_error_map.
  destruct (nth_error (exec_all true headingRegex html) k) as [[i raw]|];
    simpl; [|discriminate].
  intros [= <-]. now exists raw.
Qed.


Lemma section_end_eq (html : jsstring) (idx : nat) :
  (if idx + 1 <? length (headings_of html)
   then h_start (nth (idx + 1) (headings_of html) no_heading)
   else length html) = section_end html idx.
Proof.
  unfold section_end. rewrite Nat.add_1_r.
  destruct (S idx <? length (headings_of html)) eqn:E.
  - apply Nat.ltb_lt in E.
    destruct (nth_error (headings_of html) (S idx)) as [h'|] eqn:E'.
    + now rewrite (nth_error_nth _ _ _ E').
    + apply nth_error_None in E'. lia.
  - apply Nat.ltb_ge in E. apply nth_error_None in E. now rewrite E.
Qed.

(** The heading found by the scan at [idx]: it is the text the heading
    pattern matches at its start, the section that follows it ends inside the
    document, and no heading starts inside that section. *)
Lemma heading_bounds (html : jsstring) (idx : nat) (h : heading) :
  nth_error (headings_of html) idx = Some h ->
  h_start h < h_end h /\ h_end h <= section_end html idx /\
  section_end html idx <= length html /\
  h_text h = trim (htmlToPlain (slice html (h_start h) (h_end h))) /\
  (exists caps,
      match_here true (length html) headingRegex (skipn (h_start h) html)
      = Some (caps, skipn (h_end h) html)) /\
  (forall p, h_end h <= p < section_end html idx ->
             match_here true (length html) headingRegex (skipn p html) = None).
Proof.
  intros H. destruct (headings_of_nth _ _ _ H) as (raw & Hraw & Hend & Htext).
  unfold exec_all, scan in Hraw.
  pose proof (scan_from_scanned true (length html) headingRegex html) as Hsc.
  pose proof (scanned_text _ _ _ _ _ Hsc) as Htxt.
  destruct (hits_at_spec _ _ _ _ _ Hraw) as (_ & Hin & Hslice & Hnext).
  rewrite Htxt, Nat.sub_0_r in *. simpl in Hin.
  destruct (scanned_hits_match _ _ _ _ _ Hsc _ _ _ _ Hraw) as (caps & Hm).
  rewrite Nat.sub_0_r in Hm.
  assert (0 < length raw) as Hpos.
  { destruct raw; [|simpl; lia]. exfalso.
    rewrite Nat.add_0_r in Hm.
    exact (match_here_nonempty _ _ _ _ headingRegex_first _ _ Hm). }
  assert (h_end h <= section_end html idx /\ section_end html idx <= length html)
    as [Hle1 Hle2].
  { unfold section_end.
    destruct (nth_error (headings_of html) (S idx)) as [h'|] eqn:E'.
    - destruct (headings_of_nth _ _ _ E') as (raw' & Hraw' & _ & _).
      unfold exec_all, scan in Hraw'.
      pose proof (Hnext _ _ Hraw').
      destruct (hits_at_spec _ _ _ _ _ Hraw') as (_ & Hin' & _).
      rewrite Htxt in Hin'. simpl in Hin'. lia.
    - lia. }
  repeat split; try lia.
  - rewrite Htext, Hend, Hslice. reflexivity.
  - exists caps. rewrite Hend. exact Hm.
  - intros p Hp.
    rewrite <- (Nat.sub_0_r p).
    apply (scanned_no_match_between true headingRegex (length html) html _
             (match_here_nonempty _ _ _ _ headingRegex_first) Hsc 0 p);
      [simpl; lia|].
    intros k i m Hk.
    destruct (Nat.lt_trichotomy k idx) as [Hlt|[->|Hgt]].
    + right. pose proof (hits_at_lt _ _ _ _ _ _ _ _ Hlt Hk Hraw). lia.
    + rewrite Hraw in Hk. injection Hk as <- <-. right. lia.
    + left. unfold section_end in Hp.
      destruct (nth_error (headings_of html) (S idx)) as [h'|] eqn:E'.
      * destruct (headings_of_nth _ _ _ E') as (raw' & Hraw' & _ & _).
        unfold exec_all, scan in Hraw'.
        destruct (Nat.eq_dec k (S idx)) as [->|Hne].
        -- rewrite Hraw' in Hk. injection Hk as <- <-. lia.
        -- assert (S idx < k) as Hlt by lia.
           pose proof (hits_at_lt _ _ _ _ _ _ _ _ Hlt Hraw' Hk). lia.
      * exfalso. apply nth_error_None in E'.
        unfold headings_of in E'. rewrite length_map in E'.
        unfold exec_all, scan in E'.
        assert (nth_error (hits_at 0 (scan_from true headingRegex
                                        (length html) html 0)) k <> None)
          as Hx by congruence.
        apply nth_error_Some in Hx. lia.
Qed.



Lemma headings_of_empty : headings_of [] = [].
Proof. reflexivity. Qed.

Lemma extractSectionByHeading_found (html : jsstring)
    (contains : jsstring -> bool) (idx : nat) (h : heading) :
  nth_error (headings_of html) idx = Some h ->
  find_index (fun h => contains (h_text h)) (headings_of html) = Some idx ->
  extractSectionByHeading html contains
  = Some {| sectionHtml := slice html (h_end h) (section_end html idx);
            withoutSectionHtml :=
              firstn (h_start h) html ++ skipn (section_end html idx) html |}.
Proof.
  intros Hh Hfind. unfold extractSectionByHeading.
  assert (is_empty html = false) as ->.
  { destruct html; [|reflexivity].
    rewrite headings_of_empty in Hh. destruct idx; discriminate. }
  cbv zeta. rewrite Hfind.
  rewrite section_end_eq, (nth_error_nth _ _ _ Hh).
  unfold slice at 2, slice_from. simpl skipn. now rewrite Nat.sub_0_r.
Qed.



(** C10. When [extractSectionByHeading] succeeds, the document is a prefix,
    the matched heading, the section and a suffix, in this order; the
    remainder is the prefix followed by the suffix; the heading is what the
    heading pattern matches right after the prefix and its text passes the
    test; no heading starts inside the section; and the suffix is empty or
    begins with a heading, which is therefore the next one, the matched
    heading being the last when the suffix is empty. *)
Theorem extractSectionByHeading_frame (html : jsstring)
    (contains : jsstring -> bool) (sec : section) :
  extractSectionByHeading html contains = Some sec ->
  exists prefix raw suffix,
    html = prefix ++ raw ++ sectionHtml sec ++ suffix /\
    withoutSectionHtml sec = prefix ++ suffix /\
    raw <> [] /\
    (exists caps,
        match_here true (length html) headingRegex
          (raw ++ sectionHtml sec ++ suffix)
        = Some (caps, sectionHtml sec ++ suffix)) /\
    contains (trim (htmlToPlain raw)) = true /\
    (forall p, p < length (sectionHtml sec) ->
               match_here true (length html) headingRegex
                 (skipn p (sectionHtml sec ++ suffix)) = None) /\
    (suffix = [] \/
     exists caps rest,
       match_here true (length html) headingRegex suffix = Some (caps, rest)).
Proof.
  intros H.
  assert (exists idx, find_index (fun h => contains (h_text h)) (headings_of html)
                      = Some idx) as [idx Hfind].
  { unfold extractSectionByHeading in H.
    destruct (is_empty html); [discriminate|]. cbv zeta in H.
    destruct (find_index _ (headings_of html)) as [idx|]; [|discriminate].
    now exists idx. }
  destruct (find_index_Some _ _ _ Hfind) as (h & Hh & Hc & _).
  rewrite (extractSectionByHeading_found html contains idx h Hh Hfind) in H.
  injection H as <-. cbn [sectionHtml withoutSectionHtml].
  destruct (heading_bounds html idx h Hh)
    as (H1 & H2 & H3 & H4 & [caps H5] & H6).
  pose proof (split_at_three html (h_start h) (h_end h) (section_end html idx)
                (Nat.lt_le_incl _ _ H1) H2) as Hsplit.
  assert (skipn (h_start h) html
          = slice html (h_start h) (h_end h)
              ++ slice html (h_end h) (section_end html idx)
              ++ skipn (section_end html idx) html) as E1.
  { rewrite Hsplit at 1. rewrite skipn_app, skipn_all2
      by (rewrite length_firstn; lia).
    rewrite length_firstn. simpl.
    replace (h_start h - Nat.min (h_start h) (length html)) with 0 by lia.
    reflexivity. }
  assert (skipn (h_end h) html
          = slice html (h_end h) (section_end html idx)
              ++ skipn (section_end html idx) html) as E2.
  { unfold slice. rewrite <- (firstn_skipn (section_end html idx - h_end h)
                                (skipn (h_end h) html)) at 1.
    f_equal. rewrite skipn_skipn. f_equal. lia. }
  exists (firstn (h_start h) html), (slice html (h_start h) (h_end h)),
         (skipn (section_end html idx) html).
  split; [exact Hsplit|]. split; [reflexivity|]. split.
  { intros E. apply (f_equal (@length _)) in E. unfold slice in E.
    rewrite length_firstn, length_skipn in E. simpl in E. lia. }
  split; [exists caps; rewrite <- E1, <- E2; exact H5|].
  split; [rewrite <- H4; exact Hc|]. split.
  - intros p Hp. rewrite <- E2, skipn_skipn. apply H6.
    unfold slice in Hp. rewrite length_firstn, length_skipn in Hp. lia.
  - unfold section_end.
    destruct (nth_error (headings_of html) (S idx)) as [h'|] eqn:E'.
    + right.
      destruct (heading_bounds html (S idx) h' E') as (_ & _ & _ & _ & [c' Hm] & _).
      eauto.
    + left. apply skipn_all.
Qed.

(** C10 at the sample document. *)
Lemma extractSectionByHeading_frame_witness :
  let html :=
    js "<h2>Acceptance Criteria</h2><p>AC text</p><h2>Other</h2><p>ignored</p>" in
  exists prefix raw suffix,
    html = prefix ++ raw ++ js "<p>AC text</p>" ++ suffix /\
    js "<h2>Other</h2><p>ignored</p>" = prefix ++ suffix /\
    (forall p, p < length (js "<p>AC text</p>") ->
               match_here true (length html) headingRegex
                 (skipn p (js "<p>AC text</p>" ++ suffix)) = None) /\
    (suffix = [] \/
     exists caps rest,
       match_here true (length html) headingRegex suffix = Some (caps, rest)).
Proof.
  intros html.
  destruct (extractSectionByHeading_frame html (test true acceptanceCriteriaRegex)
              {| sectionHtml := js "<p>AC text</p>";
                 withoutSectionHtml := js "<h2>Other</h2><p>ignored</p>" |})
    as (prefix & raw & suffix & H1 & H2 & _ & _ & _ & H3 & H4).
  - vm_compute. reflexivity.
  - exists prefix, raw, suffix. repeat (split; [assumption|]). assumption.
Defined.
End SectionByHeading.

(** ** Atlassian Document Format *)

Lemma map_outcome_ext {A B : Type} (f g : A -> outcome B) (l : list A) :
  (forall x, In x l -> f x = g x) -> map_outcome f l = map_outcome g l.
Proof.
  induction l as [|a l IH]; intros H; simpl.
  - reflexivity.
  - rewrite (H a) by now left. rewrite IH; [reflexivity|].
    intros x Hx. apply H. now right.
Qed.

Lemma map_outcome_no_loop {A B : Type} (f : A -> outcome B) (l : list A) :
  (forall x, In x l -> f x <> Loops) -> map_outcome f l <> Loops.
Proof.
  induction l as [|a l IH]; intros H; simpl.
  - discriminate.
  - specialize (H a (or_introl eq_refl)) as Ha.
    destruct (f a); simpl; try congruence.
    assert (map_outcome f l <> Loops) as Hl
      by (apply IH; intros x Hx; apply H; now right).
    destruct (map_outcome f l); simpl; congruence.
Qed.

Lemma map_outcome_Returns {A B : Type} (f : A -> outcome B) (g : A -> B)
    (l : list A) :
  (forall x, In x l -> f x = Returns (g x)) ->
  map_outcome f l = Returns (map g l).
Proof.
  induction l as [|a l IH]; intros H; simpl.
  - reflexivity.
  - rewrite (H a) by now left. simpl. rewrite IH; [reflexivity|].
    intros x Hx. apply H. now right.
Qed.

Lemma list_max_In (l : list nat) (x : nat) : In x l -> x <= list_max l.
Proof.
  induction l as [|a l IH]; intros H; simpl in *.
  - contradiction.
  - destruct H as [->|H]; [lia|]. specialize (IH H). lia.
Qed.

Lemma depth_item (items : list value) (x : value) :
  In x items -> depth x < depth (VArr items).
Proof.
  intros H. simpl. apply Nat.lt_succ_r. apply list_max_In.
  apply in_map_iff. now exists x.
Qed.

Lemma depth_prop (props : list (jsstring * value)) (k : jsstring) (v : value) :
  assoc k props = Some v -> depth v < depth (VObj props).
Proof.
  intros H. simpl. apply Nat.lt_succ_r. apply list_max_In.
  induction props as [|[k' v'] props IH]; simpl in *; [discriminate|].
  destruct (str_eqb k' k).
  - injection H as ->. now left.
  - right. now apply IH.
Qed.

Lemma assoc_In (k : jsstring) (l : list (jsstring * value)) (v : value) :
  assoc k l = Some v -> In v (map snd l).
Proof.
  induction l as [|[k' v'] l IH]; simpl; [discriminate|].
  destruct (str_eqb k' k).
  - intros [= ->]. now left.
  - intros H. right. now apply IH.
Qed.

Lemma indexed_values {A : Type} (l : list A) : map snd (indexed l) = l.
Proof.
  unfold indexed. generalize 0.
  induction l as [|a l IH]; intros n; simpl; [reflexivity|].
  now rewrite IH.
Qed.

(** What a property read returns is nested inside the value read. *)
Lemma get_depth (v : value) (k : jsstring) :
  depth (get v k) < depth v \/ depth (get v k) = 0.
Proof.
  unfold get.
  destruct (assoc k (own_props v)) as [x|] eqn:E.
  - destruct v; simpl in E; try discriminate.
    + right. apply assoc_In in E. rewrite indexed_values in E.
      apply in_map_iff in E. destruct E as (c & <- & _). reflexivity.
    + left. apply depth_item. apply assoc_In in E.
      now rewrite indexed_values in E.
    + left. eapply depth_prop; eassumption.
  - right. destruct (own_length v); [destruct (str_eqb _ _)|]; reflexivity.
Qed.

Lemma content_items_depth (node : value) (k : jsstring) (items : list value)
    (x : value) :
  get node k = VArr items -> In x items -> S (depth x) < depth node.
Proof.
  intros Hget Hx. pose proof (depth_item items x Hx) as H1.
  destruct (get_depth node k) as [H2|H2]; rewrite Hget in H2.
  - lia.
  - simpl in H2. discriminate.
Qed.

Section AdfFacts.
Variable Number_toString : spec_float -> jsstring.
Variable StringToNumber : jsstring -> spec_float.

Local Abbreviation render := (extractTextFromNode_rec Number_toString).

(** The children that the recursion visits, whichever branch is taken. *)
Lemma array_map_fuel (f g : value -> outcome value) (node : value)
    (k : jsstring) (fuel : nat) :
  depth node <= fuel ->
  (forall x, depth x < fuel -> f x = g x) ->
  array_map f (get node k) = array_map g (get node k) /\
  array_map f (js_or (get node k) (VArr []))
  = array_map g (js_or (get node k) (VArr [])).
Proof.
  intros Hd Hfg.
  assert (array_map f (get node k) = array_map g (get node k)) as H.
  { destruct (get node k) as [| | | | |items|] eqn:E; try reflexivity.
    simpl. apply map_outcome_ext. intros x Hx. apply Hfg.
    pose proof (content_items_depth node k items x E Hx). lia. }
  split; [exact H|]. unfold js_or.
  destruct (truthy (get node k)); [exact H|reflexivity].
Qed.

(** More fuel than the node is deep is as good as any. *)
Lemma extractTextFromNode_rec_fuel :
  forall fuel1 fuel2 node,
    depth node < fuel1 -> depth node < fuel2 ->
    render fuel1 node = render fuel2 node.
Proof.
  induction fuel1 as [|fuel1 IH]; intros fuel2 node H1 H2; [lia|].
  destruct fuel2 as [|fuel2]; [lia|].
  assert (forall x, depth x < Nat.min fuel1 fuel2 ->
                    render fuel1 x = render fuel2 x) as Hfg
    by (intros x Hx; apply IH; lia).
  assert (depth node <= Nat.min fuel1 fuel2) as Hd by lia.
  destruct (array_map_fuel _ _ node (js "content") _ Hd Hfg) as [E1 E2].
  simpl. unfold extractTextFromNode_body. rewrite E1, E2. reflexivity.
Qed.

Lemma extractTextFromNode_fuel (fuel : nat) (node : value) :
  depth node < fuel ->
  render fuel node = extractTextFromNode Number_toString node.
Proof.
  intros H. apply extractTextFromNode_rec_fuel; [assumption|lia].
Qed.

(** [extractTextFromNode] satisfies the equation of the source function. *)
Lemma extractTextFromNode_eq (node : value) :
  extractTextFromNode Number_toString node
  = extractTextFromNode_body Number_toString
      (extractTextFromNode Number_toString) node.
Proof.
  unfold extractTextFromNode at 1. simpl.
  assert (forall x, depth x < depth node ->
                    render (depth node) x
                    = extractTextFromNode Number_toString x) as Hfg
    by (intros x Hx; now apply extractTextFromNode_fuel).
  destruct (array_map_fuel _ _ node (js "content") _ (Nat.le_refl _) Hfg)
    as [E1 E2].
  unfold extractTextFromNode_body. rewrite E1, E2. reflexivity.
Qed.

End AdfFacts.


(** *** Reads on values that are not objects *)

Lemma index_key_digits (i : nat) : forallb is_digit (index_key i) = true.
Proof.
  unfold index_key. generalize (Nat.to_uint i).
  induction u as [|u IH|u IH|u IH|u IH|u IH|u IH|u IH|u IH|u IH|u IH];
    simpl; try reflexivity; exact IH.
Qed.

Lemma str_eqb_eq (a b : jsstring) : str_eqb a b = true -> a = b.
Proof. unfold str_eqb. now destruct (list_eq_dec N.eq_dec a b). Qed.

Lemma assoc_indexed_digits (k : jsstring) (l : list value) (v : value) :
  assoc k (indexed l) = Some v -> forallb is_digit k = true.
Proof.
  unfold indexed. generalize 0.
  induction l as [|a l IH]; intros n; simpl; [discriminate|].
  destruct (str_eqb (index_key n) k) eqn:E.
  - intros _. apply str_eqb_eq in E. subst k. apply index_key_digits.
  - apply IH.
Qed.


Lemma get_non_object (v : value) (k : jsstring) :
  is_object v = false -> forallb is_digit k = false ->
  str_eqb k (js "length") = false ->
  get v k = VUndefined.
Proof.
  intros Hv Hk Hl. unfold get.
  destruct (assoc k (own_props v)) as [x|] eqn:E.
  - destruct v; simpl in E; try discriminate.
    + apply assoc_indexed_digits in E. congruence.
    + apply assoc_indexed_digits in E. congruence.
  - rewrite Hl. now destruct (own_length v).
Qed.

Section AdfTotal.
Variable Number_toString : spec_float -> jsstring.
Variable StringToNumber : jsstring -> spec_float.

Local Abbreviation render := (extractTextFromNode_rec Number_toString).
Local Abbreviation extract := (extractTextFromNode Number_toString).

Lemma extractTextFromNode_body_non_object (self : value -> outcome value)
    (node : value) :
  is_object node = false ->
  extractTextFromNode_body Number_toString self node = Returns (VStr []).
Proof.
  intros H. unfold extractTextFromNode_body.
  rewrite !(get_non_object node) by (assumption || reflexivity).
  simpl. now destruct (truthy node).
Qed.

Lemma array_join_strings (sep : jsstring) (strs : list jsstring) :
  array_join Number_toString sep (map VStr strs) = Returns (join sep strs).
Proof.
  unfold array_join.
  rewrite (map_outcome_Returns _ (fun v => match v with VStr s => s | _ => [] end)).
  - simpl. rewrite map_map. now rewrite map_id.
  - intros x Hx. apply in_map_iff in Hx. now destruct Hx as (s & <- & _).
Qed.

Lemma map_outcome_strings (f : value -> outcome value) (items : list value) :
  (forall x, In x items -> exists s, f x = Returns (VStr s)) ->
  exists strs, map_outcome f items = Returns (map VStr strs).
Proof.
  induction items as [|a items IH]; intros H; simpl.
  - now exists [].
  - destruct (H a (or_introl eq_refl)) as [s ->].
    destruct IH as [strs ->]; [intros x Hx; apply H; now right|].
    now exists (s :: strs).
Qed.

Lemma join_branch (self : value -> outcome value) (arr : value)
    (sep : jsstring) (g : jsstring -> jsstring) (strs : list jsstring) :
  array_map self arr = Returns (map VStr strs) ->
  (parts <- array_map self arr ;;
   text <- array_join Number_toString sep parts ;;
   Returns (VStr (g text)))
  = Returns (VStr (g (join sep strs))).
Proof.
  intros ->. cbn [bind]. rewrite array_join_strings. reflexivity.
Qed.

(** A documented node renders to a string. *)
Lemma node_shape_renders :
  forall fuel2 fuel1 node,
    depth node < fuel1 -> node_shape_rec fuel2 node = true ->
    exists s, render fuel1 node = Returns (VStr s).
Proof.
  induction fuel2 as [|fuel2 IH]; intros fuel1 node Hd Hs; [discriminate|].
  destruct fuel1 as [|fuel1]; [lia|]. simpl render.
  destruct (is_object node) eqn:Hobj.
  2:{ rewrite extractTextFromNode_body_non_object by assumption. now exists []. }
  destruct node as [| | | | | |props]; try discriminate. clear Hobj.
  simpl in Hs. unfold extractTextFromNode_body.
  set (node := VObj props) in *.
  set (type := get node (js "type")) in *.
  set (content := get node (js "content")) in *.
  assert (forall items, content = VArr items ->
            forallb (node_shape_rec fuel2) items = true ->
            exists strs, array_map (render fuel1) content
                         = Returns (map VStr strs)) as Hitems.
  { intros items Hc Hall. rewrite Hc. simpl.
    apply map_outcome_strings. intros x Hx. apply IH.
    - pose proof (content_items_depth node _ items x Hc Hx). lia.
    - rewrite forallb_forall in Hall. now apply Hall. }
  change (truthy node) with true. cbn [negb].
  destruct (is_str type (js "text")) eqn:Htext.
  { unfold js_or. apply orb_true_iff in Hs. destruct Hs as [Hs|Hs].
    - apply negb_true_iff in Hs. rewrite Hs. now exists [].
    - destruct (get node (js "text")); try discriminate.
      destruct (truthy (VStr s)); eauto. }
  destruct (container_type type) eqn:Hct.
  - assert (exists strs, array_map (render fuel1) (js_or content (VArr []))
                         = Returns (map VStr strs)) as [strs Hstrs].
    { destruct content as [| | | | |items|] eqn:Hc;
        try (cbn [negb orb] in Hs; apply negb_true_iff in Hs;
             unfold js_or; rewrite Hs; now exists []).
      unfold js_or. cbn [truthy]. now apply (Hitems items). }
    unfold container_type in Hct.
    destruct (is_str type (js "paragraph")).
    { rewrite (join_branch _ _ _ (fun x => x) strs Hstrs). eauto. }
    destruct (is_str type (js "bulletList")).
    { cbn [orb]. rewrite (join_branch _ _ _ (fun x => x) strs Hstrs). eauto. }
    destruct (is_str type (js "orderedList")).
    { cbn [orb]. rewrite (join_branch _ _ _ (fun x => x) strs Hstrs). eauto. }
    cbn [orb]. destruct (is_str type (js "listItem")); [|discriminate].
    rewrite (join_branch _ _ _
               (fun text => if negb (is_empty (trim text))
                            then js "- " ++ trim text else []) strs Hstrs).
    eauto.
  - unfold container_type in Hct.
    apply orb_false_iff in Hct. destruct Hct as [Hct ->].
    apply orb_false_iff in Hct. destruct Hct as [Hct ->].
    apply orb_false_iff in Hct. destruct Hct as [-> ->]. cbn [orb].
    destruct content as [| | | | |items|] eqn:Hc;
      try (rewrite andb_false_r; now exists []);
      try (now exists []).
    cbn [truthy isArray andb].
    destruct (Hitems items eq_refl Hs) as [strs Hstrs].
    rewrite (join_branch _ _ _ (fun x => x) strs Hstrs). eauto.
Qed.

Lemma documented_node_renders (node : value) :
  documented_node node = true -> exists s, extract node = Returns (VStr s).
Proof.
  intros H. apply (node_shape_renders (S (depth node))); [lia|exact H].
Qed.

End AdfTotal.

(** *** The loop of [adfToPlain] *)


Section AdfLoop.
Variable Number_toString : spec_float -> jsstring.
Variable StringToNumber : jsstring -> spec_float.

Local Abbreviation extract := (extractTextFromNode Number_toString).
Local Abbreviation loop := (adf_loop Number_toString).
Local Abbreviation rendered_text := (rendered_text Number_toString).


Lemma filter_cons_app {A : Type} (f : A -> bool) (x : A) (l : list A) :
  filter f (x :: l) = filter f [x] ++ filter f l.
Proof. simpl. now destruct (f x). Qed.

Lemma push_text_filter (arr : list jsstring) (text : jsstring) :
  push_text arr text = arr ++ filter nonempty [text].
Proof.
  unfold push_text, nonempty. simpl.
  destruct (is_empty text); simpl; [now rewrite app_nil_r|reflexivity].
Qed.

Lemma rendered_texts_cons (node : value) (nodes : list value)
    (texts : list jsstring) :
  map_outcome rendered_text (node :: nodes) = Returns texts ->
  exists rendered t ts,
    extract node = Returns rendered /\ call_trim rendered = Returns t /\
    map_outcome rendered_text nodes = Returns ts /\ texts = t :: ts.
Proof.
  simpl. unfold rendered_text at 1.
  destruct (extract node) as [rendered| |]; simpl; try discriminate.
  destruct (call_trim rendered) as [t| |] eqn:Et; simpl; try discriminate.
  destruct (map_outcome rendered_text nodes) as [ts| |]; simpl;
    try discriminate.
  intros [= <-]. now exists rendered, t, ts.
Qed.

Lemma adf_loop_after (nodes : list value) :
  forall texts beforeAC acContent,
    map_outcome rendered_text nodes = Returns texts ->
    loop nodes beforeAC acContent true
    = Returns (beforeAC, acContent ++ filter nonempty texts).
Proof.
  induction nodes as [|node nodes IH]; intros texts b a H.
  - injection H as <-. simpl. now rewrite app_nil_r.
  - destruct (rendered_texts_cons _ _ _ H) as (r & t & ts & Hr & Ht & Hts & ->).
    cbn [adf_loop]. rewrite Hr. cbn [bind]. rewrite Ht. cbn [bind negb andb].
    rewrite (IH ts _ _ Hts), push_text_filter, <- app_assoc.
    now rewrite (filter_cons_app _ t ts).
Qed.

Lemma adf_loop_before (nodes : list value) :
  forall texts beforeAC acContent,
    map_outcome rendered_text nodes = Returns texts ->
    forallb (fun t => negb (is_ac_heading t)) texts = true ->
    loop nodes beforeAC acContent false
    = Returns (beforeAC ++ filter nonempty texts, acContent).
Proof.
  induction nodes as [|node nodes IH]; intros texts b a H Hno.
  - injection H as <-. simpl. now rewrite app_nil_r.
  - destruct (rendered_texts_cons _ _ _ H) as (r & t & ts & Hr & Ht & Hts & ->).
    simpl in Hno. apply andb_true_iff in Hno. destruct Hno as [Hn Hno].
    apply negb_true_iff in Hn. unfold is_ac_heading in Hn.
    cbn [adf_loop]. rewrite Hr. cbn [bind]. rewrite Ht. cbn [bind].
    rewrite Hn. cbn [negb andb].
    rewrite (IH ts _ _ Hts Hno), push_text_filter, <- app_assoc.
    now rewrite (filter_cons_app _ t ts).
Qed.

Lemma adf_loop_split (nodes : list value) :
  forall before t after beforeAC acContent,
    map_outcome rendered_text nodes = Returns (before ++ t :: after) ->
    forallb (fun t => negb (is_ac_heading t)) before = true ->
    is_ac_heading t = true ->
    loop nodes beforeAC acContent false
    = Returns (beforeAC ++ filter nonempty before,
               acContent ++ filter nonempty after).
Proof.
  induction nodes as [|node nodes IH]; intros before t after b a H Hno Ht.
  - injection H as H. destruct before; discriminate.
  - destruct (rendered_texts_cons _ _ _ H) as (r & t0 & ts & Hr & Ht0 & Hts & E).
    cbn [adf_loop]. rewrite Hr. cbn [bind]. rewrite Ht0. cbn [bind].
    destruct before as [|t1 before]; simpl in E.
    + injection E as <- <-. unfold is_ac_heading in Ht. rewrite Ht.
      cbn [negb andb].
      rewrite (adf_loop_after nodes _ _ _ Hts). now rewrite app_nil_r.
    + injection E as E1 E2. subst t1 ts. simpl in Hno.
      apply andb_true_iff in Hno. destruct Hno as [Hn Hno].
      apply negb_true_iff in Hn. unfold is_ac_heading in Hn. rewrite Hn.
      cbn [negb andb].
      rewrite (IH _ _ _ _ _ Hts Hno Ht), push_text_filter, <- app_assoc.
      now rewrite (filter_cons_app _ t0 before).
Qed.

Lemma adfToPlain_array (doc : value) (nodes : list value)
    (collected : list jsstring * list jsstring) :
  truthy doc = true -> typeof_object doc = true ->
  js_or (get doc (js "content")) (VArr []) = VArr nodes ->
  loop nodes [] [] false = Returns collected ->
  adfToPlain Number_toString StringToNumber doc
  = Returns {| description := trim (join [LF] (fst collected));
               acceptanceCriteria := trim (join [LF] (snd collected)) |}.
Proof.
  intros Ht Ho Hc Hl. unfold adfToPlain. rewrite Ht, Ho, Hc. simpl.
  rewrite Hl. reflexivity.
Qed.

End AdfLoop.


Section AdfClaims.
Variable Number_toString : spec_float -> jsstring.
Variable StringToNumber : jsstring -> spec_float.

Local Abbreviation extract := (extractTextFromNode Number_toString).
Local Abbreviation to_plain := (adfToPlain Number_toString StringToNumber).
Local Abbreviation texts_of := (map_outcome (rendered_text Number_toString)).

(** C1. Let a document be an object whose content is an array of nodes that
    render to the trimmed texts [texts].  When [t] is the first of them that
    matches the boundary pattern [/^acceptance\s*criteria\s*:?\s*$/i], that
    node is dropped, the description is the texts before it and the
    acceptance criteria are the texts after it, later matches included; when
    none matches, the description is all the texts and the acceptance
    criteria are empty.  Texts are joined by newlines, empty ones left out,
    and the whole is trimmed.  The pattern accepts the words in any case with
    an optional colon, and nothing before or after. *)
Theorem adfToPlain_splits_at_first_heading (doc : value) (nodes : list value)
    (texts : list jsstring) :
  truthy doc = true -> typeof_object doc = true ->
  js_or (get doc (js "content")) (VArr []) = VArr nodes ->
  texts_of nodes = Returns texts ->
  (forall before t after,
      texts = before ++ t :: after ->
      forallb (fun t => negb (is_ac_heading t)) before = true ->
      is_ac_heading t = true ->
      to_plain doc
      = Returns {| description := trim (join [LF] (filter nonempty before));
                   acceptanceCriteria :=
                     trim (join [LF] (filter nonempty after)) |}) /\
  (forallb (fun t => negb (is_ac_heading t)) texts = true ->
   to_plain doc
   = Returns {| description := trim (join [LF] (filter nonempty texts));
                acceptanceCriteria := [] |}) /\
  is_ac_heading (js "acceptance criteria") = true /\
  is_ac_heading (js "Acceptance Criteria:") = true /\
  is_ac_heading (js "Acceptance Criteria: met") = false /\
  is_ac_heading (js "The acceptance criteria") = false.
Proof.
  intros Ht Ho Hc Htexts. split; [|split].
  - intros before t after -> Hno Hyes.
    rewrite (adfToPlain_array _ _ doc nodes _ Ht Ho Hc
               (adf_loop_split _ nodes _ _ _ _ _ Htexts Hno Hyes)).
    reflexivity.
  - intros Hno.
    rewrite (adfToPlain_array _ _ doc nodes _ Ht Ho Hc
               (adf_loop_before _ nodes _ _ _ Htexts Hno)).
    reflexivity.
  - repeat split; vm_compute; reflexivity.
Qed.

Lemma is_str_eq (v : value) (s : jsstring) : is_str v s = true -> v = VStr s.
Proof.
  destruct v; simpl; try discriminate. intros H. now rewrite (str_eqb_eq _ _ H).
Qed.

Lemma adfToPlain_not_object (doc : value) :
  truthy doc = false \/ typeof_object doc = false ->
  to_plain doc = Returns {| description := []; acceptanceCriteria := [] |}.
Proof.
  intros [H|H]; unfold adfToPlain; rewrite H; simpl.
  - reflexivity.
  - now rewrite orb_true_r.
Qed.

Lemma adf_loop_total (nodes : list value) :
  (forall x, In x nodes -> exists s, extract x = Returns (VStr s)) ->
  forall beforeAC acContent found,
    exists collected,
      adf_loop Number_toString nodes beforeAC acContent found = Returns collected.
Proof.
  induction nodes as [|node nodes IH]; intros H b a found.
  - simpl. eauto.
  - destruct (H node (or_introl eq_refl)) as [s Hs].
    cbn [adf_loop]. rewrite Hs. cbn [bind call_trim].
    assert (forall x, In x nodes -> exists s, extract x = Returns (VStr s))
      as H' by (intros x Hx; apply H; now right).
    destruct (negb found && test true acHeadingRegex (trim s));
      [|destruct found]; apply IH; assumption.
Qed.

Lemma documented_doc_total (doc : value) :
  documented_doc doc = true ->
  exists d a,
    to_plain doc = Returns {| description := d; acceptanceCriteria := a |}.
Proof.
  intros H.
  destruct (negb (truthy doc) || negb (typeof_object doc)) eqn:E.
  { unfold adfToPlain. rewrite E. eauto. }
  apply orb_false_iff in E. destruct E as [Et Eo].
  apply negb_false_iff in Et, Eo.
  assert (exists nodes,
             js_or (get doc (js "content")) (VArr []) = VArr nodes /\
             forall x, In x nodes -> exists s, extract x = Returns (VStr s))
    as (nodes & Hc & Hnodes).
  { destruct (is_object doc) eqn:Hobj.
    - destruct doc; try discriminate. unfold documented_doc in H.
      unfold js_or.
      destruct (get (VObj props) (js "content")) as [| | | | |items|] eqn:Hc;
        cbv beta iota in H;
        try (apply negb_true_iff in H; rewrite H; exists []; split;
             [reflexivity|intros ? []]).
      exists items. split; [reflexivity|].
      intros x Hx. apply documented_node_renders.
      rewrite forallb_forall in H. now apply H.
    - rewrite get_non_object by (assumption || reflexivity).
      exists []. split; [reflexivity|intros x []]. }
  destruct (adf_loop_total nodes Hnodes [] [] false) as [collected Hl].
  rewrite (adfToPlain_array _ _ doc nodes collected Et Eo Hc Hl). eauto.
Qed.


Lemma extractTextFromNode_other (node : value) :
  truthy node = true -> named_type (get node (js "type")) = false ->
  extract node
  = if isArray (get node (js "content"))
    then parts <- array_map extract (get node (js "content")) ;;
         text <- array_join Number_toString [LF] parts ;;
         Returns (VStr text)
    else Returns (VStr []).
Proof.
  intros Ht Hn. rewrite extractTextFromNode_eq at 1.
  unfold extractTextFromNode_body. rewrite Ht.
  unfold named_type, container_type in Hn.
  apply orb_false_iff in Hn. destruct Hn as [-> Hn].
  apply orb_false_iff in Hn. destruct Hn as [Hn ->].
  apply orb_false_iff in Hn. destruct Hn as [Hn ->].
  apply orb_false_iff in Hn. destruct Hn as [-> ->]. cbn [negb orb].
  destruct (get node (js "content")); cbn [isArray]; rewrite ?andb_false_r;
    reflexivity.
Qed.

Lemma extractTextFromNode_container (node : value) :
  truthy node = true ->
  container_type (get node (js "type")) = true ->
  truthy (get node (js "content")) = false ->
  extract node = Returns (VStr []).
Proof.
  intros Ht Hc Hf. rewrite extractTextFromNode_eq.
  unfold extractTextFromNode_body, js_or. rewrite Ht, Hf. cbn [negb].
  unfold container_type in Hc.
  destruct (is_str (get node (js "type")) (js "text")) eqn:E.
  { apply is_str_eq in E. rewrite E in Hc. discriminate. }
  destruct (is_str (get node (js "type")) (js "paragraph")); [reflexivity|].
  destruct (is_str (get node (js "type")) (js "bulletList")); [reflexivity|].
  destruct (is_str (get node (js "type")) (js "orderedList")); [reflexivity|].
  destruct (is_str (get node (js "type")) (js "listItem")); [reflexivity|].
  discriminate.
Qed.

Lemma extractTextFromNode_text (node : value) :
  truthy node = true ->
  is_str (get node (js "type")) (js "text") = true ->
  extract node = Returns (js_or (get node (js "text")) (VStr [])).
Proof.
  intros Ht Hc. rewrite extractTextFromNode_eq.
  unfold extractTextFromNode_body. now rewrite Ht, Hc.
Qed.

Lemma extractTextFromNode_falsy (node : value) :
  truthy node = false -> extract node = Returns (VStr []).
Proof.
  intros Ht. rewrite extractTextFromNode_eq.
  unfold extractTextFromNode_body. now rewrite Ht.
Qed.

Lemma extractTextFromNode_listItem (node : value) (items parts : list value)
    (text : jsstring) :
  truthy node = true ->
  is_str (get node (js "type")) (js "listItem") = true ->
  get node (js "content") = VArr items ->
  map_outcome extract items = Returns parts ->
  array_join Number_toString (js " ") parts = Returns text ->
  extract node
  = Returns (VStr (if is_empty (trim text) then [] else js "- " ++ trim text)).
Proof.
  intros Ht Hty Hc Hparts Htext. rewrite extractTextFromNode_eq.
  unfold extractTextFromNode_body, js_or. rewrite Ht, Hc.
  apply is_str_eq in Hty. rewrite Hty. cbn [negb truthy array_map].
  change (is_str (VStr (js "listItem")) (js "text")) with false.
  change (is_str (VStr (js "listItem")) (js "paragraph")) with false.
  change (is_str (VStr (js "listItem")) (js "bulletList")) with false.
  change (is_str (VStr (js "listItem")) (js "orderedList")) with false.
  change (is_str (VStr (js "listItem")) (js "listItem")) with true.
  cbn [orb]. rewrite Hparts. cbn [bind]. rewrite Htext. cbn [bind].
  now destruct (is_empty (trim text)).
Qed.

(** X19. The extractors return on every documented input: [adfToPlain]
    gives two empty texts for a document that is falsy or not an object, and
    two texts for every documented one; [extractTextFromNode] gives a text
    for every documented node, the empty one for a falsy node, for a text
    node without text and for a paragraph, list or list item without
    content; a node of another type gives its children joined by newlines
    when its content is an array and the empty text otherwise; [htmlToPlain]
    gives the empty text for a falsy argument and a text for every string. *)
Theorem extractors_total :
  (forall doc, truthy doc = false \/ typeof_object doc = false ->
     to_plain doc = Returns {| description := []; acceptanceCriteria := [] |}) /\
  (forall doc, documented_doc doc = true ->
     exists d a,
       to_plain doc = Returns {| description := d; acceptanceCriteria := a |}) /\
  (forall node, documented_node node = true ->
     exists s, extract node = Returns (VStr s)) /\
  (forall node, truthy node = false -> extract node = Returns (VStr [])) /\
  (forall node, truthy node = true ->
     is_str (get node (js "type")) (js "text") = true ->
     truthy (get node (js "text")) = false ->
     extract node = Returns (VStr [])) /\
  (forall node, truthy node = true ->
     container_type (get node (js "type")) = true ->
     truthy (get node (js "content")) = false ->
     extract node = Returns (VStr [])) /\
  (forall node items, truthy node = true ->
     named_type (get node (js "type")) = false ->
     get node (js "content") = VArr items ->
     extract node
     = (parts <- map_outcome extract items ;;
        text <- array_join Number_toString [LF] parts ;;
        Returns (VStr text))) /\
  (forall node, truthy node = true ->
     named_type (get node (js "type")) = false ->
     isArray (get node (js "content")) = false ->
     extract node = Returns (VStr [])) /\
  (forall html, truthy html = false ->
     htmlToPlain_value html = Returns (VStr [])) /\
  (forall s, htmlToPlain_value (VStr s) = Returns (VStr (htmlToPlain s))) /\
  htmlToPlain [] = [].
Proof.
  repeat apply conj.
  - exact adfToPlain_not_object.
  - exact documented_doc_total.
  - exact (documented_node_renders Number_toString).
  - exact extractTextFromNode_falsy.
  - intros node Ht Hty Hf. rewrite extractTextFromNode_text by assumption.
    unfold js_or. now rewrite Hf.
  - exact extractTextFromNode_container.
  - intros node items Ht Hn Hc. rewrite extractTextFromNode_other by assumption.
    now rewrite Hc.
  - intros node Ht Hn Hc. rewrite extractTextFromNode_other by assumption.
    now rewrite Hc.
  - intros html H. unfold htmlToPlain_value. now rewrite H.
  - intros s. unfold htmlToPlain_value. destruct s; reflexivity.
  - reflexivity.
Qed.

(** C7. On the sample document the description is "Desc line" and the
    acceptance criteria are the two bullet lines.  A list item renders as
    its children joined by a space and trimmed, with "- " before it when
    that is not empty, and as the empty text when it is. *)
Theorem adfToPlain_bullet_lists :
  to_plain Samples.story_doc
  = Returns {| description := js "Desc line";
               acceptanceCriteria :=
                 js "- item one" ++ [LF] ++ js "- item two" |} /\
  (forall node items parts text,
      truthy node = true ->
      is_str (get node (js "type")) (js "listItem") = true ->
      get node (js "content") = VArr items ->
      map_outcome extract items = Returns parts ->
      array_join Number_toString (js " ") parts = Returns text ->
      extract node
      = Returns (VStr (if is_empty (trim text) then []
                       else js "- " ++ trim text))).
Proof.
  split.
  - vm_compute. reflexivity.
  - exact extractTextFromNode_listItem.
Qed.

End AdfClaims.

(** C1 on the sample document: the second of its four nodes is the
    boundary. *)
Lemma adfToPlain_splits_at_first_heading_witness :
  adfToPlain Samples.number_text Samples.text_number Samples.story_doc
  = Returns {| description := js "Desc line";
               acceptanceCriteria := js "- item one" ++ [LF] ++ js "- item two" |}.
Proof.
  refine (proj1 (adfToPlain_splits_at_first_heading
                   Samples.number_text Samples.text_number
                   Samples.story_doc
                   [Samples.paragraph "Desc line";
                    Samples.paragraph "Acceptance Criteria:";
                    Samples.bullet "item one"; Samples.bullet "item two"]
                   [js "Desc line"; js "Acceptance Criteria:";
                    js "- item one"; js "- item two"]
                   _ _ _ _)
                [js "Desc line"] (js "Acceptance Criteria:")
                [js "- item one"; js "- item two"] _ _ _);
    vm_compute; reflexivity.
Defined.

(** X19 on a sample: a documented document and its two texts. *)
Lemma extractors_total_witness :
  documented_doc Samples.story_doc = true /\
  exists d a,
    adfToPlain Samples.number_text Samples.text_number Samples.story_doc
    = Returns {| description := d; acceptanceCriteria := a |}.
Proof.
  assert (documented_doc Samples.story_doc = true) as H
    by (vm_compute; reflexivity).
  split; [exact H|].
  exact (proj1 (proj2 (extractors_total Samples.number_text Samples.text_number))
           Samples.story_doc H).
Defined.

(** C7 on a sample list item. *)
Lemma adfToPlain_bullet_lists_witness :
  extractTextFromNode Samples.number_text
    (Samples.node "listItem" [Samples.paragraph " item"; Samples.paragraph "one "])
  = Returns (VStr (js "- item one")).
Proof.
  refine (proj2 (adfToPlain_bullet_lists Samples.number_text Samples.text_number)
            (Samples.node "listItem"
               [Samples.paragraph " item"; Samples.paragraph "one "])
            [Samples.paragraph " item"; Samples.paragraph "one "]
            [VStr (js " item"); VStr (js "one ")] (js " item one ")
            _ _ _ _ _);
    vm_compute; reflexivity.
Defined.

(** ** Applying [htmlToPlain] to its own output *)

Section TrimFacts.

Lemma trimStart_app_last (l : jsstring) (c : jschar) :
  is_space c = false -> trimStart (l ++ [c]) = trimStart l ++ [c].
Proof.
  intros Hc. induction l as [|x l IH]; simpl.
  - now rewrite Hc.
  - destruct (is_space x); [exact IH|reflexivity].
Qed.

Lemma trimStart_fixed (c : jschar) (s : jsstring) :
  is_space c = false -> trimStart (c :: s) = c :: s.
Proof. intros H. simpl. now rewrite H. Qed.

Lemma trimStart_head (s : jsstring) :
  trimStart s = [] \/
  exists c s', trimStart s = c :: s' /\ is_space c = false.
Proof.
  induction s as [|x s IH]; simpl; [now left|].
  destruct (is_space x) eqn:E; [exact IH|right; eauto].
Qed.

Lemma trimStart_idem (s : jsstring) : trimStart (trimStart s) = trimStart s.
Proof.
  destruct (trimStart_head s) as [->|(c & s' & -> & Hc)]; [reflexivity|].
  now apply trimStart_fixed.
Qed.

Lemma trimEnd_cons (c : jschar) (s : jsstring) :
  is_space c = false -> trimEnd (c :: s) = c :: trimEnd s.
Proof.
  intros Hc. unfold trimEnd. simpl.
  rewrite trimStart_app_last by assumption.
  now rewrite rev_app_distr.
Qed.

Lemma trimEnd_idem (s : jsstring) : trimEnd (trimEnd s) = trimEnd s.
Proof. unfold trimEnd. now rewrite rev_involutive, trimStart_idem. Qed.

Lemma trim_idem (s : jsstring) : trim (trim s) = trim s.
Proof.
  unfold trim.
  destruct (trimStart_head s) as [->|(c & s' & -> & Hc)]; [reflexivity|].
  rewrite trimEnd_cons by assumption.
  rewrite trimStart_fixed by assumption.
  rewrite trimEnd_cons by assumption. now rewrite trimEnd_idem.
Qed.

Lemma trimStart_suffix (s : jsstring) : exists a, s = a ++ trimStart s.
Proof.
  induction s as [|x s [a IH]]; simpl.
  - now exists [].
  - destruct (is_space x).
    + exists (x :: a). simpl. now f_equal.
    + now exists [].
Qed.

(** [trim] keeps a run of consecutive characters of its argument. *)
Lemma trim_infix (s : jsstring) : exists a b, s = a ++ trim s ++ b.
Proof.
  unfold trim, trimEnd.
  destruct (trimStart_suffix s) as [a Ha].
  destruct (trimStart_suffix (rev (trimStart s))) as [b Hb].
  exists a, (rev b). rewrite Ha at 1. f_equal.
  rewrite <- rev_app_distr, <- Hb. now rewrite rev_involutive.
Qed.

End TrimFacts.

Section NoMatch.
Variable ic : bool.
Variable r : regex.

Lemma scan_from_no_match (n : nat) (s : jsstring) :
  (forall k, match_here ic n r (skipn k s) = None) ->
  scan_from ic r n s 0 = map Keep s.
Proof.
  induction s as [|c s IH]; intros H.
  - pose proof (H 0) as H0. simpl in H0. simpl. now rewrite H0.
  - pose proof (H 0) as H0. simpl in H0. rewrite scan_from_cons, H0.
    simpl. f_equal. apply IH. intros k. exact (H (S k)).
Qed.

(** A replacement leaves a text without a match as it is. *)
Lemma replace_with_no_match (f : jsstring -> list jsstring -> jsstring)
    (s : jsstring) :
  (forall k, match_here ic (length s) r (skipn k s) = None) ->
  replace_with ic r f s = s.
Proof.
  intros H. unfold replace_with, scan. rewrite scan_from_no_match by assumption.
  induction s as [|c s IH]; simpl; [reflexivity|]. f_equal.
  clear. induction s as [|x s IH]; simpl; [reflexivity|now f_equal].
Qed.

Lemma match_here_absent_chr (n : nat) (c : jschar) (s : jsstring) :
  first_chr r = Some c ->
  forallb (fun x => negb (chr_matches ic c x)) s = true ->
  forall k, match_here ic n r (skipn k s) = None.
Proof.
  intros Hc Hs k.
  destruct (match_here ic n r (skipn k s)) as [[caps rest]|] eqn:E;
    [|reflexivity].
  destruct (match_here_first_chr _ _ _ _ _ _ _ Hc E) as (x & m & Hx & Hm).
  assert (In x s) as Hin.
  { apply (In_skipn k). rewrite Hx. now left. }
  rewrite forallb_forall in Hs. specialize (Hs x Hin).
  rewrite Hm in Hs. discriminate.
Qed.

Lemma replace_with_absent_chr (f : jsstring -> list jsstring -> jsstring)
    (c : jschar) (s : jsstring) :
  first_chr r = Some c ->
  forallb (fun x => negb (chr_matches ic c x)) s = true ->
  replace_with ic r f s = s.
Proof.
  intros Hc Hs. apply replace_with_no_match.
  now apply (match_here_absent_chr _ c).
Qed.

(** What a replacement leaves satisfies what the text and the replacements
    satisfy. *)
Lemma replace_with_forallb (P : jschar -> bool)
    (f : jsstring -> list jsstring -> jsstring) (s : jsstring) :
  (forall m caps, forallb P (f m caps) = true) ->
  forallb P s = true -> forallb P (replace_with ic r f s) = true.
Proof.
  intros Hf Hs. unfold replace_with, scan.
  pose proof (scanned_text _ _ _ _ _
                (scan_from_scanned ic (length s) r s)) as Htxt.
  revert Hs. rewrite <- Htxt at 1.
  generalize (scan_from ic r (length s) s 0). clear Htxt.
  induction l as [|[c|m caps] l IH]; simpl; intros H.
  - reflexivity.
  - apply andb_true_iff in H. destruct H as [-> H]. now apply IH.
  - rewrite forallb_app in *. apply andb_true_iff in H. destruct H as [_ H].
    now rewrite Hf, IH.
Qed.

End NoMatch.

Section Cleaning.

Local Abbreviation isLF := (N.eqb LF).
Local Opaque N.eqb.

Lemma replace_all_emit (ic : bool) (r : regex) (to s : jsstring) :
  replace_all ic r to s = emit to (scan ic r s).
Proof. reflexivity. Qed.

(** *** Greedy repetition *)

Lemma rep_rests_length (p : jschar -> bool) (s : jsstring) :
  length (rep_rests p s) = S (lead p s).
Proof.
  induction s as [|x s IH]; simpl; [reflexivity|].
  destruct (p x); simpl; [now rewrite IH|reflexivity].
Qed.

Lemma hd_error_app {A : Type} (l1 l2 : list A) :
  l1 <> [] -> hd_error (l1 ++ l2) = hd_error l1.
Proof. destruct l1; [congruence|reflexivity]. Qed.

(** The greedy choice is the longest run. *)
Lemma rep_greedy_first (p : jschar -> bool) (s : jsstring) :
  forall k,
    hd_error (rev (skipn k (rep_rests p s)))
    = if k <=? lead p s then Some (skipn (lead p s) s) else None.
Proof.
  induction s as [|x s IH]; intros k.
  - destruct k as [|k]; simpl; [reflexivity|]. now destruct k.
  - simpl rep_rests. simpl lead. destruct (p x).
    + destruct k as [|k].
      * simpl skipn at 1. simpl rev.
        rewrite hd_error_app.
        -- specialize (IH 0). simpl skipn at 1 in IH. rewrite IH. reflexivity.
        -- intros E. apply (f_equal (@length _)) in E.
           rewrite length_rev, rep_rests_length in E. discriminate.
      * simpl skipn at 1. rewrite IH. reflexivity.
    + destruct k as [|k]; simpl; [reflexivity|]. now destruct k.
Qed.

Lemma lead_skipn_lead (p : jschar -> bool) (s : jsstring) :
  lead p (skipn (lead p s) s) = 0.
Proof.
  induction s as [|x s IH]; simpl; [reflexivity|].
  destruct (p x) eqn:E; simpl; [exact IH|now rewrite E].
Qed.

Lemma lead_le_length (p : jschar -> bool) (s : jsstring) :
  lead p s <= length s.
Proof.
  induction s as [|x s IH]; simpl; [lia|]. destruct (p x); simpl; lia.
Qed.

Lemma newlineRun_match_here (n : nat) (s : jsstring) :
  match_here false n newlineRun s
  = if 3 <=? lead isLF s then Some ([], skipn (lead isLF s) s) else None.
Proof.
  unfold match_here, newlineRun. cbn [matches].
  assert (forall l : list jsstring,
             hd_error (map (pair (@nil jsstring)) l)
             = option_map (pair []) (hd_error l)) as Hmap
    by (intros [|? ?]; reflexivity).
  rewrite Hmap, rep_greedy_first.
  now destruct (3 <=? lead isLF s).
Qed.

(** *** Runs of newlines *)

Lemma has_run_cons (p : jschar -> bool) (k : nat) (x : jschar) (s : jsstring) :
  has_run p k (x :: s) = (k <=? lead p (x :: s)) || has_run p k s.
Proof. reflexivity. Qed.

Lemma has_pair_cons2 (p q : jschar -> bool) (x y : jschar) (s : jsstring) :
  has_pair p q (x :: y :: s) = p x && q y || has_pair p q (y :: s).
Proof. reflexivity. Qed.

Lemma has_pair_starts (p : jschar -> bool) (x : jschar) (s : jsstring) :
  has_pair p isLF (x :: s) = p x && starts_lf s || has_pair p isLF s.
Proof. destruct s; simpl; [now rewrite andb_false_r|reflexivity]. Qed.

Lemma starts_lf_lead (s : jsstring) : starts_lf s = (1 <=? lead isLF s).
Proof. destruct s as [|x s]; simpl; [reflexivity|]. now destruct (LF =? x)%N. Qed.

Lemma has_pair_app (p q : jschar -> bool) (a b : jsstring) :
  has_pair p q (a ++ b) = false ->
  has_pair p q a = false /\ has_pair p q b = false.
Proof.
  induction a as [|x a IH]; intros H; [now split|].
  destruct a as [|y a].
  - simpl app in H. split; [reflexivity|].
    destruct b; [reflexivity|]. rewrite has_pair_cons2 in H.
    now apply orb_false_iff in H.
  - simpl app in *. rewrite has_pair_cons2 in *.
    apply orb_false_iff in H. destruct H as [H1 H2].
    destruct (IH H2) as [Ha Hb]. rewrite H1, Ha. now split.
Qed.

Lemma lead_app_le (p : jschar -> bool) (a b : jsstring) :
  lead p a <= lead p (a ++ b).
Proof.
  induction a as [|x a IH]; simpl; [lia|]. destruct (p x); lia.
Qed.

Lemma has_run_app (p : jschar -> bool) (k : nat) (a b : jsstring) :
  has_run p k (a ++ b) = false ->
  has_run p k a = false /\ has_run p k b = false.
Proof.
  induction a as [|x a IH]; intros H.
  - split; [|exact H]. simpl. destruct b; simpl in H.
    + exact H.
    + apply orb_false_iff in H. destruct H as [H _].
      apply Nat.leb_gt in H. simpl. rewrite orb_false_r.
      apply Nat.leb_gt. lia.
  - simpl app in H. rewrite has_run_cons in *.
    apply orb_false_iff in H. destruct H as [H1 H2].
    destruct (IH H2) as [Ha Hb]. split; [|exact Hb]. rewrite Ha, orb_false_r.
    apply Nat.leb_gt in H1. apply Nat.leb_gt.
    pose proof (lead_app_le p (x :: a) b). simpl app in *. lia.
Qed.

Lemma has_run_skipn (p : jschar -> bool) (k : nat) (s : jsstring) :
  has_run p k s = false -> forall j, lead p (skipn j s) < k.
Proof.
  induction s as [|x s IH]; intros H j.
  - simpl in H. rewrite orb_false_r in H. apply Nat.leb_gt in H.
    now destruct j.
  - rewrite has_run_cons in H. apply orb_false_iff in H. destruct H as [H1 H2].
    destruct j as [|j]; [now apply Nat.leb_gt in H1|]. now apply IH.
Qed.

Lemma has_pair_skipn (p q : jschar -> bool) (s : jsstring) (j : nat) :
  has_pair p q s = false -> has_pair p q (skipn j s) = false.
Proof.
  intros H. rewrite <- (firstn_skipn j s) in H.
  now apply has_pair_app in H.
Qed.

(** What replacing the runs of three and more newlines leaves: no such run,
    and no blank before a newline where there was none. *)
Lemma newlineRun_scanned (n : nat) (s : jsstring) (ps : list piece) :
  scanned false newlineRun n s ps ->
  lead isLF (emit [LF; LF] ps) = Nat.min (lead isLF s) 2 /\
  has_run isLF 3 (emit [LF; LF] ps) = false /\
  (has_pair blank isLF s = false ->
   has_pair blank isLF (emit [LF; LF] ps) = false).
Proof.
  induction 1 as [E|caps rest E|c s ps E Hs IH|c s caps ps E Hs IH
                  |m rest caps ps Hm E Hs IH];
    rewrite newlineRun_match_here in E.
  - now repeat split.
  - discriminate.
  - destruct IH as (IH1 & IH2 & IH3).
    destruct (3 <=? lead isLF (c :: s)) eqn:Hl; [discriminate|].
    apply Nat.leb_gt in Hl.
    change (emit [LF; LF] (Keep c :: ps)) with (c :: emit [LF; LF] ps).
    assert (lead isLF (c :: emit [LF; LF] ps) = Nat.min (lead isLF (c :: s)) 2)
      as Hlead.
    { simpl in *. destruct (LF =? c)%N; [|reflexivity]. rewrite IH1. lia. }
    repeat split.
    + exact Hlead.
    + rewrite has_run_cons, IH2, Hlead, orb_false_r. apply Nat.leb_gt. lia.
    + intros Hp. rewrite has_pair_starts in *.
      apply orb_false_iff in Hp. destruct Hp as [Hp1 Hp2].
      rewrite (IH3 Hp2), orb_false_r.
      rewrite starts_lf_lead in *. rewrite IH1.
      destruct (blank c); [|reflexivity]. cbn [andb] in *.
      apply Nat.leb_gt in Hp1. apply Nat.leb_gt. lia.
  - exfalso. destruct (3 <=? lead isLF (c :: s)) eqn:Hl; [|discriminate].
    apply Nat.leb_le in Hl. injection E as _ E.
    apply (f_equal (@length _)) in E. rewrite length_skipn in E.
    remember (lead isLF (c :: s)) as k eqn:Hk. cbn [lead] in Hk.
    cbn [length] in E. rewrite <- Hk in E. lia.
  - destruct IH as (IH1 & IH2 & IH3).
    destruct (3 <=? lead isLF (m ++ rest)) eqn:Hl; [|discriminate].
    apply Nat.leb_le in Hl. injection E as _ E.
    assert (lead isLF rest = 0) as Hrest
      by (rewrite <- E at 1; apply lead_skipn_lead).
    change (emit [LF; LF] (Hit m caps :: ps))
      with (LF :: LF :: emit [LF; LF] ps).
    assert (lead isLF (LF :: LF :: emit [LF; LF] ps) = 2) as Hlead.
    { simpl. rewrite IH1, Hrest. reflexivity. }
    repeat split.
    + rewrite Hlead. lia.
    + rewrite !has_run_cons, IH2, Hlead.
      assert (lead isLF (LF :: emit [LF; LF] ps) = 1) as ->
        by (simpl; now rewrite IH1, Hrest).
      reflexivity.
    + intros Hp. apply has_pair_app in Hp. destruct Hp as [_ Hp].
      rewrite !has_pair_starts. now rewrite (IH3 Hp).
Qed.

(** *** Blanks before a newline *)

Lemma existsb_starts_lf (s : jsstring) :
  existsb starts_lf (rep_rests blank s) = blanks_then_lf s.
Proof.
  induction s as [|x s IH]; simpl; [reflexivity|].
  destruct (blank x); simpl; [now rewrite IH|now rewrite !orb_false_r].
Qed.

Lemma existsb_rev {A : Type} (f : A -> bool) (l : list A) :
  existsb f (rev l) = existsb f l.
Proof.
  induction l as [|x l IH]; simpl; [reflexivity|].
  rewrite existsb_app, IH. simpl. rewrite orb_false_r. apply orb_comm.
Qed.

Lemma lf_after_rests (n : nat) (l : list jsstring) :
  flat_map (matches false n (Chr LF)) (map (pair []) l) = [] <->
  existsb starts_lf l = false.
Proof.
  induction l as [|x l IH]; simpl; [tauto|].
  destruct x as [|y x]; simpl; [exact IH|].
  unfold chr_matches. destruct (LF =? y)%N; simpl; [|exact IH].
  split; discriminate.
Qed.

Lemma blanksBeforeNewline_match_here (n : nat) (s : jsstring) :
  match_here false n blanksBeforeNewline s = None <->
  match s with
  | c :: s' => blank c && blanks_then_lf s'
  | [] => false
  end = false.
Proof.
  unfold match_here, blanksBeforeNewline. simpl matches.
  assert (forall l : list mstate, hd_error l = None <-> l = []) as Hhd
    by (intros [|? ?]; simpl; split; congruence).
  rewrite Hhd, (lf_after_rests n), existsb_rev.
  destruct s as [|c s]; simpl; [tauto|].
  destruct (blank c); simpl; [now rewrite existsb_starts_lf|tauto].
Qed.

Lemma cat_chr_shorter (ic : bool) (n : nat) (a : regex) (c : jschar)
    caps s caps' s' :
  In (caps', s') (matches ic n (Cat a (Chr c)) (caps, s)) ->
  length s' < length s.
Proof.
  cbn [matches]. intros H.
  apply in_flat_map in H. destruct H as ([c1 s1] & H1 & H2).
  destruct (matches_suffix _ _ _ _ _ _ _ H1) as (m & ->).
  simpl in H2. destruct s1 as [|y s1]; [contradiction|].
  destruct (chr_matches ic c y); [|contradiction].
  destruct H2 as [[= <- <-]|[]]. rewrite length_app. simpl. lia.
Qed.

Lemma blanksBeforeNewline_shorter (n : nat) (s : jsstring) caps rest :
  match_here false n blanksBeforeNewline s = Some (caps, rest) ->
  length rest < length s.
Proof.
  unfold match_here. intros H.
  apply (cat_chr_shorter false n (plus blank) LF [] s caps rest).
  change (Cat (plus blank) (Chr LF)) with blanksBeforeNewline.
  destruct (matches false n blanksBeforeNewline ([], s)); [discriminate|].
  injection H as ->. now left.
Qed.

Lemma blanks_then_lf_pair (c : jschar) (s : jsstring) :
  blank c && blanks_then_lf s = true -> has_pair blank isLF (c :: s) = true.
Proof.
  revert c. induction s as [|x s IH]; intros c H.
  - simpl in H. now rewrite andb_false_r in H.
  - apply andb_true_iff in H. destruct H as [Hc H]. simpl in H.
    rewrite has_pair_cons2, Hc. destruct (LF =? x)%N; [reflexivity|].
    simpl in *. now apply IH.
Qed.

(** What replacing the blanks before a newline leaves: no blank before a
    newline. *)
Lemma blanksBeforeNewline_scanned (n : nat) (s : jsstring) (ps : list piece) :
  scanned false blanksBeforeNewline n s ps ->
  has_pair blank isLF (emit [LF] ps) = false /\
  (blanks_then_lf (emit [LF] ps) = true -> blanks_then_lf s = true).
Proof.
  induction 1 as [E|caps rest E|c s ps E Hs IH|c s caps ps E Hs IH
                  |m rest caps ps Hm E Hs IH].
  - now split.
  - exfalso. apply blanksBeforeNewline_shorter in E. simpl in E. lia.
  - destruct IH as (IH1 & IH2).
    apply blanksBeforeNewline_match_here in E.
    change (emit [LF] (Keep c :: ps)) with (c :: emit [LF] ps).
    split.
    + rewrite has_pair_starts, IH1, orb_false_r.
      destruct (blank c) eqn:Hc; [|reflexivity]. simpl in *.
      destruct (starts_lf (emit [LF] ps)) eqn:Hl; [|reflexivity].
      rewrite IH2 in E; [discriminate|].
      destruct (emit [LF] ps) as [|y o]; [discriminate|].
      simpl in *. now rewrite Hl.
    + simpl. intros H. apply orb_true_iff in H. destruct H as [->|H].
      * reflexivity.
      * apply andb_true_iff in H. destruct H as [Hc H].
        rewrite Hc in *. rewrite (IH2 H) in E. discriminate.
  - exfalso. apply blanksBeforeNewline_shorter in E. lia.
  - destruct IH as (IH1 & IH2).
    change (emit [LF] (Hit m caps :: ps)) with (LF :: emit [LF] ps).
    split.
    + now rewrite has_pair_starts, IH1.
    + intros _.
      destruct (match_here false n blanksBeforeNewline (m ++ rest)) eqn:E';
        [|discriminate].
      assert (match_here false n blanksBeforeNewline (m ++ rest) <> None)
        as Hne by congruence.
      rewrite blanksBeforeNewline_match_here in Hne.
      destruct (m ++ rest) as [|c s']; [congruence|].
      apply not_false_is_true in Hne.
      apply andb_true_iff in Hne. destruct Hne as [Hc Hb].
      simpl. now rewrite Hc, Hb, orb_true_r.
Qed.

(** *** The cleaned text *)

Lemma chr_matches_symbol (ic : bool) (c x : jschar) :
  (c < 65)%N -> chr_matches ic c x = true -> x = c.
Proof.
  unfold chr_matches, ascii_upper. intros Hc H.
  destruct ic; [|now apply N.eqb_eq in H].
  destruct ((97 <=? c)%N && (c <=? 122)%N) eqn:E1.
  { apply andb_true_iff in E1. destruct E1 as [E1 _].
    apply N.leb_le in E1. lia. }
  destruct ((97 <=? x)%N && (x <=? 122)%N) eqn:E2;
    apply N.eqb_eq in H; [|now symmetry].
  apply andb_true_iff in E2. destruct E2 as [E2 _]. apply N.leb_le in E2. lia.
Qed.

Lemma replace_with_absent_symbol (ic : bool) (r : regex)
    (f : jsstring -> list jsstring -> jsstring) (c : jschar) (s : jsstring) :
  first_chr r = Some c -> (c < 65)%N ->
  forallb (fun x => negb (x =? c)%N) s = true ->
  replace_with ic r f s = s.
Proof.
  intros Hr Hc Hs. apply (replace_with_absent_chr ic r f c s Hr).
  rewrite forallb_forall in *. intros x Hx. specialize (Hs x Hx).
  destruct (chr_matches ic c x) eqn:E; [|reflexivity].
  apply chr_matches_symbol in E; [|assumption]. subst x.
  now rewrite N.eqb_refl in Hs.
Qed.

Lemma forallb_infix {A : Type} (P : A -> bool) (a t b : list A) :
  forallb P (a ++ t ++ b) = true -> forallb P t = true.
Proof.
  rewrite !forallb_app. intros H.
  apply andb_true_iff in H. destruct H as [_ H].
  now apply andb_true_iff in H.
Qed.

Lemma stripCR_scanned (n : nat) (s : jsstring) (ps : list piece) :
  scanned false stripCR n s ps ->
  forallb (fun x => negb (x =? CR)%N) (emit [] ps) = true.
Proof.
  induction 1 as [E|caps rest E|c s ps E Hs IH|c s caps ps E Hs IH
                  |m rest caps ps Hm E Hs IH]; simpl; auto.
  - rewrite IH, andb_true_r.
    unfold match_here, stripCR in E. simpl in E. unfold chr_matches in E.
    rewrite N.eqb_sym. now destruct (CR =? c)%N.
  - exfalso. exact (match_here_nonempty _ _ stripCR CR eq_refl _ _ E).
Qed.

Lemma stripCR_removes (s : jsstring) :
  forallb (fun x => negb (x =? CR)%N) (replace_all false stripCR [] s) = true.
Proof.
  rewrite replace_all_emit. apply (stripCR_scanned (length s) s).
  apply scan_from_scanned.
Qed.

Lemma cleaned_spec (x : jsstring) :
  forallb (fun c => negb (c =? CR)%N) (cleaned x) = true /\
  has_pair blank isLF (cleaned x) = false /\
  has_run isLF 3 (cleaned x) = false /\
  trim (cleaned x) = cleaned x.
Proof.
  unfold cleaned.
  set (x1 := replace_all false stripCR [] x).
  set (x2 := replace_all false blanksBeforeNewline [LF] x1).
  set (x3 := replace_all false newlineRun [LF; LF] x2).
  assert (forallb (fun c => negb (c =? CR)%N) x3 = true) as H1.
  { apply replace_with_forallb; [reflexivity|].
    apply replace_with_forallb; [reflexivity|]. apply stripCR_removes. }
  assert (has_pair blank isLF x2 = false) as H2.
  { unfold x2. rewrite replace_all_emit.
    apply (blanksBeforeNewline_scanned (length x1) x1).
    apply scan_from_scanned. }
  destruct (newlineRun_scanned (length x2) x2 _
              (scan_from_scanned false (length x2) newlineRun x2))
    as (_ & H3 & H4).
  specialize (H4 H2).
  change (emit [LF; LF] (scan_from false newlineRun (length x2) x2 0))
    with x3 in H3, H4.
  destruct (trim_infix x3) as (a & b & Hab).
  rewrite Hab in H1, H3, H4.
  repeat split.
  - exact (forallb_infix _ _ _ _ H1).
  - apply has_pair_app in H4. destruct H4 as [_ H4].
    now apply has_pair_app in H4.
  - apply has_run_app in H3. destruct H3 as [_ H3].
    now apply has_run_app in H3.
  - apply trim_idem.
Qed.

Lemma htmlToPlain_cleaned (s : jsstring) :
  s <> [] -> exists x, htmlToPlain s = cleaned x.
Proof.
  intros Hs. destruct s as [|c s]; [congruence|].
  unfold htmlToPlain, cleaned, stripCR, blanksBeforeNewline, newlineRun.
  cbv beta iota zeta delta [is_empty].
  eexists. reflexivity.
Qed.

(** A text without tags, entities, carriage returns, blanks before a
    newline and runs of three newlines, and trimmed, is left as it is. *)
Lemma htmlToPlain_fixed (t : jsstring) :
  plain_text t = true ->
  forallb (fun c => negb (c =? CR)%N) t = true ->
  has_pair blank isLF t = false ->
  has_run isLF 3 t = false ->
  trim t = t ->
  htmlToPlain t = t.
Proof.
  intros Hplain Hcr Hpair Hrun Htrim.
  assert (forallb (fun c => negb (c =? 60)%N) t = true /\
          forallb (fun c => negb (c =? 38)%N) t = true) as [Hlt Hamp].
  { unfold plain_text in Hplain. rewrite forallb_forall in Hplain.
    split; apply forallb_forall; intros c Hc; specialize (Hplain c Hc);
      apply andb_true_iff in Hplain; tauto. }
  unfold htmlToPlain. destruct (is_empty t) eqn:Et.
  { now destruct t. }
  unfold decodeHtmlEntities, replace_all.
  repeat (rewrite (replace_with_absent_symbol _ _ _ 60%N t)
            by (reflexivity || assumption)).
  repeat (rewrite (replace_with_absent_symbol _ _ _ 38%N t)
            by (reflexivity || assumption)).
  rewrite (replace_with_absent_symbol _ _ _ CR t)
    by (reflexivity || assumption).
  rewrite (replace_with_no_match false blanksBeforeNewline).
  2:{ intros k. apply blanksBeforeNewline_match_here.
      pose proof (has_pair_skipn blank isLF t k Hpair) as Hk.
      destruct (skipn k t) as [|c s']; [reflexivity|].
      destruct (blank c && blanks_then_lf s') eqn:E; [|reflexivity].
      apply blanks_then_lf_pair in E. congruence. }
  rewrite (replace_with_no_match false newlineRun).
  2:{ intros k. rewrite newlineRun_match_here.
      pose proof (has_run_skipn isLF 3 t Hrun k) as Hk.
      apply Nat.leb_gt in Hk. now rewrite Hk. }
  exact Htrim.
Qed.

End Cleaning.

(** C6, amended: when the output of [htmlToPlain] holds no [<] and no [&],
    applying [htmlToPlain] to it returns it unchanged. *)
Theorem htmlToPlain_idempotent_on_plain_output (s : jsstring) :
  plain_text (htmlToPlain s) = true ->
  htmlToPlain (htmlToPlain s) = htmlToPlain s.
Proof.
  intros Hplain. destruct s as [|c s]; [reflexivity|].
  destruct (htmlToPlain_cleaned (c :: s)) as [x Hx]; [discriminate|].
  rewrite Hx in *.
  destruct (cleaned_spec x) as (H1 & H2 & H3 & H4).
  now apply htmlToPlain_fixed.
Qed.

(** C6, amended, on a sample. *)
Lemma htmlToPlain_idempotent_on_plain_output_witness :
  htmlToPlain (htmlToPlain (js "<p>Hello</p><p>World</p>"))
  = htmlToPlain (js "<p>Hello</p><p>World</p>").
Proof.
  apply (htmlToPlain_idempotent_on_plain_output (js "<p>Hello</p><p>World</p>")).
  vm_compute. reflexivity.
Defined.

(** ** The resolution policy of [getStory] *)

Lemma bind_Returns {A B : Type} (c : outcome A) (k : A -> outcome B) (b : B) :
  bind c k = Returns b -> exists a, c = Returns a /\ k a = Returns b.
Proof. destruct c; simpl; try discriminate. eauto. Qed.

Lemma bind_no_loop {A B : Type} (c : outcome A) (k : A -> outcome B) :
  c <> Loops -> (forall a, k a <> Loops) -> bind c k <> Loops.
Proof. destruct c; simpl; auto; discriminate. Qed.

Section NoLoop.
Variable Number_toString : spec_float -> jsstring.
Variable StringToNumber : jsstring -> spec_float.

Lemma ToString_no_loop_depth :
  forall n v, depth v < n -> ToString Number_toString v <> Loops.
Proof.
  induction n as [|n IH]; intros v Hd; [lia|].
  destruct v as [| |b|x|s|items|props]; simpl; try discriminate.
  - apply bind_no_loop; [|discriminate].
    apply map_outcome_no_loop. intros x Hx.
    destruct (nullish x); [discriminate|].
    apply IH. pose proof (depth_item items x Hx). lia.
  - destruct (assoc _ props); discriminate.
Qed.

Lemma ToString_no_loop (v : value) : ToString Number_toString v <> Loops.
Proof. apply (ToString_no_loop_depth (S (depth v))). lia. Qed.

Lemma array_join_no_loop (sep : jsstring) (l : list value) :
  array_join Number_toString sep l <> Loops.
Proof.
  unfold array_join. apply bind_no_loop; [|discriminate].
  apply map_outcome_no_loop. intros x _. unfold join_item.
  destruct (nullish x); [discriminate|apply ToString_no_loop].
Qed.

Lemma array_map_no_loop (self : value -> outcome value) (node : value)
    (k : jsstring) (fuel : nat) :
  depth node <= fuel ->
  (forall x, depth x < fuel -> self x <> Loops) ->
  array_map self (get node k) <> Loops /\
  array_map self (js_or (get node k) (VArr [])) <> Loops.
Proof.
  intros Hd Hself.
  assert (array_map self (get node k) <> Loops) as H.
  { destruct (get node k) as [| | | | |items|] eqn:E; try discriminate.
    simpl. apply map_outcome_no_loop. intros x Hx. apply Hself.
    pose proof (content_items_depth node k items x E Hx). lia. }
  split; [exact H|]. unfold js_or.
  destruct (truthy (get node k)); [exact H|discriminate].
Qed.

Lemma join_branch_no_loop (c : outcome (list value)) (sep : jsstring)
    (g : jsstring -> jsstring) :
  c <> Loops ->
  (parts <- c ;;
   text <- array_join Number_toString sep parts ;;
   Returns (VStr (g text))) <> Loops.
Proof.
  intros H. apply bind_no_loop; [exact H|]. intros parts.
  apply bind_no_loop; [apply array_join_no_loop|discriminate].
Qed.

(** The recursion of [extractTextFromNode] never runs out of fuel. *)
Lemma extractTextFromNode_rec_no_loop :
  forall fuel node,
    depth node < fuel ->
    extractTextFromNode_rec Number_toString fuel node <> Loops.
Proof.
  induction fuel as [|fuel IH]; intros node Hd; [lia|].
  assert (depth node <= fuel) as Hle by lia.
  destruct (array_map_no_loop _ node (js "content") fuel Hle IH) as [H1 H2].
  simpl. unfold extractTextFromNode_body.
  repeat match goal with
    | |- (if ?b then _ else _) <> Loops => destruct b
    end;
    try discriminate;
    first [ apply (join_branch_no_loop _ _ (fun x => x)); assumption
          | apply (join_branch_no_loop _ _
                     (fun text => if negb (is_empty (trim text))
                                  then js "- " ++ trim text else []));
            assumption ].
Qed.

Lemma extractTextFromNode_no_loop (node : value) :
  extractTextFromNode Number_toString node <> Loops.
Proof. apply extractTextFromNode_rec_no_loop. lia. Qed.

Lemma adf_loop_no_loop (nodes : list value) :
  forall beforeAC acContent found,
    adf_loop Number_toString nodes beforeAC acContent found <> Loops.
Proof.
  induction nodes as [|node nodes IH]; intros b a found; simpl.
  - discriminate.
  - apply bind_no_loop; [apply extractTextFromNode_no_loop|]. intros r.
    apply bind_no_loop; [destruct r; discriminate|]. intros text.
    destruct (negb found && test true acHeadingRegex text);
      [|destruct found]; apply IH.
Qed.

(** [adfToPlain] returns or throws on a document whose content is an
    array. *)
Lemma adfToPlain_array_no_loop (doc : value) :
  isArray (get doc (js "content")) = true ->
  adfToPlain Number_toString StringToNumber doc <> Loops.
Proof.
  intros H. unfold adfToPlain.
  destruct (negb (truthy doc) || negb (typeof_object doc)); [discriminate|].
  destruct (get doc (js "content")) as [| | | | |items|]; try discriminate.
  unfold js_or. cbn [truthy index_loop bind fst snd].
  apply bind_no_loop; [apply adf_loop_no_loop|discriminate].
Qed.

End NoLoop.

Section Story.
Variable Number_toString : spec_float -> jsstring.
Variable StringToNumber : jsstring -> spec_float.
Variable JSON_parse : jsstring -> option value.
Variable JSON_stringify : value -> jsstring.
Variable toLowerCase : jsstring -> jsstring.
Variable inherited_method : value -> jsstring -> bool.

Local Abbreviation to_plain := (adfToPlain Number_toString StringToNumber).
Local Abbreviation plain_field := (plain_of_field JSON_stringify).
Local Abbreviation discover :=
  (discover_ac Number_toString JSON_stringify toLowerCase inherited_method).
Local Abbreviation story :=
  (getStory Number_toString StringToNumber JSON_parse JSON_stringify
     toLowerCase inherited_method).

(** *** What the steps return is text *)

Lemma htmlToPlain_value_text (html x : value) :
  htmlToPlain_value html = Returns x -> typeof_string x = true.
Proof.
  unfold htmlToPlain_value.
  destruct (negb (truthy html)); [now intros [= <-]|].
  destruct html; try discriminate. now intros [= <-].
Qed.



Lemma typeof_string_text (x : value) :
  typeof_string x = true -> text_or_undefined x = true.
Proof. now destruct x. Qed.








Lemma finalize_description_text (renderedDesc fields d x : value) :
  finalize_description JSON_stringify renderedDesc fields d = Returns x ->
  text_or_undefined d = true -> text_or_undefined x = true.
Proof.
  unfold finalize_description. intros H Hd.
  destruct (negb (truthy d)); [|now injection H as <-].
  destruct (truthy renderedDesc).
  { apply typeof_string_text. eapply htmlToPlain_value_text; eassumption. }
  destruct (typeof_string (get fields (js "description"))).
  { apply bind_Returns in H. destruct H as (s & _ & H). now injection H as <-. }
  destruct (truthy (get fields (js "description"))); [|now injection H as <-].
  apply typeof_string_text. eapply htmlToPlain_value_text; eassumption.
Qed.

Lemma js_or_text (v : value) :
  text_or_undefined v = true -> typeof_string (js_or v (VStr [])) = true.
Proof. unfold js_or. destruct v; try discriminate; simpl; auto.
  now destruct (negb (is_empty s)). Qed.


(** *** The steps return on the expected payload *)


Lemma assoc_of_key (k : jsstring) (l : list (jsstring * value)) :
  In k (map fst l) -> exists v, assoc k l = Some v /\ In v (map snd l).
Proof.
  induction l as [|[k' v'] l IH]; simpl; [contradiction|]. intros H.
  destruct (str_eqb k' k) eqn:E.
  - exists v'. split; [reflexivity|now left].
  - destruct H as [H|H].
    + subst k'. unfold str_eqb in E.
      now destruct (list_eq_dec N.eq_dec k k).
    + destruct (IH H) as (v & Hv & Hin). exists v. split; [exact Hv|now right].
Qed.

Lemma get_own (v : value) (k : jsstring) (x : value) :
  assoc k (own_props v) = Some x -> get v k = x.
Proof. unfold get. now intros ->. Qed.






Lemma htmlToPlain_value_returns (v : value) :
  negb (truthy v) || typeof_string v = true ->
  exists s, htmlToPlain_value v = Returns (VStr s).
Proof.
  intros H. unfold htmlToPlain_value.
  destruct (negb (truthy v)) eqn:E; eauto.
  destruct v; try discriminate. eauto.
Qed.

Lemma htmlToPlain_value_str (s : jsstring) :
  htmlToPlain_value (VStr s) = Returns (VStr (htmlToPlain s)).
Proof. unfold htmlToPlain_value. now destruct s. Qed.


Lemma finalize_description_returns (renderedDesc fields d : value) :
  negb (truthy renderedDesc) || typeof_string renderedDesc = true ->
  exists x,
    finalize_description JSON_stringify renderedDesc fields d = Returns x.
Proof.
  intros H. unfold finalize_description.
  destruct (negb (truthy d)); eauto.
  destruct (htmlToPlain_value_returns _ H) as [rendered Hrendered].
  destruct (truthy renderedDesc); [rewrite Hrendered; eauto|].
  destruct (typeof_string (get fields (js "description"))) eqn:Ts.
  { destruct (get fields (js "description")); try discriminate.
    cbn [call_trim bind]. eauto. }
  destruct (truthy (get fields (js "description"))); eauto.
  destruct (htmlToPlain_value_returns
              (stringify JSON_stringify (get fields (js "description"))))
    as [plain ->]; eauto.
  unfold stringify.
  destruct (get fields (js "description")); cbn [typeof_string];
    rewrite ?orb_true_r; reflexivity.
Qed.




(** *** Discovery by field name *)

(** X21. In the discovery of the field by its label, a labelled field id
    that is not an own property of the fields but the name of a function
    they inherit ends the search with the empty text: the fields after it
    are not looked at. *)
Theorem discover_ac_inherited_method (names fields : value)
    (fieldId : jsstring) (rest : list jsstring) (acPlain : value)
    (label : jsstring) :
  js_or (get names fieldId) (VStr []) = VStr label ->
  is_ac_label toLowerCase label = true ->
  nullish fields = false ->
  has_own fields fieldId = false ->
  str_eqb fieldId (js "__proto__") = false ->
  inherited_method fields fieldId = true ->
  discover names fields (fieldId :: rest) acPlain = Returns (VStr []).
Proof.
  intros Hlabel Hac Hfields Hown Hproto Hmethod.
  cbn [discover_ac]. rewrite Hlabel. cbn [ToString bind]. cbv zeta.
  unfold is_ac_label in Hac. rewrite Hac.
  unfold get_member. rewrite Hown, Hfields, Hproto, Hmethod. reflexivity.
Qed.

(** *** Without a source for the acceptance criteria *)

Lemma configured_ac_absent (configuredKey : option jsstring) (fields : value) :
  no_configured_field configuredKey fields = true ->
  configured_ac JSON_stringify configuredKey fields VUndefined
  = Returns VUndefined.
Proof.
  unfold no_configured_field, configured_ac, call_hasOwnProperty.
  destruct configuredKey as [k|]; [|reflexivity].
  destruct (is_empty k || nullish fields); [reflexivity|].
  cbn [orb]. intros H. apply andb_true_iff in H. destruct H as [H1 H2].
  apply negb_true_iff in H1, H2. now rewrite H1, H2.
Qed.

Lemma discover_ac_no_label (names fields : value) (fieldIds : list jsstring)
    (acPlain : value) :
  (forall id, In id fieldIds ->
     exists s, js_or (get names id) (VStr []) = VStr s /\
               is_ac_label toLowerCase s = false) ->
  discover names fields fieldIds acPlain = Returns acPlain.
Proof.
  induction fieldIds as [|fieldId rest IH]; intros H; [reflexivity|].
  destruct (H fieldId (or_introl eq_refl)) as (s & Hs & Hno).
  cbn [discover_ac]. rewrite Hs. cbn [ToString bind]. cbv zeta.
  unfold is_ac_label in Hno. rewrite Hno.
  apply IH. intros id Hin. apply H. now right.
Qed.

Lemma discovered_ac_no_label (data fields : value) :
  no_ac_label toLowerCase (js_or (get data (js "names")) (VObj [])) = true ->
  discovered_ac Number_toString JSON_stringify toLowerCase inherited_method
    data fields VUndefined
  = Returns VUndefined.
Proof.
  intros H. unfold discovered_ac. cbn [truthy negb]. cbv zeta.
  apply discover_ac_no_label. intros id Hid.
  destruct (assoc_of_key _ _ Hid) as (v & Hv & Hin).
  rewrite (get_own _ _ _ Hv).
  unfold no_ac_label in H. rewrite forallb_forall in H.
  apply in_map_iff in Hin. destruct Hin as (kv & <- & Hkv).
  specialize (H kv Hkv).
  destruct (js_or (snd kv) (VStr [])) as [| | | |s| |]; try discriminate.
  exists s. split; [reflexivity|]. now apply negb_true_iff.
Qed.

Lemma from_description_no_boundary (fields : value) :
  (let desc := get fields (js "description") in
   truthy desc = false \/
   (exists s, desc = VStr s /\ JSON_parse s = None) \/
   (exists nodes texts,
       typeof_object desc = true /\
       is_str (get desc (js "type")) (js "doc") = true /\
       get desc (js "content") = VArr nodes /\
       map_outcome (rendered_text Number_toString) nodes = Returns texts /\
       forallb (fun t => negb (is_ac_heading t)) texts = true)) ->
  exists d a,
    from_description Number_toString StringToNumber JSON_parse fields
      VUndefined VUndefined
    = Returns (d, a) /\
    text_or_undefined d = true /\ truthy a = false.
Proof.
  cbv zeta. unfold from_description. cbn [truthy negb andb].
  intros [H|[(s & Hs & Hparse)|(nodes & texts & Ho & Ht & Hc & Hr & Hno)]].
  - rewrite H. now exists VUndefined, VUndefined.
  - rewrite Hs. destruct s as [|c s]; [now exists VUndefined, VUndefined|].
    cbn [truthy is_empty negb typeof_object andb].
    unfold parse_description. rewrite Hparse. cbn [try_catch].
    now exists (VStr (c :: s)), VUndefined.
  - assert (truthy (get fields (js "description")) = true) as Htruthy.
    { destruct (get fields (js "description")); try discriminate; reflexivity. }
    rewrite Htruthy, Ho, Ht, Hc. cbn [isArray andb].
    rewrite (adfToPlain_array Number_toString StringToNumber _ nodes
               ([] ++ filter nonempty texts, [])).
    + cbn [bind fst snd description acceptanceCriteria].
      eexists _, _. split; [reflexivity|]. split; reflexivity.
    + exact Htruthy.
    + exact Ho.
    + unfold js_or. now rewrite Hc.
    + now apply adf_loop_before.
Qed.

Lemma from_rendered_no_section (renderedDesc d a : value) :
  truthy renderedDesc = false \/
  (exists h, renderedDesc = VStr h /\
             extractSectionByHeading h (test true acceptanceCriteriaRegex)
             = None) ->
  text_or_undefined d = true ->
  exists d', from_rendered Number_toString renderedDesc d a = Returns (d', a) /\
             text_or_undefined d' = true.
Proof.
  intros H Hd. unfold from_rendered.
  destruct (negb (truthy a) && truthy renderedDesc) eqn:E; [|now exists d].
  apply andb_true_iff in E. destruct E as [_ E].
  destruct H as [H|(h & -> & Hnone)]; [congruence|].
  unfold extractSectionByHeading_value. rewrite E, Hnone.
  cbn [negb option_map bind]. cbv zeta.
  destruct (negb (truthy d)); [|now exists d].
  rewrite htmlToPlain_value_str. cbn [bind]. now eexists.
Qed.

(** X22. For an issue without a source for the acceptance criteria, the
    acceptance criteria are the empty text and the description is a text:
    no field configured or the issue without that field, no label that says
    acceptance criteria, a description that is missing, or a text that
    [JSON.parse] rejects, or a document whose top-level nodes render to
    texts none of which is the boundary, and a rendered description that
    is missing or has no heading for the acceptance criteria. *)
Theorem getStory_no_source_defaults (configuredKey : option jsstring)
    (key : jsstring) (data : value) :
  nullish data = false ->
  no_configured_field configuredKey (get data (js "fields")) = true ->
  no_ac_label toLowerCase (js_or (get data (js "names")) (VObj [])) = true ->
  (let desc := get (get data (js "fields")) (js "description") in
   truthy desc = false \/
   (exists s, desc = VStr s /\ JSON_parse s = None) \/
   (exists nodes texts,
       typeof_object desc = true /\
       is_str (get desc (js "type")) (js "doc") = true /\
       get desc (js "content") = VArr nodes /\
       map_outcome (rendered_text Number_toString) nodes = Returns texts /\
       forallb (fun t => negb (is_ac_heading t)) texts = true)) ->
  (let rendered := get (get data (js "renderedFields")) (js "description") in
   truthy rendered = false \/
   (exists h, rendered = VStr h /\
              extractSectionByHeading h (test true acceptanceCriteriaRegex)
              = None)) ->
  exists d,
    story configuredKey key data
    = Returns {| story_key := key;
                 story_title :=
                   nullish_or (get (get data (js "fields")) (js "summary"))
                     (VStr key);
                 story_description := VStr d;
                 story_acceptanceCriteria := VStr [] |}.
Proof.
  cbv zeta. intros Hdata Hkey Hnames Hdesc Hrendered.
  unfold getStory, get_strict. rewrite Hdata. cbn [bind].
  rewrite (configured_ac_absent _ _ Hkey). cbn [bind].
  rewrite (discovered_ac_no_label _ _ Hnames). cbn [bind].
  destruct (from_description_no_boundary _ Hdesc) as (d3 & a3 & -> & Hd3 & Ha3).
  cbn [bind fst snd].
  destruct (from_rendered_no_section _ d3 a3 Hrendered Hd3) as (d4 & -> & Hd4).
  cbn [bind fst snd].
  assert (negb (truthy (get (get data (js "renderedFields"))
                          (js "description")))
          || typeof_string (get (get data (js "renderedFields"))
                              (js "description")) = true) as Hr.
  { destruct Hrendered as [->|(h & -> & _)]; [reflexivity|].
    apply orb_true_r. }
  destruct (finalize_description_returns _ (get data (js "fields")) d4 Hr)
    as [d5 Hd5].
  rewrite Hd5. cbn [bind].
  pose proof (js_or_text _ (finalize_description_text _ _ _ _ Hd5 Hd4)) as Ht.
  destruct (js_or d5 (VStr [])) as [| | | |d| |]; try discriminate.
  exists d. unfold js_or at 1. now rewrite Ha3.
Qed.

End Story.


Lemma discover_ac_inherited_method_witness :
  discover_ac Samples.number_text Samples.no_stringify Samples.same_case
    Samples.object_methods
    (VObj [(js "constructor", VStr (js "acceptance criteria"));
           (js "customfield_1", VStr (js "acceptance criteria"))])
    (VObj [(js "customfield_1", VStr (js "real"))])
    [js "constructor"; js "customfield_1"] VUndefined
  = Returns (VStr []).
Proof.
  apply (discover_ac_inherited_method Samples.number_text Samples.no_stringify
           Samples.same_case Samples.object_methods _ _ _ _ _
           (js "acceptance criteria"));
    vm_compute; reflexivity.
Defined.

Lemma getStory_no_source_defaults_witness :
  exists d,
    getStory Samples.number_text Samples.text_number Samples.no_parse
      Samples.no_stringify Samples.same_case Samples.object_methods None
      (js "PRJ-5") Samples.plain_issue
    = Returns {| story_key := js "PRJ-5";
                 story_title := VStr (js "A story");
                 story_description := VStr d;
                 story_acceptanceCriteria := VStr [] |}.
Proof.
  apply (getStory_no_source_defaults Samples.number_text Samples.text_number
           Samples.no_parse Samples.no_stringify Samples.same_case
           Samples.object_methods None (js "PRJ-5") Samples.plain_issue).
  - vm_compute. reflexivity.
  - vm_compute. reflexivity.
  - vm_compute. reflexivity.
  - right. right. exists [Samples.paragraph "Only text"], [js "Only text"].
    repeat split; vm_compute; reflexivity.
  - right. exists (js "<p>Only text</p>").
    split; vm_compute; reflexivity.
Defined.

(** * Further properties *)

(** ** The output of [htmlToPlain] *)

(** X1. The output of [htmlToPlain] holds no carriage return, no blank
    right before a newline and no three newlines in a row, and it neither
    begins nor ends with white space. *)
Theorem htmlToPlain_normal_form (s : jsstring) :
  forallb (fun c => negb (c =? CR)%N) (htmlToPlain s) = true /\
  has_pair blank (N.eqb LF) (htmlToPlain s) = false /\
  has_run (N.eqb LF) 3 (htmlToPlain s) = false /\
  trim (htmlToPlain s) = htmlToPlain s.
Proof.
  destruct s as [|c s]; [now repeat split|].
  destruct (htmlToPlain_cleaned (c :: s)) as [x ->]; [discriminate|].
  apply cleaned_spec.
Qed.

Lemma plain_text_split (t : jsstring) :
  plain_text t = true ->
  forallb (fun c => negb (c =? 60)%N) t = true /\
  forallb (fun c => negb (c =? 38)%N) t = true.
Proof.
  unfold plain_text. intros H. rewrite forallb_forall in H.
  split; apply forallb_forall; intros c Hc; specialize (H c Hc);
    apply andb_true_iff in H; tauto.
Qed.

(** X2. [decodeHtmlEntities] returns a text without [&] unchanged. *)
Theorem decodeHtmlEntities_without_ampersand (s : jsstring) :
  forallb (fun c => negb (c =? 38)%N) s = true ->
  decodeHtmlEntities s = s.
Proof.
  intros H. unfold decodeHtmlEntities, replace_all.
  repeat (rewrite (replace_with_absent_symbol _ _ _ 38%N s)
            by (reflexivity || assumption)).
  reflexivity.
Qed.

Lemma decodeHtmlEntities_without_ampersand_witness :
  decodeHtmlEntities (js "1 < 2; see #39") = js "1 < 2; see #39".
Proof.
  apply (decodeHtmlEntities_without_ampersand (js "1 < 2; see #39")).
  vm_compute. reflexivity.
Defined.

Lemma replace_with_not_longer (ic : bool) (r : regex)
    (f : jsstring -> list jsstring -> jsstring) (c : jschar) (s : jsstring) :
  first_chr r = Some c ->
  (forall m caps, length (f m caps) <= 1) ->
  length (replace_with ic r f s) <= length s.
Proof.
  intros Hr Hf. unfold replace_with, scan.
  generalize (scan_from_scanned ic (length s) r s).
  generalize (scan_from ic r (length s) s 0). generalize (length s) at 1.
  intros n ps Hps.
  induction Hps as [E|caps rest E|x t ps E Hs IH|x t caps ps E Hs IH
                    |m rest caps ps Hm E Hs IH].
  - apply Nat.le_refl.
  - destruct (match_here_first_chr _ _ _ _ _ _ _ Hr E) as (y & m & Hy & _).
    discriminate.
  - cbn [flat_map app length]. lia.
  - exfalso. exact (match_here_nonempty _ _ r c Hr _ _ E).
  - cbn [flat_map]. rewrite !length_app. specialize (Hf m caps).
    destruct m; [congruence|]. cbn [length]. lia.
Qed.

Lemma fromCharCode_one (x : option Z) : length (fromCharCode x) = 1.
Proof.
  unfold fromCharCode. destruct x as [z|]; [|reflexivity].
  now destruct (round_to_double (Z.abs_N z)).
Qed.

(** X3. [decodeHtmlEntities] never lengthens a text: each entity it
    decodes gives one character. *)
Theorem decodeHtmlEntities_not_longer (s : jsstring) :
  length (decodeHtmlEntities s) <= length s.
Proof.
  unfold decodeHtmlEntities, replace_all. cbv zeta.
  repeat (etransitivity;
          [apply (replace_with_not_longer _ _ _ 38%N);
           [reflexivity
           |intros m caps;
            first [rewrite fromCharCode_one; lia|vm_compute; lia]]|]).
  apply Nat.le_refl.
Qed.

(** X4. On a text without [<] and [&], [htmlToPlain] only cleans the white
    space: carriage returns dropped, blanks before a newline dropped, runs of
    newlines cut to two, and the whole trimmed. *)
Theorem htmlToPlain_of_plain_text (s : jsstring) :
  plain_text s = true -> htmlToPlain s = cleaned s.
Proof.
  intros Hplain. destruct (plain_text_split s Hplain) as [Hlt Hamp].
  destruct s as [|c s]; [reflexivity|].
  unfold htmlToPlain, cleaned, stripCR, blanksBeforeNewline, newlineRun.
  cbv beta iota zeta delta [is_empty].
  unfold replace_all.
  repeat (rewrite (replace_with_absent_symbol _ _ _ 60%N (c :: s))
            by (reflexivity || assumption)).
  unfold decodeHtmlEntities, replace_all.
  repeat (rewrite (replace_with_absent_symbol _ _ _ 38%N (c :: s))
            by (reflexivity || assumption)).
  reflexivity.
Qed.

Lemma htmlToPlain_of_plain_text_witness :
  htmlToPlain (js "two  words") = cleaned (js "two  words").
Proof.
  apply (htmlToPlain_of_plain_text (js "two  words")).
  vm_compute. reflexivity.
Defined.

(** ** Sections and headings *)

Lemma hits_at_keeps (pos : nat) (s : jsstring) : hits_at pos (map Keep s) = [].
Proof.
  revert pos. induction s as [|c s IH]; intros pos; simpl; [reflexivity|].
  apply IH.
Qed.

(** X5. A document without [<] has no heading: [extractSectionByHeading]
    finds nothing in it, whatever the pattern. *)
Theorem extractSectionByHeading_without_tags (html : jsstring)
    (contains : jsstring -> bool) :
  forallb (fun c => negb (c =? 60)%N) html = true ->
  extractSectionByHeading html contains = None.
Proof.
  intros H. unfold extractSectionByHeading.
  destruct (is_empty html); [reflexivity|]. cbv zeta.
  assert (headings_of html = []) as ->; [|reflexivity].
  unfold headings_of, exec_all, scan.
  rewrite scan_from_no_match; [now rewrite hits_at_keeps|].
  apply (match_here_absent_chr true headingRegex (length html) 60%N html
           headingRegex_first).
  rewrite forallb_forall in *. intros x Hx. specialize (H x Hx).
  destruct (chr_matches true 60 x) eqn:E; [|reflexivity].
  apply chr_matches_symbol in E; [|reflexivity]. subst x. discriminate.
Qed.

Lemma extractSectionByHeading_without_tags_witness :
  extractSectionByHeading (js "Acceptance Criteria: none")
    (test true acceptanceCriteriaRegex) = None.
Proof.
  apply extractSectionByHeading_without_tags. vm_compute. reflexivity.
Defined.

(** X6. The section and the remainder that [extractSectionByHeading] returns
    are together shorter than the document: what is missing is the matched
    heading, and nothing is added. *)
Theorem extractSectionByHeading_shorter (html : jsstring)
    (contains : jsstring -> bool) (sec : section) :
  extractSectionByHeading html contains = Some sec ->
  length (sectionHtml sec) + length (withoutSectionHtml sec) < length html.
Proof.
  intros H.
  assert (exists idx, find_index (fun h => contains (h_text h)) (headings_of html)
                      = Some idx) as [idx Hfind].
  { unfold extractSectionByHeading in H.
    destruct (is_empty html); [discriminate|]. cbv zeta in H.
    destruct (find_index _ (headings_of html)) as [idx|]; [|discriminate].
    now exists idx. }
  destruct (find_index_Some _ _ _ Hfind) as (h & Hh & _).
  rewrite (extractSectionByHeading_found html contains idx h Hh Hfind) in H.
  injection H as <-. simpl.
  destruct (heading_bounds html idx h Hh) as (H1 & H2 & H3 & _).
  pose proof (split_at_three html (h_start h) (h_end h) (section_end html idx)
                (Nat.lt_le_incl _ _ H1) H2) as Hsplit.
  apply (f_equal (@length _)) in Hsplit. rewrite !length_app in Hsplit.
  rewrite length_app.
  assert (0 < length (slice html (h_start h) (h_end h))).
  { unfold slice. rewrite length_firstn, length_skipn. lia. }
  lia.
Qed.

Lemma extractSectionByHeading_shorter_witness :
  length (js "<p>AC text</p>") + length (js "<h2>Other</h2><p>ignored</p>")
  < length (js "<h2>Acceptance Criteria</h2><p>AC text</p><h2>Other</h2><p>ignored</p>").
Proof.
  apply (extractSectionByHeading_shorter
           (js "<h2>Acceptance Criteria</h2><p>AC text</p><h2>Other</h2><p>ignored</p>")
           (test true acceptanceCriteriaRegex)
           {| sectionHtml := js "<p>AC text</p>";
              withoutSectionHtml := js "<h2>Other</h2><p>ignored</p>" |}).
  vm_compute. reflexivity.
Defined.

(** ** Documents that are not as documented *)

Section AdfEdges.
Variable Number_toString : spec_float -> jsstring.
Variable StringToNumber : jsstring -> spec_float.

Local Abbreviation extract := (extractTextFromNode Number_toString).
Local Abbreviation loop := (adf_loop Number_toString).
Local Abbreviation to_plain := (adfToPlain Number_toString StringToNumber).

Lemma array_map_not_array (f : value -> outcome value) (content : value) :
  isArray content = false -> array_map f content = Throws TypeError.
Proof. now destruct content. Qed.

(** X7. A paragraph, list or list item whose [content] is truthy and not an
    array makes [extractTextFromNode] throw a TypeError: only the last
    branch, for the other node types, checks that the content is an array,
    and it returns the empty text for such a node. *)
Theorem extractTextFromNode_content_not_array (node : value) :
  truthy node = true ->
  is_str (get node (js "type")) (js "text") = false ->
  truthy (get node (js "content")) = true ->
  isArray (get node (js "content")) = false ->
  extract node
  = if container_type (get node (js "type")) then Throws TypeError
    else Returns (VStr []).
Proof.
  intros Ht Htext Hc Harr. rewrite extractTextFromNode_eq.
  unfold extractTextFromNode_body, js_or, container_type.
  rewrite Ht, Htext, Hc, Harr. cbn [negb andb].
  rewrite (array_map_not_array _ _ Harr).
  destruct (is_str (get node (js "type")) (js "paragraph")); [reflexivity|].
  destruct (is_str (get node (js "type")) (js "bulletList")); [reflexivity|].
  destruct (is_str (get node (js "type")) (js "orderedList")); [reflexivity|].
  destruct (is_str (get node (js "type")) (js "listItem")); reflexivity.
Qed.

Lemma adf_loop_documented_prefix (pre : list value) :
  forall rest beforeAC acContent found,
    forallb documented_node pre = true ->
    exists beforeAC' acContent' found',
      loop (pre ++ rest) beforeAC acContent found
      = loop rest beforeAC' acContent' found'.
Proof.
  induction pre as [|node pre IH]; intros rest b a f H.
  - now exists b, a, f.
  - simpl in H. apply andb_true_iff in H. destruct H as [Hn Hpre].
    destruct (documented_node_renders Number_toString node Hn) as [s Hs].
    cbn [app adf_loop]. rewrite Hs. cbn [bind call_trim].
    destruct (negb f && test true acHeadingRegex (trim s)).
    { apply IH, Hpre. }
    destruct f; apply IH, Hpre.
Qed.

(** X8. [adfToPlain] throws a TypeError at the first top-level node that
    [extractTextFromNode] renders to something other than a string (a text
    node whose [text] is a number, say), when the nodes before it are
    documented ones: the rendering is trimmed without a check. *)
Theorem adfToPlain_rendering_not_text (doc : value)
    (pre post : list value) (node rendered : value) :
  truthy doc = true -> typeof_object doc = true ->
  get doc (js "content") = VArr (pre ++ node :: post) ->
  forallb documented_node pre = true ->
  extract node = Returns rendered ->
  typeof_string rendered = false ->
  to_plain doc = Throws TypeError.
Proof.
  intros Ht Ho Hc Hpre Hr Hs. unfold adfToPlain, js_or.
  rewrite Ht, Ho, Hc. cbn [negb orb truthy index_loop bind fst snd].
  destruct (adf_loop_documented_prefix pre (node :: post) [] [] false Hpre)
    as (b & a & f & ->).
  cbn [adf_loop]. rewrite Hr. cbn [bind].
  destruct rendered; try discriminate; reflexivity.
Qed.

Lemma adf_loop_falsy (nodes : list value) :
  forall beforeAC acContent found,
    forallb (fun v => negb (truthy v)) nodes = true ->
    loop nodes beforeAC acContent found = Returns (beforeAC, acContent).
Proof.
  induction nodes as [|node nodes IH]; intros b a f H; [reflexivity|].
  simpl in H. apply andb_true_iff in H. destruct H as [Hn Hrest].
  apply negb_true_iff in Hn.
  cbn [adf_loop]. rewrite extractTextFromNode_eq.
  unfold extractTextFromNode_body. rewrite Hn. cbn [negb bind call_trim].
  change (test true acHeadingRegex (trim [])) with false.
  rewrite andb_false_r. change (push_text b (trim [])) with b.
  change (push_text a (trim [])) with a.
  destruct f; apply IH, Hrest.
Qed.

(** X9. When [content] is an object whose [length] is a number beyond 2^53
    and which has no truthy element at any index, the loop of [adfToPlain]
    never ends: the counter stops growing at 2^53. *)
Theorem adfToPlain_unbounded_length (doc : value)
    (props : list (jsstring * value)) (x : spec_float) :
  truthy doc = true -> typeof_object doc = true ->
  get doc (js "content") = VObj props ->
  get (VObj props) (js "length") = VNum x ->
  iterations x = None ->
  (forall i, truthy (get (VObj props) (index_key i)) = false) ->
  to_plain doc = Loops.
Proof.
  intros Ht Ho Hc Hlen Hx Hfalsy. unfold adfToPlain, js_or.
  rewrite Ht, Ho, Hc. cbn [negb orb truthy index_loop].
  rewrite Hlen. cbn [ToNumber bind]. rewrite Hx. cbn [bind fst snd].
  rewrite adf_loop_falsy; [reflexivity|].
  apply forallb_forall. intros v Hv. apply in_map_iff in Hv.
  destruct Hv as (i & <- & _). now rewrite Hfalsy.
Qed.

(** X10. Both texts that [adfToPlain] returns are trimmed. *)
Theorem adfToPlain_trimmed (doc : value) (parts : AdfText) :
  to_plain doc = Returns parts ->
  trim (description parts) = description parts /\
  trim (acceptanceCriteria parts) = acceptanceCriteria parts.
Proof.
  unfold adfToPlain.
  destruct (negb (truthy doc) || negb (typeof_object doc)).
  { intros [= <-]. now split. }
  destruct (index_loop _ _ _) as [visited| |]; try discriminate.
  cbn [bind].
  destruct (adf_loop _ _ _ _ _) as [collected| |]; try discriminate.
  cbn [bind]. destruct (snd visited); [discriminate|].
  intros [= <-]. cbn [description acceptanceCriteria].
  now rewrite !trim_idem.
Qed.

(** C2. On nodes that are not of the documented shapes the extractors
    raise an error: [extractTextFromNode] throws a TypeError on a paragraph
    whose content is a text, and [adfToPlain] on a document that holds such
    a paragraph or a text node whose text is a number.  The branch for the
    other node types has the check that these lack: a panel with the same
    content renders as the empty text. *)
Theorem extractors_throw_on_malformed_nodes :
  extract Samples.text_content_paragraph = Throws TypeError /\
  to_plain Samples.text_content_doc = Throws TypeError /\
  to_plain Samples.numeric_text_doc = Throws TypeError /\
  extract Samples.text_content_panel = Returns (VStr []).
Proof. repeat split; vm_compute; reflexivity. Qed.

End AdfEdges.

Lemma extractTextFromNode_content_not_array_witness :
  extractTextFromNode Samples.number_text
    (VObj [(js "type", VStr (js "paragraph")); (js "content", VStr (js "abc"))])
  = Throws TypeError.
Proof.
  apply (extractTextFromNode_content_not_array Samples.number_text
           (VObj [(js "type", VStr (js "paragraph"));
                  (js "content", VStr (js "abc"))]));
    vm_compute; reflexivity.
Defined.

Lemma adfToPlain_rendering_not_text_witness :
  adfToPlain Samples.number_text Samples.text_number
    (VObj [(js "type", VStr (js "doc"));
           (js "content",
            VArr [Samples.paragraph "Intro";
                  VObj [(js "type", VStr (js "text"));
                        (js "text", VNum (S754_finite false 5 0))];
                  Samples.paragraph "Rest"])])
  = Throws TypeError.
Proof.
  apply (adfToPlain_rendering_not_text Samples.number_text Samples.text_number
           _ [Samples.paragraph "Intro"] [Samples.paragraph "Rest"]
           (VObj [(js "type", VStr (js "text"));
                  (js "text", VNum (S754_finite false 5 0))])
           (VNum (S754_finite false 5 0)));
    vm_compute; reflexivity.
Defined.

Lemma adfToPlain_unbounded_length_witness :
  adfToPlain Samples.number_text Samples.text_number
    (VObj [(js "type", VStr (js "doc"));
           (js "content", VObj [(js "length", VNum (S754_infinity false))])])
  = Loops.
Proof.
  apply (adfToPlain_unbounded_length Samples.number_text Samples.text_number
           _ [(js "length", VNum (S754_infinity false))]
           (S754_infinity false)); try (vm_compute; reflexivity).
  intros i. unfold get. cbn [own_props assoc].
  destruct (str_eqb (js "length") (index_key i)) eqn:E; [|reflexivity].
  apply str_eqb_eq in E. pose proof (index_key_digits i) as H.
  rewrite <- E in H. vm_compute in H. discriminate.
Defined.

Lemma adfToPlain_trimmed_witness :
  trim (js "Desc line") = js "Desc line" /\
  trim (js "- item one" ++ [LF] ++ js "- item two")
  = js "- item one" ++ [LF] ++ js "- item two".
Proof.
  apply (adfToPlain_trimmed Samples.number_text Samples.text_number
           Samples.story_doc
           {| description := js "Desc line";
              acceptanceCriteria :=
                js "- item one" ++ [LF] ++ js "- item two" |}).
  vm_compute. reflexivity.
Defined.

(** ** Which source [getStory] takes its texts from *)

Section StoryEdges.
Variable Number_toString : spec_float -> jsstring.
Variable StringToNumber : jsstring -> spec_float.
Variable JSON_parse : jsstring -> option value.
Variable JSON_stringify : value -> jsstring.
Variable toLowerCase : jsstring -> jsstring.
Variable inherited_method : value -> jsstring -> bool.

Local Abbreviation to_plain := (adfToPlain Number_toString StringToNumber).
Local Abbreviation story :=
  (getStory Number_toString StringToNumber JSON_parse JSON_stringify
     toLowerCase inherited_method).

Lemma has_own_not_nullish (v : value) (k : jsstring) :
  has_own v k = true -> nullish v = false.
Proof. now destruct v. Qed.

Lemma truthy_text (s : jsstring) : s <> [] -> truthy (VStr s) = true.
Proof. now destruct s. Qed.

Lemma configured_ac_found (k : jsstring) (fields : value) (v : jsstring) :
  k <> [] ->
  has_own fields (js "hasOwnProperty") = false ->
  has_own fields k = true ->
  get fields k = VStr v ->
  configured_ac JSON_stringify (Some k) fields VUndefined
  = Returns (VStr (htmlToPlain v)).
Proof.
  intros Hk Hmethod Hown Hv. unfold configured_ac, call_hasOwnProperty.
  rewrite (has_own_not_nullish _ _ Hown), Hmethod, Hown, Hv.
  destruct k; [congruence|]. cbn [is_empty orb bind].
  unfold plain_of_field. cbn [typeof_string].
  apply htmlToPlain_value_str.
Qed.

(** X11. When the configured field is an own property of the issue fields
    and holds a text whose plain form is not empty, that plain form is the
    acceptance criteria, and the description is the plain form of the whole
    rendered description: the field names, the description document and the
    headings of the rendered description are not looked at. *)
Theorem getStory_configured_field (k key : jsstring) (data : value)
    (v r : jsstring) :
  nullish data = false ->
  k <> [] ->
  has_own (get data (js "fields")) (js "hasOwnProperty") = false ->
  has_own (get data (js "fields")) k = true ->
  get (get data (js "fields")) k = VStr v ->
  htmlToPlain v <> [] ->
  get (get data (js "renderedFields")) (js "description") = VStr r ->
  r <> [] ->
  story (Some k) key data
  = Returns {| story_key := key;
               story_title :=
                 nullish_or (get (get data (js "fields")) (js "summary"))
                   (VStr key);
               story_description := VStr (htmlToPlain r);
               story_acceptanceCriteria := VStr (htmlToPlain v) |}.
Proof.
  intros Hdata Hk Hmethod Hown Hv Hplain Hr Hne.
  pose proof (truthy_text _ Hplain) as Hac.
  pose proof (truthy_text _ Hne) as Hrt.
  unfold getStory, get_strict. rewrite Hdata. cbn [bind].
  rewrite (configured_ac_found k _ v Hk Hmethod Hown Hv). cbn [bind].
  unfold discovered_ac. rewrite Hac. cbn [negb bind].
  unfold from_description. rewrite Hac. cbn [negb andb bind fst snd].
  unfold from_rendered. rewrite Hac. cbn [negb andb bind fst snd].
  unfold finalize_description. rewrite Hr, Hrt. cbn [truthy negb].
  rewrite htmlToPlain_value_str. cbn [bind]. unfold js_or. rewrite Hac.
  now destruct (htmlToPlain r).
Qed.

(** X12. When the configured field gives the acceptance criteria and there
    is no rendered description, a description that is a text is returned
    trimmed, without being parsed or cleaned of markup. *)
Theorem getStory_raw_description_trimmed (k key : jsstring) (data : value)
    (v s : jsstring) :
  nullish data = false ->
  k <> [] ->
  has_own (get data (js "fields")) (js "hasOwnProperty") = false ->
  has_own (get data (js "fields")) k = true ->
  get (get data (js "fields")) k = VStr v ->
  htmlToPlain v <> [] ->
  truthy (get (get data (js "renderedFields")) (js "description")) = false ->
  get (get data (js "fields")) (js "description") = VStr s ->
  story (Some k) key data
  = Returns {| story_key := key;
               story_title :=
                 nullish_or (get (get data (js "fields")) (js "summary"))
                   (VStr key);
               story_description := VStr (trim s);
               story_acceptanceCriteria := VStr (htmlToPlain v) |}.
Proof.
  intros Hdata Hk Hmethod Hown Hv Hplain Hr Hs.
  pose proof (truthy_text _ Hplain) as Hac.
  unfold getStory, get_strict. rewrite Hdata. cbn [bind].
  rewrite (configured_ac_found k _ v Hk Hmethod Hown Hv). cbn [bind].
  unfold discovered_ac. rewrite Hac. cbn [negb bind].
  unfold from_description. rewrite Hac. cbn [negb andb bind fst snd].
  unfold from_rendered. rewrite Hac. cbn [negb andb bind fst snd].
  unfold finalize_description. rewrite Hr, Hs.
  cbn [truthy negb typeof_string call_trim bind]. unfold js_or. rewrite Hac.
  now destruct (trim s).
Qed.

(** X13. Without a field for the acceptance criteria and without rendered
    description, a description that is a non-empty text which [JSON.parse]
    rejects is returned as it is, not even trimmed, and the acceptance
    criteria are empty. *)
Theorem getStory_unparsed_description (key : jsstring) (data : value)
    (s : jsstring) :
  nullish data = false ->
  own_props (js_or (get data (js "names")) (VObj [])) = [] ->
  get (get data (js "fields")) (js "description") = VStr s ->
  s <> [] ->
  JSON_parse s = None ->
  truthy (get (get data (js "renderedFields")) (js "description")) = false ->
  story None key data
  = Returns {| story_key := key;
               story_title :=
                 nullish_or (get (get data (js "fields")) (js "summary"))
                   (VStr key);
               story_description := VStr s;
               story_acceptanceCriteria := VStr [] |}.
Proof.
  intros Hdata Hnames Hs Hne Hparse Hr.
  pose proof (truthy_text _ Hne) as Hst.
  unfold getStory, get_strict. rewrite Hdata. cbn [bind configured_ac].
  unfold discovered_ac. cbn [truthy negb]. rewrite Hnames.
  cbn [map discover_ac bind].
  unfold from_description. rewrite Hs, Hst.
  cbn [truthy negb andb typeof_object].
  unfold parse_description. rewrite Hparse. cbn [try_catch bind fst snd].
  unfold from_rendered. rewrite Hr, andb_false_r. cbn [bind fst snd].
  unfold finalize_description. rewrite Hst. cbn [negb bind].
  unfold js_or. now rewrite Hst.
Qed.

(** *** [getStory] always comes to an end *)

Lemma htmlToPlain_value_no_loop (v : value) : htmlToPlain_value v <> Loops.
Proof.
  unfold htmlToPlain_value. destruct (negb (truthy v)); [discriminate|].
  destruct v; discriminate.
Qed.

Lemma plain_of_field_no_loop (v : value) :
  plain_of_field JSON_stringify v <> Loops.
Proof.
  unfold plain_of_field.
  destruct (typeof_string v); apply htmlToPlain_value_no_loop.
Qed.

Lemma configured_ac_no_loop (configuredKey : option jsstring)
    (fields acPlain : value) :
  configured_ac JSON_stringify configuredKey fields acPlain <> Loops.
Proof.
  unfold configured_ac, call_hasOwnProperty.
  destruct configuredKey as [k|]; [|discriminate].
  destruct (is_empty k || nullish fields); [discriminate|].
  destruct (has_own fields (js "hasOwnProperty")); [discriminate|].
  cbn [bind]. destruct (has_own fields k); [|discriminate].
  apply plain_of_field_no_loop.
Qed.

Lemma discover_ac_no_loop (names fields : value) (fieldIds : list jsstring)
    (acPlain : value) :
  discover_ac Number_toString JSON_stringify toLowerCase inherited_method
    names fields fieldIds
    acPlain <> Loops.
Proof.
  induction fieldIds as [|fieldId rest IH]; [discriminate|].
  cbn [discover_ac]. apply bind_no_loop; [apply ToString_no_loop|].
  intros text. cbv zeta.
  destruct (includes _ _ && includes _ _); [|exact IH].
  destruct (negb (member_nullish _)); [|exact IH].
  destruct (get_member inherited_method fields fieldId);
    cbn [plain_of_member];
    [apply plain_of_field_no_loop|apply htmlToPlain_value_no_loop..].
Qed.

Lemma adfToPlain_guarded_no_loop {A : Type} (doc : value) (type : value)
    (k : AdfText -> outcome A) (other : outcome A) :
  (forall parts, k parts <> Loops) -> other <> Loops ->
  (if is_str type (js "doc") && isArray (get doc (js "content"))
   then parts <- to_plain doc ;; k parts
   else other) <> Loops.
Proof.
  intros Hk Hother.
  destruct (is_str type (js "doc")); [|exact Hother].
  destruct (isArray (get doc (js "content"))) eqn:E; [|exact Hother].
  cbn [andb]. apply bind_no_loop; [|exact Hk].
  now apply adfToPlain_array_no_loop.
Qed.

Lemma parse_description_no_loop (desc : jsstring) (acPlain : value) :
  parse_description Number_toString StringToNumber JSON_parse desc acPlain
  <> Loops.
Proof.
  unfold parse_description.
  destruct (JSON_parse desc) as [parsed|]; [|discriminate].
  unfold get_strict. destruct (nullish parsed); [discriminate|]. cbn [bind].
  pose proof (adfToPlain_guarded_no_loop parsed (get parsed (js "type"))
                (fun parts => Returns (VStr (description parts),
                                       VStr (acceptanceCriteria parts)))
                (Returns (VStr desc, acPlain))) as H.
  destruct (if is_str (get parsed (js "type")) (js "doc")
               && isArray (get parsed (js "content"))
            then parts <- to_plain parsed ;;
                 Returns (VStr (description parts),
                          VStr (acceptanceCriteria parts))
            else Returns (VStr desc, acPlain)) eqn:E;
    cbn [try_catch]; try discriminate.
  exfalso. apply H; [discriminate|discriminate|reflexivity].
Qed.

Lemma from_description_no_loop (fields d a : value) :
  from_description Number_toString StringToNumber JSON_parse fields d a
  <> Loops.
Proof.
  unfold from_description.
  destruct (negb (truthy a) && truthy (get fields (js "description")));
    [|discriminate].
  cbv zeta. set (desc := get fields (js "description")).
  destruct (typeof_object desc).
  - cbn [andb]. apply adfToPlain_guarded_no_loop; [discriminate|].
    destruct desc; try discriminate. apply parse_description_no_loop.
  - cbn [andb]. destruct desc; try discriminate.
    apply parse_description_no_loop.
Qed.

Lemma extractSectionByHeading_value_no_loop (html : value)
    (contains : jsstring -> bool) :
  extractSectionByHeading_value Number_toString html contains <> Loops.
Proof.
  unfold extractSectionByHeading_value.
  destruct (negb (truthy html)); [discriminate|].
  destruct html as [| | | |s|items|props]; try discriminate.
  - apply bind_no_loop; [apply ToString_no_loop|]. intros text. cbv zeta.
    destruct (find_index _ _); discriminate.
  - apply bind_no_loop; [apply ToString_no_loop|]. intros text. cbv zeta.
    destruct (find_index _ _); discriminate.
  - apply bind_no_loop; [apply ToString_no_loop|]. intros text. cbv zeta.
    destruct (find_index _ _); [|discriminate].
    apply bind_no_loop; [apply ToString_no_loop|]. intros before.
    apply bind_no_loop; [apply ToString_no_loop|]. discriminate.
  - apply bind_no_loop; [apply ToString_no_loop|]. intros text. cbv zeta.
    destruct (find_index _ _); discriminate.
Qed.

Lemma from_rendered_no_loop (renderedDesc d a : value) :
  from_rendered Number_toString renderedDesc d a <> Loops.
Proof.
  unfold from_rendered.
  destruct (negb (truthy a) && truthy renderedDesc); [|discriminate].
  apply bind_no_loop; [apply extractSectionByHeading_value_no_loop|].
  intros picked. cbv zeta.
  assert ((if negb (truthy d)
           then x <- htmlToPlain_value renderedDesc ;; Returns (x, a)
           else Returns (d, a)) <> Loops) as Hother.
  { destruct (negb (truthy d)); [|discriminate].
    apply bind_no_loop; [apply htmlToPlain_value_no_loop|discriminate]. }
  destruct picked as [[sectionHtml withoutSectionHtml]|]; [|exact Hother].
  destruct (truthy sectionHtml); [|exact Hother].
  apply bind_no_loop; [apply htmlToPlain_value_no_loop|]. intros ac.
  apply bind_no_loop; [apply htmlToPlain_value_no_loop|]. discriminate.
Qed.

Lemma finalize_description_no_loop (renderedDesc fields d : value) :
  finalize_description JSON_stringify renderedDesc fields d <> Loops.
Proof.
  unfold finalize_description.
  destruct (negb (truthy d)); [|discriminate].
  destruct (truthy renderedDesc); [apply htmlToPlain_value_no_loop|].
  destruct (typeof_string (get fields (js "description"))).
  { destruct (get fields (js "description")); discriminate. }
  destruct (truthy (get fields (js "description"))); [|discriminate].
  apply htmlToPlain_value_no_loop.
Qed.

(** X14. [getStory] comes to an end on every response, returning or
    throwing: the loop of [adfToPlain], which an object with an endless
    [length] for [content] keeps running, is only entered with an array. *)
Theorem getStory_ends (configuredKey : option jsstring) (key : jsstring)
    (data : value) :
  story configuredKey key data <> Loops.
Proof.
  unfold getStory, get_strict.
  destruct (nullish data); [discriminate|]. cbn [bind].
  apply bind_no_loop; [apply configured_ac_no_loop|]. intros ac1.
  apply bind_no_loop.
  { unfold discovered_ac. destruct (negb (truthy ac1)); [|discriminate].
    apply discover_ac_no_loop. }
  intros ac2.
  apply bind_no_loop; [apply from_description_no_loop|]. intros p3.
  apply bind_no_loop; [apply from_rendered_no_loop|]. intros p4.
  apply bind_no_loop; [apply finalize_description_no_loop|]. discriminate.
Qed.

(** *** A description that [adfToPlain] throws on *)

Lemma getStory_stored_document_caught (key : jsstring) (data : value)
    (s : jsstring) (doc : value) (e : exn) :
  nullish data = false ->
  own_props (js_or (get data (js "names")) (VObj [])) = [] ->
  get (get data (js "fields")) (js "description") = VStr s ->
  s <> [] ->
  JSON_parse s = Some doc ->
  nullish doc = false ->
  is_str (get doc (js "type")) (js "doc") && isArray (get doc (js "content"))
  = true ->
  to_plain doc = Throws e ->
  truthy (get (get data (js "renderedFields")) (js "description")) = false ->
  story None key data
  = Returns {| story_key := key;
               story_title :=
                 nullish_or (get (get data (js "fields")) (js "summary"))
                   (VStr key);
               story_description := VStr s;
               story_acceptanceCriteria := VStr [] |}.
Proof.
  intros Hdata Hnames Hs Hne Hparse Hdoc Hshape Hthrow Hr.
  pose proof (truthy_text _ Hne) as Hst.
  unfold getStory, get_strict. rewrite Hdata. cbn [bind configured_ac].
  unfold discovered_ac. cbn [truthy negb]. rewrite Hnames.
  cbn [map discover_ac bind].
  unfold from_description. rewrite Hs, Hst.
  cbn [truthy negb andb typeof_object].
  unfold parse_description, get_strict. rewrite Hparse, Hdoc. cbn [bind].
  rewrite Hshape, Hthrow. cbn [try_catch bind fst snd].
  unfold from_rendered. rewrite Hr, andb_false_r. cbn [bind fst snd].
  unfold finalize_description. rewrite Hst. cbn [negb bind].
  unfold js_or. now rewrite Hst.
Qed.

(** C9. On an issue whose description is a document holding a paragraph
    with a text for content, and which has no other source for the
    acceptance criteria, [getStory] returns no texts: it throws the
    TypeError of [adfToPlain].  The sibling branch does return: when the
    description is a text that [JSON.parse] reads as that same document,
    the error is caught and the text is the description. *)
Theorem getStory_throws_on_malformed_document (key : jsstring) :
  story None key Samples.text_content_issue = Throws TypeError /\
  (JSON_parse Samples.text_content_json = Some Samples.text_content_doc ->
   story None key Samples.stored_text_content_issue
   = Returns {| story_key := key;
                story_title := VStr (js "A story");
                story_description := VStr Samples.text_content_json;
                story_acceptanceCriteria := VStr [] |}).
Proof.
  split; [vm_compute; reflexivity|]. intros Hparse.
  apply (getStory_stored_document_caught key Samples.stored_text_content_issue
           Samples.text_content_json Samples.text_content_doc TypeError);
    try (vm_compute; reflexivity); [discriminate|exact Hparse].
Qed.

End StoryEdges.

Lemma getStory_throws_on_malformed_document_witness :
  getStory Samples.number_text Samples.text_number Samples.parse_text_content
    Samples.no_stringify Samples.same_case Samples.object_methods None
    (js "PRJ-6") Samples.text_content_issue
  = Throws TypeError /\
  getStory Samples.number_text Samples.text_number Samples.parse_text_content
    Samples.no_stringify Samples.same_case Samples.object_methods None
    (js "PRJ-6") Samples.stored_text_content_issue
  = Returns {| story_key := js "PRJ-6";
               story_title := VStr (js "A story");
               story_description := VStr Samples.text_content_json;
               story_acceptanceCriteria := VStr [] |}.
Proof.
  destruct (getStory_throws_on_malformed_document Samples.number_text
              Samples.text_number Samples.parse_text_content
              Samples.no_stringify Samples.same_case Samples.object_methods
              (js "PRJ-6")) as [Hthrows Hcaught].
  split; [exact Hthrows|]. apply Hcaught. vm_compute. reflexivity.
Defined.

Lemma getStory_configured_field_witness :
  getStory Samples.number_text Samples.text_number Samples.no_parse
    Samples.no_stringify Samples.same_case Samples.object_methods (Some (js "customfield_1"))
    (js "PRJ-3")
    (VObj [(js "fields",
            VObj [(js "summary", VStr (js "A story"));
                  (js "customfield_1", VStr (js "<p>It works</p>"))]);
           (js "renderedFields",
            VObj [(js "description",
                   VStr (js "<p>Intro</p><h2>Acceptance Criteria</h2><p>x</p>"))])])
  = Returns
      {| story_key := js "PRJ-3";
         story_title := VStr (js "A story");
         story_description :=
           VStr (js "Intro" ++ [LF] ++ js "Acceptance Criteriax");
         story_acceptanceCriteria := VStr (js "It works") |}.
Proof.
  apply (getStory_configured_field Samples.number_text Samples.text_number
           Samples.no_parse Samples.no_stringify Samples.same_case Samples.object_methods
           (js "customfield_1") (js "PRJ-3")
           (VObj [(js "fields",
                   VObj [(js "summary", VStr (js "A story"));
                         (js "customfield_1", VStr (js "<p>It works</p>"))]);
                  (js "renderedFields",
                   VObj [(js "description",
                          VStr (js "<p>Intro</p><h2>Acceptance Criteria</h2><p>x</p>"))])])
           (js "<p>It works</p>")
           (js "<p>Intro</p><h2>Acceptance Criteria</h2><p>x</p>"));
    vm_compute; (reflexivity || discriminate).
Defined.

Lemma getStory_raw_description_trimmed_witness :
  getStory Samples.number_text Samples.text_number Samples.no_parse
    Samples.no_stringify Samples.same_case Samples.object_methods (Some (js "customfield_1"))
    (js "PRJ-3")
    (VObj [(js "fields",
            VObj [(js "customfield_1", VStr (js "<p>It works</p>"));
                  (js "description", VStr (js "  <b>Raw</b> text "))])])
  = Returns
      {| story_key := js "PRJ-3";
         story_title := VStr (js "PRJ-3");
         story_description := VStr (js "<b>Raw</b> text");
         story_acceptanceCriteria := VStr (js "It works") |}.
Proof.
  apply (getStory_raw_description_trimmed Samples.number_text
           Samples.text_number Samples.no_parse Samples.no_stringify
           Samples.same_case Samples.object_methods (js "customfield_1") (js "PRJ-3")
           (VObj [(js "fields",
                   VObj [(js "customfield_1", VStr (js "<p>It works</p>"));
                         (js "description", VStr (js "  <b>Raw</b> text "))])])
           (js "<p>It works</p>") (js "  <b>Raw</b> text "));
    vm_compute; (reflexivity || discriminate).
Defined.

Lemma getStory_unparsed_description_witness :
  getStory Samples.number_text Samples.text_number Samples.no_parse
    Samples.no_stringify Samples.same_case Samples.object_methods None (js "PRJ-4")
    (VObj [(js "fields",
            VObj [(js "description", VStr (js "  <b>Raw</b> text "))])])
  = Returns
      {| story_key := js "PRJ-4";
         story_title := VStr (js "PRJ-4");
         story_description := VStr (js "  <b>Raw</b> text ");
         story_acceptanceCriteria := VStr [] |}.
Proof.
  apply (getStory_unparsed_description Samples.number_text
           Samples.text_number Samples.no_parse Samples.no_stringify
           Samples.same_case Samples.object_methods (js "PRJ-4")
           (VObj [(js "fields",
                   VObj [(js "description", VStr (js "  <b>Raw</b> text "))])])
           (js "  <b>Raw</b> text "));
    vm_compute; (reflexivity || discriminate).
Defined.

(** ** Issue types, the search and the project key *)

Lemma str_eqb_refl (a : jsstring) : str_eqb a a = true.
Proof. unfold str_eqb. now destruct (list_eq_dec N.eq_dec a a). Qed.

Lemma set_from_In (names : list jsstring) :
  forall seen n,
    In n (set_from seen names) ->
    In n names /\ existsb (str_eqb n) seen = false.
Proof.
  induction names as [|x names IH]; intros seen n H; [contradiction|].
  cbn [set_from] in H. destruct (existsb (str_eqb x) seen) eqn:E.
  - destruct (IH _ _ H). split; [now right|assumption].
  - destruct H as [<-|H]; [split; [now left|assumption]|].
    destruct (IH _ _ H) as [Hin Hseen]. split; [now right|].
    cbn [existsb] in Hseen. now apply orb_false_iff in Hseen.
Qed.

Lemma set_from_NoDup (names : list jsstring) :
  forall seen, NoDup (set_from seen names).
Proof.
  induction names as [|x names IH]; intros seen; [constructor|].
  cbn [set_from]. destruct (existsb (str_eqb x) seen); [apply IH|].
  constructor; [|apply IH]. intros H. apply set_from_In in H.
  destruct H as [_ H]. cbn [existsb] in H. now rewrite str_eqb_refl in H.
Qed.

Lemma set_from_keeps (names : list jsstring) :
  forall seen n,
    In n names -> existsb (str_eqb n) seen = false ->
    In n (set_from seen names).
Proof.
  induction names as [|x names IH]; intros seen n H Hseen; [contradiction|].
  cbn [set_from]. destruct (list_eq_dec N.eq_dec x n) as [->|Hne].
  { rewrite Hseen. now left. }
  destruct H as [H|H]; [contradiction|].
  destruct (existsb (str_eqb x) seen); [now apply IH|].
  right. apply IH; [assumption|]. cbn [existsb]. rewrite Hseen, orb_false_r.
  destruct (str_eqb n x) eqn:E; [|reflexivity].
  apply str_eqb_eq in E. congruence.
Qed.

Lemma test_empty_story : test true storyRegex [] = false.
Proof. reflexivity. Qed.

Section IssueTypes.
Variable Number_toString : spec_float -> jsstring.

Local Abbreviation type_name := (issueTypeName Number_toString).
Local Abbreviation story_types := (getStoryTypeNames Number_toString).

Lemma issueTypeName_trimmed (t : value) (n : jsstring) :
  type_name t = Returns n -> trim n = n.
Proof.
  unfold issueTypeName. destruct (ToString _ _); try discriminate.
  intros [= <-]. apply trim_idem.
Qed.

Lemma map_outcome_In {A B : Type} (f : A -> outcome B) (l : list A) :
  forall ys,
    map_outcome f l = Returns ys ->
    (forall y, In y ys -> exists x, In x l /\ f x = Returns y) /\
    (forall x y, In x l -> f x = Returns y -> In y ys).
Proof.
  induction l as [|a l IH]; intros ys H.
  - injection H as <-. split; [contradiction|contradiction].
  - cbn [map_outcome] in H. destruct (f a) as [b| |] eqn:Ea; try discriminate.
    cbn [bind] in H.
    destruct (map_outcome f l) as [bs| |]; try discriminate.
    injection H as <-. destruct (IH bs eq_refl) as [IH1 IH2]. split.
    + intros y [<-|Hy]; [exists a; split; [now left|assumption]|].
      destruct (IH1 y Hy) as (x & Hx & Hfx). exists x. split; [now right|easy].
    + intros x y [<-|Hx] Hfx; [left; congruence|right; eauto].
Qed.

(** X15. The names that [getStoryTypeNames] returns are never none, are all
    different, and each of them contains "story" in some letter case, is
    trimmed and is not empty; this holds of the fallback as well. *)
Theorem getStoryTypeNames_storyish (all : value) (names : list jsstring) :
  story_types all = Returns names ->
  names <> [] /\ NoDup names /\
  Forall (fun n => test true storyRegex n = true /\ trim n = n /\ n <> [])
         names.
Proof.
  unfold getStoryTypeNames.
  destruct (js_or all (VArr [])) as [| | | | |types|]; try discriminate.
  destruct (map_outcome type_name types) as [raw| |] eqn:Hraw;
    try discriminate.
  cbn [bind]. cbv zeta. intros [= <-].
  set (kept := filter (fun n => negb (is_empty n)) raw).
  destruct (set_from [] (filter (test true storyRegex) kept))
    as [|n ns] eqn:Hset.
  { repeat split; [discriminate|repeat constructor; intros []|].
    repeat constructor; discriminate. }
  rewrite <- Hset. split; [rewrite Hset; discriminate|].
  split; [apply set_from_NoDup|].
  apply Forall_forall. intros x Hx. apply set_from_In in Hx.
  destruct Hx as [Hx _]. apply filter_In in Hx. destruct Hx as [Hx Htest].
  apply filter_In in Hx. destruct Hx as [Hx Hne].
  split; [exact Htest|]. split.
  - destruct (map_outcome_In _ _ _ Hraw) as [H _].
    destruct (H x Hx) as (t & _ & Ht). exact (issueTypeName_trimmed _ _ Ht).
  - intros ->. discriminate.
Qed.

(** X16. Every issue type whose trimmed name contains "story" in some letter
    case has that name among those that [getStoryTypeNames] returns. *)
Theorem getStoryTypeNames_complete (types : list value)
    (names : list jsstring) (t : value) (n : jsstring) :
  story_types (VArr types) = Returns names ->
  In t types -> type_name t = Returns n ->
  test true storyRegex n = true ->
  In n names.
Proof.
  unfold getStoryTypeNames, js_or. cbn [truthy].
  destruct (map_outcome type_name types) as [raw| |] eqn:Hraw;
    try discriminate.
  cbn [bind]. cbv zeta. intros [= <-] Ht Hn Htest.
  assert (In n (set_from []
                  (filter (test true storyRegex)
                     (filter (fun n => negb (is_empty n)) raw)))) as Hin.
  { apply set_from_keeps; [|reflexivity].
    apply filter_In. split; [|exact Htest].
    apply filter_In. split.
    - destruct (map_outcome_In _ _ _ Hraw) as [_ H]. exact (H t n Ht Hn).
    - destruct n; [now rewrite test_empty_story in Htest|reflexivity]. }
  destruct (set_from [] _); [contradiction|exact Hin].
Qed.

End IssueTypes.

Lemma getStoryTypeNames_storyish_witness :
  [js "Story"; js "User Story"; js "story"] <> [] /\
  NoDup [js "Story"; js "User Story"; js "story"] /\
  Forall (fun n => test true storyRegex n = true /\ trim n = n /\ n <> [])
         [js "Story"; js "User Story"; js "story"].
Proof.
  apply (getStoryTypeNames_storyish Samples.number_text
           (VArr [VObj [(js "name", VStr (js "Story"))];
                  VObj [(js "name", VStr (js " User Story "))];
                  VObj [(js "name", VStr (js "Bug"))];
                  VNull;
                  VObj [(js "name", VStr (js "story"))];
                  VObj [(js "name", VStr (js "Story"))]])).
  vm_compute. reflexivity.
Defined.

Lemma getStoryTypeNames_complete_witness :
  In (js "User Story") [js "Story"; js "User Story"].
Proof.
  apply (getStoryTypeNames_complete Samples.number_text
           [VObj [(js "name", VStr (js "Story"))];
            VObj [(js "name", VStr (js " User Story "))];
            VObj [(js "name", VStr (js "Bug"))]]
           [js "Story"; js "User Story"]
           (VObj [(js "name", VStr (js " User Story "))])
           (js "User Story")).
  - vm_compute. reflexivity.
  - right. left. reflexivity.
  - vm_compute. reflexivity.
  - vm_compute. reflexivity.
Defined.

Lemma scan_from_chr (q : jschar) (n : nat) (s : jsstring) :
  scan_from false (Chr q) n s 0
  = map (fun c => if (q =? c)%N then Hit [c] [] else Keep c) s.
Proof.
  induction s as [|c s IH]; [reflexivity|].
  cbn [scan_from map]. unfold match_here. cbn [matches chr_matches hd_error].
  destruct (q =? c)%N; cbn [hd_error]; [|now rewrite IH].
  replace (length (c :: s) - length s) with 1 by (cbn [length]; lia).
  cbn [firstn]. now rewrite IH.
Qed.

(** X17. The quoting of an issue type name in the search of [getStories]:
    the name between two double quotes, with a backslash put before each
    double quote of the name and every other character, a backslash
    included, left as it is. *)
Theorem quoteName_escapes (n : jsstring) :
  quoteName n
  = [DQUOTE]
    ++ flat_map (fun c => if (c =? DQUOTE)%N then [BACKSLASH; DQUOTE] else [c])
         n
    ++ [DQUOTE].
Proof.
  unfold quoteName, replace_all, replace_with, scan.
  rewrite scan_from_chr. do 2 f_equal.
  induction n as [|c n IH]; [reflexivity|].
  cbn [map flat_map]. rewrite IH, (N.eqb_sym c DQUOTE).
  now destruct (DQUOTE =? c)%N.
Qed.

Lemma split_on_first (sep : jschar) (p suffix : jsstring) :
  forallb (fun c => negb (c =? sep)%N) p = true ->
  hd sep suffix = sep ->
  nth 0 (split_on sep (p ++ suffix)) [] = p.
Proof.
  intros Hp Hs. induction p as [|c p IH].
  - destruct suffix as [|x suffix]; [reflexivity|].
    cbn [hd] in Hs. subst x. cbn [app split_on]. now rewrite N.eqb_refl.
  - cbn [forallb] in Hp. apply andb_true_iff in Hp. destruct Hp as [Hc Hp].
    apply negb_true_iff in Hc. cbn [app split_on]. rewrite Hc.
    specialize (IH Hp).
    destruct (split_on sep (p ++ suffix)) as [|first others].
    + cbn [nth] in IH. now subst p.
    + cbn [nth] in *. now subst first.
Qed.

(** X18. The project key that [createSubtask] takes from the key of the
    parent issue is the part of the key before its first hyphen, and the
    whole key when it has no hyphen. *)
Theorem projectKeyOf_before_hyphen (parentData : value) (p suffix : jsstring) :
  nullish parentData = false ->
  get parentData (js "key") = VStr (p ++ suffix) ->
  forallb (fun c => negb (c =? HYPHEN)%N) p = true ->
  hd HYPHEN suffix = HYPHEN ->
  projectKeyOf parentData = Returns p.
Proof.
  intros Hdata Hkey Hp Hs. unfold projectKeyOf, get_strict.
  rewrite Hdata. cbn [bind]. rewrite Hkey.
  now rewrite split_on_first.
Qed.

Lemma projectKeyOf_before_hyphen_witness :
  projectKeyOf (VObj [(js "key", VStr (js "WEB-SHOP-12"))]) = Returns (js "WEB").
Proof.
  apply (projectKeyOf_before_hyphen
           (VObj [(js "key", VStr (js "WEB-SHOP-12"))])
           (js "WEB") (js "-SHOP-12"));
    vm_compute; reflexivity.
Defined.
